(** * Image-Processing-API: the asynchronous processing pipeline

    A shallow embedding of the worker of the repository
    ([app/tasks/worker.py], [app/services/image_service.py],
    [app/services/csv_service.py], [app/database/db.py]) and the
    properties of its status state machine.

    The Python code threads a database session and talks to the network
    and the file system.  The embedding makes that explicit: a [State]
    holds the two tables, the files written, the notifications posted and
    the history of commits; an [Env] holds what the outside world answers
    (HTTP fetches, the image codec, the file system, the callback
    endpoint, database faults).  Code runs in a state-and-exception monad
    in which an exception keeps the state reached so far, as a Python
    exception leaves the mutated objects as they are. *)

From Stdlib Require Import String Ascii List ZArith QArith Lia Bool Arith.
From Stdlib Require Import DecimalString DecimalNat Permutation.
Import ListNotations.
Local Close Scope Q_scope.
Local Open Scope list_scope.
Local Open Scope string_scope.

Set Implicit Arguments.

(** ** Data model ([app/database/db.py]) *)

(** [class ProcessingStatus(str, Enum)] *)
Inductive ProcessingStatus : Type :=
| PENDING
| PROCESSING
| COMPLETED
| FAILED.

Definition status_eqb (a b : ProcessingStatus) : bool :=
  match a, b with
  | PENDING, PENDING | PROCESSING, PROCESSING
  | COMPLETED, COMPLETED | FAILED, FAILED => true
  | _, _ => false
  end.

(** The value of the enum member, as stored in the [status] column. *)
Definition status_value (a : ProcessingStatus) : string :=
  match a with
  | PENDING => "pending"
  | PROCESSING => "processing"
  | COMPLETED => "completed"
  | FAILED => "failed"
  end.

(** Raw bytes of a downloaded or re-encoded image. *)
Definition bytes : Type := list Byte.byte.

(** [class Request(Base)]: one row per uploaded manifest (a batch).
    [webhook_triggered] is an Integer column, 0 = not triggered. *)
Module Request.
Record t : Type := mk {
  id : string;
  status : ProcessingStatus;
  csv_filename : string;
  total_products : Z;
  processed_products : Z;
  webhook_triggered : Z;
  webhook_url : option string
}.

Definition with_status (v : ProcessingStatus) (r : t) : t :=
  mk (id r) v (csv_filename r) (total_products r) (processed_products r)
     (webhook_triggered r) (webhook_url r).

Definition with_processed_products (v : Z) (r : t) : t :=
  mk (id r) (status r) (csv_filename r) (total_products r) v
     (webhook_triggered r) (webhook_url r).

Definition with_webhook_triggered (v : Z) (r : t) : t :=
  mk (id r) (status r) (csv_filename r) (total_products r)
     (processed_products r) v (webhook_url r).
End Request.

(** [class Product(Base)]: one row per manifest line (an item).  The two
    URL columns hold JSON text; the embedding keeps the decoded list, and
    [None] for a NULL [output_image_urls]. *)
Module Product.
Record t : Type := mk {
  id : Z;
  request_id : string;
  serial_number : Z;
  product_name : string;
  input_image_urls : list string;
  output_image_urls : option (list string);
  status : ProcessingStatus
}.

Definition with_status (v : ProcessingStatus) (p : t) : t :=
  mk (id p) (request_id p) (serial_number p) (product_name p)
     (input_image_urls p) (output_image_urls p) v.

(** [def get_input_urls(self)] *)
Definition get_input_urls (p : t) : list string := input_image_urls p.

(** [def get_output_urls(self)]: the empty list when the column is unset. *)
Definition get_output_urls (p : t) : list string :=
  match output_image_urls p with
  | None => []
  | Some urls => urls
  end.

(** [def set_output_urls(self, urls)] *)
Definition set_output_urls (urls : list string) (p : t) : t :=
  mk (id p) (request_id p) (serial_number p) (product_name p)
     (input_image_urls p) (Some urls) (status p).
End Product.

(** The body of the completion callback. [completion_percentage] is a
    Python float; the embedding keeps the exact quotient. *)
Record Payload : Type := mkPayload {
  pl_request_id : string;
  pl_status : string;
  pl_total_products : Z;
  pl_processed_products : Z;
  pl_completion_percentage : Q;
  pl_timestamp : string
}.

(** The dictionary returned by [_process_images]. *)
Record TaskResult : Type := mkTaskResult {
  res_status : string;
  res_request_id : string;
  res_error : option string
}.

(** Entries of the three functions of the pipeline, as they are called. *)
Inductive Call : Type :=
| CallProcessProduct (product_id : Z)
| CallUpdateStatus (request_id : string)
| CallTriggerWebhook (request_id : string).

(** ** The outside world *)

Record Env : Type := mkEnv {
  (** [app/config.py] *)
  API_BASE_URL : string;
  WEBHOOK_URL : string;
  PROCESSED_DIR : string;
  UPLOAD_DIR : string;
  (** [client.get(url, timeout=30.0)] followed by [raise_for_status()]:
      the content, or [None] when either raises. *)
  http_get : string -> option bytes;
  (** [Image.open], the PNG-to-RGB conversion and [img.save(..., 'JPEG',
      quality)]: the encoded bytes, or [None] when PIL raises. *)
  pil_jpeg : bytes -> Z -> option bytes;
  (** the n-th value drawn from [uuid.uuid4()] *)
  uuid4 : nat -> string;
  (** [open(path, "wb")] and [f.write(data)] succeed *)
  fs_write : string -> bytes -> bool;
  (** [client.post(url, json=payload, timeout=10.0)] followed by
      [raise_for_status()] succeeds *)
  http_post : string -> Payload -> bool;
  (** the n-th call to the database raises, with this message *)
  db_fault : nat -> option string;
  (** [datetime.utcnow().isoformat()] at the n-th database call *)
  utcnow : nat -> string
}.

(** A snapshot of the two tables, as a reader of the database sees them
    after a commit. *)
Definition Snapshot : Type := (list Request.t * list Product.t)%type.

Record State : Type := mkState {
  requests : list Request.t;
  products : list Product.t;
  files : list (string * bytes);
  uuid_ctr : nat;
  db_ops : nat;
  committed : list Snapshot;            (* newest first *)
  posts : list (string * Payload * bool); (* callbacks sent, newest first *)
  calls : list Call;                    (* newest first *)
  closed : bool
}.

Definition snap (s : State) : Snapshot := (requests s, products s).

Definition set_requests (v : list Request.t) (s : State) : State :=
  mkState v (products s) (files s) (uuid_ctr s) (db_ops s) (committed s)
          (posts s) (calls s) (closed s).

Definition set_products (v : list Product.t) (s : State) : State :=
  mkState (requests s) v (files s) (uuid_ctr s) (db_ops s) (committed s)
          (posts s) (calls s) (closed s).

(** [open(path, "wb")] truncates: what is written replaces the file that
    was stored under [path], if there was one. *)
Definition add_file (path : string) (data : bytes) (s : State) : State :=
  mkState (requests s) (products s)
          ((path, data)
           :: filter (fun f => negb (String.eqb (fst f) path)) (files s))
          (uuid_ctr s)
          (db_ops s) (committed s) (posts s) (calls s) (closed s).

Definition next_uuid (s : State) : State :=
  mkState (requests s) (products s) (files s) (S (uuid_ctr s)) (db_ops s)
          (committed s) (posts s) (calls s) (closed s).

Definition tick (s : State) : State :=
  mkState (requests s) (products s) (files s) (uuid_ctr s) (S (db_ops s))
          (committed s) (posts s) (calls s) (closed s).

Definition push_commit (s : State) : State :=
  mkState (requests s) (products s) (files s) (uuid_ctr s) (db_ops s)
          (snap s :: committed s) (posts s) (calls s) (closed s).

Definition add_post (url : string) (p : Payload) (ok : bool) (s : State)
  : State :=
  mkState (requests s) (products s) (files s) (uuid_ctr s) (db_ops s)
          (committed s) ((url, p, ok) :: posts s) (calls s) (closed s).

Definition add_call (c : Call) (s : State) : State :=
  mkState (requests s) (products s) (files s) (uuid_ctr s) (db_ops s)
          (committed s) (posts s) (c :: calls s) (closed s).

Definition set_closed (s : State) : State :=
  mkState (requests s) (products s) (files s) (uuid_ctr s) (db_ops s)
          (committed s) (posts s) (calls s) true.

(** ** The monad: state, and exceptions that keep the state *)

Inductive Res (A : Type) : Type :=
| Ret (a : A) (s : State)
| Exn (e : string) (s : State).

Arguments Exn {A} e s.

Definition M (A : Type) : Type := State -> Res A.

Definition ret {A} (a : A) : M A := fun s => Ret a s.

Definition bind {A B} (m : M A) (f : A -> M B) : M B :=
  fun s => match m s with
           | Ret a s' => f a s'
           | Exn e s' => Exn e s'
           end.

Definition raise {A} (e : string) : M A := fun s => Exn e s.

(** [try: m  except Exception as e: h e] *)
Definition try_except {A} (m : M A) (h : string -> M A) : M A :=
  fun s => match m s with
           | Ret a s' => Ret a s'
           | Exn e s' => h e s'
           end.

(** [try: m  finally: f] *)
Definition try_finally {A} (m : M A) (f : M unit) : M A :=
  fun s => match m s with
           | Ret a s' => match f s' with
                         | Ret _ s'' => Ret a s''
                         | Exn e s'' => Exn e s''
                         end
           | Exn e s' => match f s' with
                         | Ret _ s'' => Exn e s''
                         | Exn e' s'' => Exn e' s''
                         end
           end.

Definition gets {A} (f : State -> A) : M A := fun s => Ret (f s) s.
Definition modify (f : State -> State) : M unit := fun s => Ret tt (f s).

Declare Scope monad_scope.
Delimit Scope monad_scope with monad.
Notation "x <- m ;; k" := (bind m (fun x => k))
  (at level 61, m at next level, right associativity) : monad_scope.
Notation "m ;; k" := (bind m (fun _ => k))
  (at level 61, right associativity) : monad_scope.
Local Open Scope monad_scope.

Definition final {A} (r : Res A) : State :=
  match r with
  | Ret _ s => s
  | Exn _ s => s
  end.

(** ** Python helpers *)

(** Truth value of an [int]. *)
Definition truthy_int (n : Z) : bool := negb (n =? 0)%Z.

(** Truth value of a [str]. *)
Definition truthy_str (x : string) : bool :=
  match x with
  | EmptyString => false
  | String _ _ => true
  end.

(** [x or default] for an optional string. *)
Definition str_or (x : option string) (default : string) : string :=
  match x with
  | Some v => if truthy_str v then v else default
  | None => default
  end.

(** [sep.join(xs)] *)
Fixpoint join (sep : string) (xs : list string) : string :=
  match xs with
  | [] => ""
  | [x] => x
  | x :: rest => x ++ sep ++ join sep rest
  end.

(** [str(n)] for an [int]. *)
Definition str_int (n : Z) : string := NilZero.string_of_int (Z.to_int n).

(** [os.path.join(dir, name)] for a relative [name]. *)
Definition path_join (dir name : string) : string := dir ++ "/" ++ name.

(** Replace the first element that passes [test]: the object that
    [.first()] returned is the one an attribute assignment mutates. *)
Fixpoint update_first {A} (test : A -> bool) (f : A -> A) (l : list A)
  : list A :=
  match l with
  | [] => []
  | x :: rest => if test x then f x :: rest
                 else x :: update_first test f rest
  end.

(** ** Database session ([db: Session]) *)

Section Pipeline.

Variable env : Env.

(** Any call to the database may raise. *)
Definition db_call : M unit :=
  fun s => match db_fault env (db_ops s) with
           | Some e => Exn e (tick s)
           | None => Ret tt (tick s)
           end.

Definition request_has_id (request_id : string) (r : Request.t) : bool :=
  String.eqb (Request.id r) request_id.

Definition product_has_id (product_id : Z) (p : Product.t) : bool :=
  (Product.id p =? product_id)%Z.

Definition product_of_request (request_id : string) (p : Product.t) : bool :=
  String.eqb (Product.request_id p) request_id.

Definition product_has_status (v : ProcessingStatus) (p : Product.t) : bool :=
  status_eqb (Product.status p) v.

(** [db.query(Request).filter(Request.id == request_id).first()] *)
Definition query_request (request_id : string) : M (option Request.t) :=
  db_call ;;
  gets (fun s => find (request_has_id request_id) (requests s)).

(** [db.query(Product).filter(Product.id == product_id).first()] *)
Definition query_product (product_id : Z) : M (option Product.t) :=
  db_call ;;
  gets (fun s => find (product_has_id product_id) (products s)).

(** [db.query(Product).filter(Product.request_id == request_id).all()]:
    the rows of the batch in table order, the order of the manifest rows
    that [process_csv_file] inserted. *)
Definition query_products (request_id : string) : M (list Product.t) :=
  db_call ;;
  gets (fun s => filter (product_of_request request_id) (products s)).

(** [db.query(Product).filter(Product.request_id == request_id, ...).count()] *)
Definition count_products (request_id : string) (extra : Product.t -> bool)
  : M Z :=
  db_call ;;
  gets (fun s => Z.of_nat (List.length
     (filter (fun p => product_of_request request_id p && extra p)
             (products s)))).

(** [db.commit()] *)
Definition commit : M unit :=
  db_call ;;
  modify push_commit.

(** [db.close()] *)
Definition db_close : M unit := modify set_closed.

(** An assignment to an attribute of the request object. *)
Definition assign_request (request_id : string) (f : Request.t -> Request.t)
  : M unit :=
  modify (fun s => set_requests
    (update_first (request_has_id request_id) f (requests s)) s).

(** An assignment to an attribute of the product object. *)
Definition assign_product (product_id : Z) (f : Product.t -> Product.t)
  : M unit :=
  modify (fun s => set_products
    (update_first (product_has_id product_id) f (products s)) s).

Definition log_call (c : Call) : M unit := modify (add_call c).

(** ** [app/services/image_service.py] *)

(** [IMAGE_COMPRESSION_QUALITY = 50] *)
Definition IMAGE_COMPRESSION_QUALITY : Z := 50.

(** [async def download_image(url)]: every exception is caught and turned
    into [None]. *)
Definition download_image (url : string) : M (option bytes) :=
  ret (http_get env url).

(** [def compress_image(image_data, quality=IMAGE_COMPRESSION_QUALITY)]:
    every exception is caught and turned into [None]. *)
Definition compress_image (image_data : bytes) (quality : Z)
  : M (option bytes) :=
  ret (pil_jpeg env image_data quality).

(** [uuid.uuid4()] *)
Definition draw_uuid4 : M string :=
  fun s => Ret (uuid4 env (uuid_ctr s)) (next_uuid s).

(** [with open(output_path, "wb") as f: f.write(data)] *)
Definition write_file (path : string) (data : bytes) : M unit :=
  if fs_write env path data then modify (add_file path data)
  else raise ("OSError: " ++ path).

(** The URL under which a stored file is served. *)
Definition image_url (filename : string) : string :=
  API_BASE_URL env ++ "/api/image/" ++ filename.

(** [async def process_image(url)] *)
Definition process_image (url : string) : M (option string) :=
  image_data <- download_image url ;;
  match image_data with
  | None => ret None
  | Some data =>
      compressed_data <- compress_image data IMAGE_COMPRESSION_QUALITY ;;
      match compressed_data with
      | None => ret None
      | Some compressed =>
          u <- draw_uuid4 ;;
          let filename := u ++ ".jpg" in
          let output_path := path_join (PROCESSED_DIR env) filename in
          write_file output_path compressed ;;
          ret (Some (image_url filename))
      end
  end.

(** What the loop of [process_product_images] appends for one reference:
    [if processed_url: ... else: output_urls.append("")]. *)
Definition output_entry (processed_url : option string) : string :=
  match processed_url with
  | Some u => if truthy_str u then u else ""
  | None => ""
  end.

(** [for url in input_urls: ...], with [output_urls] as accumulator. *)
Fixpoint process_urls (input_urls : list string) (output_urls : list string)
  : M (list string) :=
  match input_urls with
  | [] => ret output_urls
  | url :: rest =>
      processed_url <- process_image url ;;
      process_urls rest (output_urls ++ [output_entry processed_url])%list
  end.

(** [async def process_product_images(product_id, db)] *)
Definition process_product_images (product_id : Z) : M bool :=
  log_call (CallProcessProduct product_id) ;;
  product <- query_product product_id ;;
  match product with
  | None => ret false
  | Some p =>
      assign_product product_id (Product.with_status PROCESSING) ;;
      commit ;;
      try_except
        (let input_urls := Product.get_input_urls p in
         output_urls <- process_urls input_urls [] ;;
         assign_product product_id (Product.set_output_urls output_urls) ;;
         assign_product product_id (Product.with_status COMPLETED) ;;
         commit ;;
         ret true)
        (fun e =>
           assign_product product_id (Product.with_status FAILED) ;;
           commit ;;
           ret false)
  end.

(** [async def update_request_status(request_id, db)] *)
Definition update_request_status (request_id : string) : M unit :=
  log_call (CallUpdateStatus request_id) ;;
  request <- query_request request_id ;;
  match request with
  | None => ret tt
  | Some _ =>
      total <- count_products request_id (fun _ => true) ;;
      completed <- count_products request_id (product_has_status COMPLETED) ;;
      failed <- count_products request_id (product_has_status FAILED) ;;
      assign_request request_id
        (Request.with_processed_products (completed + failed)) ;;
      (if (completed + failed =? total)%Z then
         if ((failed >? 0)%Z && (completed =? 0)%Z)%bool then
           assign_request request_id (Request.with_status FAILED)
         else
           assign_request request_id (Request.with_status COMPLETED)
       else if (completed + failed >? 0)%Z then
         assign_request request_id (Request.with_status PROCESSING)
       else ret tt) ;;
      commit
  end.

(** ** [app/tasks/worker.py] *)

(** [(processed / total * 100) if total > 0 else 0] *)
Definition completion_percentage (r : Request.t) : Q :=
  if (Request.total_products r >? 0)%Z then
    (inject_Z (Request.processed_products r)
     / inject_Z (Request.total_products r) * inject_Z 100)%Q
  else 0%Q.

Definition webhook_payload (request_id : string) (r : Request.t)
  (timestamp : string) : Payload :=
  mkPayload request_id (status_value (Request.status r))
            (Request.total_products r) (Request.processed_products r)
            (completion_percentage r) timestamp.

(** [client.post(webhook_url, json=payload, timeout=10.0)] and
    [response.raise_for_status()] *)
Definition post_webhook (url : string) (payload : Payload) : M unit :=
  if http_post env url payload then modify (add_post url payload true)
  else (modify (add_post url payload false) ;;
        raise ("HTTPError: " ++ url)).

(** [async def trigger_webhook_if_needed(request_id, db)]; the result is
    [None] for a bare [return]. *)
Definition trigger_webhook_if_needed (request_id : string)
  : M (option bool) :=
  log_call (CallTriggerWebhook request_id) ;;
  request <- query_request request_id ;;
  match request with
  | None => ret None
  | Some r =>
      if (truthy_int (Request.webhook_triggered r)
          || negb (status_eqb (Request.status r) COMPLETED))%bool
      then ret None
      else
        let webhook_url := str_or (Request.webhook_url r) (WEBHOOK_URL env) in
        if negb (truthy_str webhook_url) then ret None
        else
          timestamp <- gets (fun s => utcnow env (db_ops s)) ;;
          let payload := webhook_payload request_id r timestamp in
          try_except
            (post_webhook webhook_url payload ;;
             assign_request request_id (Request.with_webhook_triggered 1) ;;
             commit ;;
             ret (Some true))
            (fun e => ret (Some false))
  end.

(** [for product in products: ...] of [_process_images] *)
Fixpoint process_products (request_id : string) (ps : list Product.t)
  : M unit :=
  match ps with
  | [] => ret tt
  | product :: rest =>
      process_product_images (Product.id product) ;;
      update_request_status request_id ;;
      process_products request_id rest
  end.

Definition success_result (request_id : string) : TaskResult :=
  mkTaskResult "success" request_id None.

Definition error_result (request_id : string) (e : string) : TaskResult :=
  mkTaskResult "error" request_id (Some e).

(** The [try] block of [_process_images]. *)
Definition _process_images_try (request_id : string) : M TaskResult :=
  ps <- query_products request_id ;;
  request <- query_request request_id ;;
  match request with
  | Some _ =>
      assign_request request_id (Request.with_status PROCESSING) ;;
      commit
  | None => ret tt
  end ;;
  process_products request_id ps ;;
  trigger_webhook_if_needed request_id ;;
  ret (success_result request_id).

(** The [except Exception as e] block of [_process_images]. *)
Definition _process_images_except (request_id : string) (e : string)
  : M TaskResult :=
  request <- query_request request_id ;;
  match request with
  | Some _ =>
      assign_request request_id (Request.with_status FAILED) ;;
      commit
  | None => ret tt
  end ;;
  ret (error_result request_id e).

(** [async def _process_images(request_id)], the body of the task
    [process_images_task]. *)
Definition _process_images (request_id : string) : M TaskResult :=
  try_finally
    (try_except (_process_images_try request_id)
                (_process_images_except request_id))
    db_close.

(** [def process_images_task(request_id)], the Celery task: it runs
    [_process_images] to its end on the event loop. *)
Definition process_images_task (request_id : string) : M TaskResult :=
  _process_images request_id.

(** ** [app/services/csv_service.py] *)

(** One line of the result manifest. *)
Definition csv_row (p : Product.t) : string :=
  str_int (Product.serial_number p) ++ "," ++ Product.product_name p ++ ","
  ++ join "," (Product.get_input_urls p) ++ ","
  ++ join "," (Product.get_output_urls p) ++ String "010" "".

Definition csv_header : string :=
  "S. No.,Product Name,Input Image Urls,Output Image Urls" ++ String "010" "".

(** [def generate_output_csv(request_id, db)]: the path of the file and
    the text written to it, or [None] unless the request is completed. *)
Definition generate_output_csv (request_id : string)
  : M (option (string * string)) :=
  request <- query_request request_id ;;
  match request with
  | None => ret None
  | Some r =>
      if negb (status_eqb (Request.status r) COMPLETED) then ret None
      else
        ps <- query_products request_id ;;
        let output_path :=
          path_join (UPLOAD_DIR env) ("output_" ++ request_id ++ ".csv") in
        ret (Some (output_path,
                   csv_header ++ String.concat "" (map csv_row ps)))
  end.

End Pipeline.

(** ** Observations on a state *)

Definition find_request (request_id : string) (s : State)
  : option Request.t :=
  find (request_has_id request_id) (requests s).

Definition find_product (product_id : Z) (s : State) : option Product.t :=
  find (product_has_id product_id) (products s).

(** The items of a batch, in table order. *)
Definition batch_items (request_id : string) (s : State) : list Product.t :=
  filter (product_of_request request_id) (products s).

Definition request_status (request_id : string) (s : State)
  : option ProcessingStatus :=
  option_map Request.status (find_request request_id s).

Definition request_processed (request_id : string) (s : State) : option Z :=
  option_map Request.processed_products (find_request request_id s).

(** A terminal status: [completed] or [failed]. *)
Definition is_terminal (v : ProcessingStatus) : bool :=
  match v with
  | COMPLETED | FAILED => true
  | PENDING | PROCESSING => false
  end.

Definition count_items (request_id : string) (test : Product.t -> bool)
  (s : State) : Z :=
  Z.of_nat (List.length (filter test (batch_items request_id s))).

Definition total_count (request_id : string) (s : State) : Z :=
  count_items request_id (fun _ => true) s.

Definition completed_count (request_id : string) (s : State) : Z :=
  count_items request_id (product_has_status COMPLETED) s.

Definition failed_count (request_id : string) (s : State) : Z :=
  count_items request_id (product_has_status FAILED) s.

Definition terminal_count (request_id : string) (s : State) : Z :=
  count_items request_id (fun p => is_terminal (Product.status p)) s.

(** The database never raises. *)
Definition reliable (env : Env) : Prop :=
  forall n, db_fault env n = None.

(** ** A concrete world and database, for running the code *)

Definition demo_uuid (n : nat) : string :=
  "9f1c2e7a-0000-4000-8000-" ++ NilZero.string_of_uint (Nat.to_uint n).

(** Fetches from the host [img.example] succeed, any other fails; the codec
    accepts non-empty data; the disk and the callback endpoint work. *)
Definition demo_env : Env :=
  mkEnv "http://localhost:8000" "" "data/processed" "data/uploads"
        (fun url => if String.prefix "http://img.example/" url
                    then Some [Byte.x01] else None)
        (fun data _ => match data with [] => None | _ => Some data end)
        demo_uuid
        (fun _ _ => true)
        (fun _ _ => true)
        (fun _ => None)
        (fun _ => "2025-01-01T00:00:00").

Definition demo_request (v : ProcessingStatus) (total processed flag : Z)
  : Request.t :=
  Request.mk "r1" v "manifest.csv" total processed flag
             (Some "http://hooks.example/done").

Definition demo_product (i : Z) (urls : list string)
  (out : option (list string)) (v : ProcessingStatus) : Product.t :=
  Product.mk i "r1" i "sku" urls out v.

Definition demo_state (rs : list Request.t) (ps : list Product.t) : State :=
  mkState rs ps [] 0 0 [] [] [] false.

(** The row that the aggregation step leaves for the request, from the
    counts over the items of [s]. *)
Definition aggregated (request_id : string) (s : State) (r : Request.t)
  : Request.t :=
  let completed := completed_count request_id s in
  let failed := failed_count request_id s in
  let r1 := Request.with_processed_products (completed + failed) r in
  if (completed + failed =? total_count request_id s)%Z then
    if ((failed >? 0)%Z && (completed =? 0)%Z)%bool
    then Request.with_status FAILED r1
    else Request.with_status COMPLETED r1
  else if (completed + failed >? 0)%Z
       then Request.with_status PROCESSING r1
       else r1.

(** ** The claims of the specification that the code does not meet, in
    the specification's words *)

(** The aggregation rule as the specification words it, read on the state
    [s'] that the aggregation step leaves; [before] is the status of the
    batch before the step. *)
Definition aggregation_rule_spec (request_id : string)
  (before : ProcessingStatus) (s' : State) : Prop :=
  let P := terminal_count request_id s' in
  let T := total_count request_id s' in
  let C := completed_count request_id s' in
  (request_status request_id s' = Some COMPLETED <-> P = T /\ 1 <= C)%Z /\
  (request_status request_id s' = Some FAILED <-> P = T /\ C = 0)%Z /\
  (0 < P < T -> request_status request_id s' = Some PROCESSING)%Z /\
  (P = 0 -> request_status request_id s' = Some before)%Z.

(** A batch without items, already picked up by the worker. *)
Definition empty_batch : State :=
  demo_state [demo_request PROCESSING 0 0 0] [].

(** A batch of three items: one completed, one failed, one pending. *)
Definition mixed_batch : State :=
  demo_state [demo_request PROCESSING 3 0 0]
    [demo_product 1 ["http://img.example/a.png"]
                  (Some ["http://localhost:8000/api/image/a.jpg"]) COMPLETED;
     demo_product 2 ["http://img.example/b.png"] None FAILED;
     demo_product 3 ["http://img.example/c.png"] None PENDING].

(** ** Outcomes of one image reference *)

(** The reference fails at the fetch stage or at the transform stage. *)
Definition reference_fails (env : Env) (url : string) : Prop :=
  http_get env url = None \/
  exists data, http_get env url = Some data /\
               pil_jpeg env data IMAGE_COMPRESSION_QUALITY = None.

(** The reference is fetched and re-encoded. *)
Definition reference_succeeds (env : Env) (url : string) : Prop :=
  exists data compressed,
    http_get env url = Some data /\
    pil_jpeg env data IMAGE_COMPRESSION_QUALITY = Some compressed.

(** [out] is the URL of a file named by one of the uuids drawn from the
    [lo]-th on and before the [hi]-th. *)
Definition generated_url (env : Env) (lo hi : nat) (out : string) : Prop :=
  exists k, (lo <= k < hi)%nat /\ out = image_url env (uuid4 env k ++ ".jpg").

(** The output entry that belongs to an input reference. *)
Definition entry_for (env : Env) (lo hi : nat) (url out : string) : Prop :=
  (reference_fails env url /\ out = "") \/
  (reference_succeeds env url /\ generated_url env lo hi out).

(** The writes that the loop over the references [urls] asks of the file
    system when [lo] uuids were drawn before it and no write is refused:
    one for every reference that is fetched and re-encoded, of the
    re-encoded bytes, under the name drawn for it. *)
Fixpoint writes_of (env : Env) (lo : nat) (urls : list string)
  : list (string * bytes) :=
  match urls with
  | [] => []
  | url :: rest =>
      match http_get env url with
      | Some data =>
          match pil_jpeg env data IMAGE_COMPRESSION_QUALITY with
          | Some compressed =>
              (path_join (PROCESSED_DIR env) (uuid4 env lo ++ ".jpg"),
               compressed) :: writes_of env (S lo) rest
          | None => writes_of env lo rest
          end
      | None => writes_of env lo rest
      end
  end.

(** [s'] differs from [s] at most in the files written and in the number
    of uuids drawn. *)
Definition same_database (s s' : State) : Prop :=
  requests s' = requests s /\ products s' = products s /\
  db_ops s' = db_ops s /\ committed s' = committed s /\
  posts s' = posts s /\ calls s' = calls s /\ closed s' = closed s /\
  (uuid_ctr s <= uuid_ctr s')%nat.

(** [x] occurs verbatim in [text]. *)
Definition occurs_in (x text : string) : Prop :=
  exists before after, text = before ++ x ++ after.

(** The correspondence between the output list and the input list of an
    item, as the specification states it for every terminal item: equal
    lengths, and at each index a placeholder for a reference that fails
    and a URL for one that succeeds. *)
Definition outputs_match_inputs_spec (env : Env) (p : Product.t) : Prop :=
  is_terminal (Product.status p) = true ->
  List.length (Product.get_output_urls p)
  = List.length (Product.get_input_urls p) /\
  forall i url out,
    nth_error (Product.get_input_urls p) i = Some url ->
    nth_error (Product.get_output_urls p) i = Some out ->
    (reference_fails env url /\ out = "") \/
    (reference_succeeds env url /\ out <> "").

(** The form of a generated image URL in the specification's words: the
    path [/image/{generated-name}.jpg] under the configured base URL. *)
Definition image_url_spec (env : Env) (out : string) : Prop :=
  exists name, out = API_BASE_URL env ++ "/image/" ++ name ++ ".jpg".

(** The world of [demo_env], with a disk that refuses every write. *)
Definition full_disk_env : Env :=
  mkEnv (API_BASE_URL demo_env) (WEBHOOK_URL demo_env)
        (PROCESSED_DIR demo_env) (UPLOAD_DIR demo_env)
        (http_get demo_env) (pil_jpeg demo_env) (uuid4 demo_env)
        (fun _ _ => false)
        (http_post demo_env) (db_fault demo_env) (utcnow demo_env).

(** A fresh batch of one item with one reference. *)
Definition single_item_batch (url : string) : State :=
  demo_state [demo_request PENDING 1 0 0]
             [demo_product 1 [url] None PENDING].

(** A fresh batch of two items; the first reference of the first item
    cannot be fetched. *)
Definition two_item_batch : State :=
  demo_state [demo_request PENDING 2 0 0]
    [demo_product 1 ["http://broken.example/x.png";
                     "http://img.example/a.png"] None PENDING;
     demo_product 2 ["http://img.example/b.png"] None PENDING].

(** The start of the run: the items are read and the batch is set to
    [processing]. *)
Definition started (request_id : string) (s : State) : State :=
  push_commit (tick (set_requests
    (update_first (request_has_id request_id)
                  (Request.with_status PROCESSING) (requests s))
    (tick (tick s)))).

(** The world of [demo_env], with a database whose calls numbered by
    [bad] raise. *)
Definition flaky_db_env (bad : nat -> bool) : Env :=
  mkEnv (API_BASE_URL demo_env) (WEBHOOK_URL demo_env)
        (PROCESSED_DIR demo_env) (UPLOAD_DIR demo_env)
        (http_get demo_env) (pil_jpeg demo_env) (uuid4 demo_env)
        (fs_write demo_env) (http_post demo_env)
        (fun k => if bad k then Some "OperationalError" else None)
        (utcnow demo_env).

(** ** Notification state *)

(** The notification-sent flag of a batch, as a truth value. *)
Definition notified (request_id : string) (s : State) : bool :=
  match find_request request_id s with
  | Some r => truthy_int (Request.webhook_triggered r)
  | None => false
  end.

(** The notification-sent flag of a batch in a committed snapshot. *)
Definition snapshot_notified (request_id : string) (c : Snapshot) : bool :=
  match find (request_has_id request_id) (fst c) with
  | Some r => truthy_int (Request.webhook_triggered r)
  | None => false
  end.

(** Identifier and notification flag of every row of the request table. *)
Definition flags (rs : list Request.t) : list (string * Z) :=
  map (fun r => (Request.id r, Request.webhook_triggered r)) rs.

(** From [s] to [s'] no callback was sent and no notification flag
    changed, in memory or in any snapshot committed on the way. *)
Definition notification_frame (s s' : State) : Prop :=
  posts s' = posts s /\
  flags (requests s') = flags (requests s) /\
  exists new, committed s' = (new ++ committed s)%list /\
              Forall (fun c => flags (fst c) = flags (requests s)) new.

(** [n] runs of the task on the same batch, one after the other. *)
Fixpoint reinvoke (env : Env) (request_id : string) (n : nat) (s : State)
  : State :=
  match n with
  | O => s
  | S k => reinvoke env request_id k
             (final (_process_images env request_id s))
  end.

(** A relation on states holds from the start to the end of [m], whether
    [m] returns or raises. *)
Definition keeps (R : State -> State -> Prop) (A : Type) (m : M A) : Prop :=
  forall s, R s (final (m s)).

(** A batch that was completed and notified by an earlier run. *)
Definition notified_batch : State :=
  demo_state [demo_request COMPLETED 1 1 1]
    [demo_product 1 ["http://img.example/a.png"]
       (Some ["http://localhost:8000/api/image/a.jpg"]) COMPLETED].

(** ** Histories of commits *)

(** Position of a status on the path
    [pending -> processing -> {completed, failed}]. *)
Definition rank (v : ProcessingStatus) : nat :=
  match v with
  | PENDING => 0
  | PROCESSING => 1
  | COMPLETED | FAILED => 2
  end.

(** Rank of the status of an item in a snapshot (0 when it has no row). *)
Definition item_rank (product_id : Z) (c : Snapshot) : nat :=
  match find (product_has_id product_id) (snd c) with
  | Some p => rank (Product.status p)
  | None => 0
  end.

(** No item is at an earlier status in [newer] than in [older]. *)
Definition forward (older newer : Snapshot) : Prop :=
  forall product_id,
    (item_rank product_id older <= item_rank product_id newer)%nat.

(** Rank of the status and processed count of a batch in a snapshot. *)
Definition batch_rank (request_id : string) (c : Snapshot) : nat :=
  match find (request_has_id request_id) (fst c) with
  | Some r => rank (Request.status r)
  | None => 0
  end.

Definition batch_processed (request_id : string) (c : Snapshot) : Z :=
  match find (request_has_id request_id) (fst c) with
  | Some r => Request.processed_products r
  | None => 0
  end.

(** The status and the processed count of the batch do not go back from
    [older] to [newer]. *)
Definition progress (request_id : string) (older newer : Snapshot) : Prop :=
  (batch_rank request_id older <= batch_rank request_id newer)%nat /\
  (batch_processed request_id older <= batch_processed request_id newer)%Z.

(** [le] holds between each element of [a :: l] and the next. *)
Fixpoint chain (le : Snapshot -> Snapshot -> Prop) (a : Snapshot)
  (l : list Snapshot) : Prop :=
  match l with
  | [] => True
  | b :: rest => le a b /\ chain le b rest
  end.

(** The snapshots committed between [s] and [s'], oldest first. *)
Definition run_history (s s' : State) : list Snapshot :=
  rev (firstn (List.length (committed s') - List.length (committed s))
              (committed s')).

(** From [s] to [s'] the commits and the tables only move along [le]. *)
Definition advances (le : Snapshot -> Snapshot -> Prop) (s s' : State)
  : Prop :=
  exists new, committed s' = (new ++ committed s)%list /\
              chain le (snap s) (rev new ++ [snap s'])%list.

(** The calls that a run of the driver makes for a list of items, in the
    order in which it makes them. *)
Definition expected_calls (request_id : string) (ps : list Product.t)
  : list Call :=
  (flat_map (fun p => [CallProcessProduct (Product.id p);
                       CallUpdateStatus request_id]) ps
   ++ [CallTriggerWebhook request_id])%list.


(** ** The commits of a run, turn by turn *)

(** Status of an item in a snapshot. *)
Definition item_status (product_id : Z) (c : Snapshot)
  : option ProcessingStatus :=
  option_map Product.status (find (product_has_id product_id) (snd c)).

(** Number of terminal items among the rows [ps]. *)
Definition terminal_items (ps : list Product.t) : Z :=
  Z.of_nat (List.length
    (filter (fun p => is_terminal (Product.status p)) ps)).

(** The three commits of one turn of the driver's loop: the commit of
    the item processor that sets the item to [processing], its commit of
    the terminal status, and the commit of the aggregation step. *)
Record Turn : Type := mkTurn {
  turn_processing : Snapshot;
  turn_done : Snapshot;
  turn_aggregated : Snapshot
}.

Definition turn_commits (t : Turn) : list Snapshot :=
  [turn_processing t; turn_done t; turn_aggregated t].

(** [t] is the turn of the item [p]: the item is [processing] in the first
    commit and terminal in the second; the item processor leaves the
    request table alone and the aggregation step the product table. *)
Definition turn_of (p : Product.t) (t : Turn) : Prop :=
  item_status (Product.id p) (turn_processing t) = Some PROCESSING /\
  fst (turn_done t) = fst (turn_processing t) /\
  snd (turn_aggregated t) = snd (turn_done t) /\
  exists v, is_terminal v = true /\
            item_status (Product.id p) (turn_done t) = Some v.

(** The status of the batch does not go back from [older] to [newer]. *)
Definition status_progress (request_id : string) (older newer : Snapshot)
  : Prop :=
  (batch_rank request_id older <= batch_rank request_id newer)%nat.


(** ** Python strings, as [app/services/csv_service.py] uses them

    A string is a sequence of code points below 256; separators are
    single characters. *)

(** [ch.isspace()] *)
Definition is_space (c : ascii) : bool :=
  let n := nat_of_ascii c in
  ((9 <=? n) && (n <=? 13) || (28 <=? n) && (n <=? 32)
   || (n =? 133) || (n =? 160))%nat%bool.

(** [s.lstrip()] *)
Fixpoint lstrip (s : string) : string :=
  match s with
  | EmptyString => EmptyString
  | String c rest => if is_space c then lstrip rest else s
  end.

(** [s.rstrip()] *)
Fixpoint rstrip (s : string) : string :=
  match s with
  | EmptyString => EmptyString
  | String c rest =>
      match rstrip rest with
      | EmptyString => if is_space c then EmptyString else String c EmptyString
      | r => String c r
      end
  end.

(** [s.strip()] *)
Definition strip (s : string) : string := rstrip (lstrip s).

(** [s.split(sep)] for a one-character [sep]: never the empty list. *)
Fixpoint split_on (sep : ascii) (s : string) : list string :=
  match s with
  | EmptyString => [EmptyString]
  | String c rest =>
      if Ascii.eqb c sep then EmptyString :: split_on sep rest
      else match split_on sep rest with
           | x :: xs => String c x :: xs
           | [] => [String c EmptyString]
           end
  end.

(** [s.split(sep, maxsplit)] for a one-character [sep]. *)
Fixpoint split_max (sep : ascii) (s : string) (maxsplit : nat) {struct s}
  : list string :=
  match maxsplit with
  | O => [s]
  | S k =>
      match s with
      | EmptyString => [EmptyString]
      | String c rest =>
          if Ascii.eqb c sep then EmptyString :: split_max sep rest k
          else match split_max sep rest maxsplit with
               | x :: xs => String c x :: xs
               | [] => [String c EmptyString]
               end
      end
  end.

(** The lines of a text file, each with its newline, as [f.readline()] and
    [for line in f] deliver them. *)
Fixpoint text_lines (s : string) : list string :=
  match s with
  | EmptyString => []
  | String c rest =>
      if Ascii.eqb c "010"%char then String c EmptyString :: text_lines rest
      else match text_lines rest with
           | x :: xs => String c x :: xs
           | [] => [String c EmptyString]
           end
  end.

(** [x in xs] for a list of strings. *)
Definition str_in (x : string) (xs : list string) : bool :=
  existsb (String.eqb x) xs.

(** [os.path.basename(path)] *)
Definition basename (path : string) : string :=
  last (split_on "/"%char path) EmptyString.

(** ** Ingestion of a manifest ([app/services/csv_service.py]) *)

(** One row of the DataFrame that [validate_csv_format] returns, with the
    columns "S. No.", "Product Name" and "Input Image Urls". *)
Record CsvRow : Type := mkCsvRow {
  col_s_no : string;
  col_product_name : string;
  col_input_image_urls : string
}.

(** The column names that the header must contain. *)
Definition required_columns : list string :=
  ["S. No."; "Product Name"; "Input Image Urls"].

(** The URLs of a cell: [[url.strip() for url in urls.split(',')]]. *)
Definition url_list_of (urls : string) : list string :=
  map strip (split_on ","%char urls).

(** The body of the loop of [validate_csv_format] for the line numbered
    [idx]: the row to append, or the message of the [CSVValidationError]. *)
Definition validate_line (idx : Z) (line : string) : string + CsvRow :=
  match split_max ","%char (strip line) 2 with
  | [serial_no; product_name; urls] =>
      if (negb (truthy_str serial_no) || negb (truthy_str product_name)
          || negb (truthy_str urls))%bool
      then inl ("Missing data in row " ++ str_int idx)
      else
        let url_list := url_list_of urls in
        if (match url_list with [] => true | _ => false end
            || existsb (fun url => negb (String.prefix "http" url)) url_list)%bool
        then inl ("Invalid image URL format in row " ++ str_int idx)
        else inr (mkCsvRow serial_no product_name urls)
  | _ => inl ("Missing data in row " ++ str_int idx)
  end.

(** [for idx, line in enumerate(f, 1): ...], with [data] as accumulator. *)
Fixpoint validate_lines (idx : Z) (lines : list string) (data : list CsvRow)
  : string + list CsvRow :=
  match lines with
  | [] => inr data
  | line :: rest =>
      match validate_line idx line with
      | inl e => inl e
      | inr row => validate_lines (idx + 1) rest (data ++ [row])
      end
  end.

(** The part of [validate_csv_format] that works on the text of the file. *)
Definition validate_csv_text (text : string) : string + list CsvRow :=
  let lines := text_lines text in
  let header := split_on ","%char (strip (hd EmptyString lines)) in
  if negb (forallb (fun col => str_in col header) required_columns)
  then inl "Missing required columns"
  else if negb (List.length header =? 3)%nat
       then inl "Invalid number of columns"
       else validate_lines 1 (tl lines) [].

Section Ingestion.

(** The text of a file, or the message of the exception that opening or
    reading it raises. *)
Variable read_text : string -> string + string.

(** The value that the Integer column [serial_number] returns for the
    text stored in it. *)
Variable integer_of_text : string -> Z.

(** The primary key that the database gives to a new row of the product
    table. *)
Variable new_product_id : list Product.t -> Z.

Variable env : Env.

(** [def validate_csv_format(file_path)]: the DataFrame, or the message
    of the [CSVValidationError] it raises; any other exception is wrapped
    into one. *)
Definition validate_csv_format (file_path : string) : string + list CsvRow :=
  match read_text file_path with
  | inl e => inl ("Error validating CSV: " ++ e)
  | inr text => validate_csv_text text
  end.

(** [db.add(new_request)] *)
Definition add_request (r : Request.t) : M unit :=
  modify (fun s => set_requests (requests s ++ [r])%list s).

(** [db.add(new_product)]; the row gets its primary key from the
    database. *)
Definition add_product (p : Z -> Product.t) : M unit :=
  modify (fun s =>
    set_products (products s ++ [p (new_product_id (products s))])%list s).

(** The product that [process_csv_file] builds from a row. *)
Definition product_of_row (request_id : string) (row : CsvRow) (id : Z)
  : Product.t :=
  Product.mk id request_id (integer_of_text (col_s_no row))
             (col_product_name row)
             (url_list_of (col_input_image_urls row)) None PENDING.

(** [for idx, row in df.iterrows(): ...] *)
Fixpoint add_products (request_id : string) (rows : list CsvRow) : M unit :=
  match rows with
  | [] => ret tt
  | row :: rest =>
      add_product (product_of_row request_id row) ;;
      add_products request_id rest
  end.

(** [def process_csv_file(file_path, db, webhook_url=None)] *)
Definition process_csv_file (file_path : string)
  (webhook_url : option string) : M string :=
  match validate_csv_format file_path with
  | inl e => raise e
  | inr df =>
      request_id <- draw_uuid4 env ;;
      let filename := basename file_path in
      add_request (Request.mk request_id PENDING filename
                              (Z.of_nat (List.length df)) 0 0 webhook_url) ;;
      add_products request_id df ;;
      commit env ;;
      ret request_id
  end.

End Ingestion.

(** A manifest of two rows, the same manifest followed by an empty line,
    and a file system that holds both. *)
Definition demo_manifest : string :=
  "S. No.,Product Name,Input Image Urls" ++ String "010"
  ("1,SKU1,http://broken.example/x.png, http://img.example/a.png"
   ++ String "010"
  ("2,SKU2,http://img.example/b.png" ++ String "010" "")).

Definition demo_manifest_blank : string :=
  demo_manifest ++ String "010" "".

Definition demo_read_text (path : string) : string + string :=
  if String.eqb path "data/uploads/m.csv" then inr demo_manifest
  else if String.eqb path "data/uploads/blank.csv"
       then inr demo_manifest_blank
       else inl ("[Errno 2] No such file or directory: '" ++ path ++ "'").

(** The rows of [demo_manifest]. *)
Definition demo_rows : list CsvRow :=
  [mkCsvRow "1" "SKU1"
            "http://broken.example/x.png, http://img.example/a.png";
   mkCsvRow "2" "SKU2" "http://img.example/b.png"].

(** The key after the largest key in use. *)
Definition demo_new_product_id (ps : list Product.t) : Z :=
  fold_right Z.max 0%Z (map Product.id ps) + 1.

(** The number that a decimal text denotes, 0 for any other text. *)
Definition demo_integer_of_text (x : string) : Z :=
  match NilZero.int_of_string x with
  | Some i => Z.of_int i
  | None => 0%Z
  end.

(** [c in s] for a character. *)
Fixpoint has_char (c : ascii) (s : string) : bool :=
  match s with
  | EmptyString => false
  | String d rest => (Ascii.eqb d c || has_char c rest)%bool
  end.

(** A line of the manifest and the row read from it: the three cells
    joined by commas are the stripped line, the first two cells are
    non-empty and free of commas, and every URL of the third starts with
    "http". *)
Definition row_of_line (line : string) (row : CsvRow) : Prop :=
  strip line
  = col_s_no row ++ "," ++ col_product_name row ++ ","
    ++ col_input_image_urls row /\
  col_s_no row <> "" /\ col_product_name row <> "" /\
  col_input_image_urls row <> "" /\
  has_char ","%char (col_s_no row) = false /\
  has_char ","%char (col_product_name row) = false /\
  Forall (fun url => String.prefix "http" url = true)
         (url_list_of (col_input_image_urls row)).

(** The item that [process_csv_file] creates for a row of the manifest:
    pending, without outputs, its references the stripped URLs of the
    row. *)
Definition item_of_row (request_id : string) (row : CsvRow)
  (p : Product.t) : Prop :=
  Product.request_id p = request_id /\
  Product.product_name p = col_product_name row /\
  Product.get_input_urls p = url_list_of (col_input_image_urls row) /\
  Product.output_image_urls p = None /\
  Product.status p = PENDING.



(** ** The processed-files directory *)

(** The path under which [process_image] stores the image named by the
    [k]-th uuid. *)
Definition stored_path (env : Env) (k : nat) : string :=
  path_join (PROCESSED_DIR env) (uuid4 env k ++ ".jpg").

(** The content of the file stored under [path], if there is one. *)
Definition file_at (fs : list (string * bytes)) (path : string)
  : option bytes :=
  option_map snd (find (fun f => String.eqb (fst f) path) fs).

(** From [s] to [s'] files were written only under the paths of uuids
    drawn in between, and no file was removed. *)
Definition stores (env : Env) (s s' : State) : Prop :=
  (uuid_ctr s <= uuid_ctr s')%nat /\
  (forall path,
      (forall k, (uuid_ctr s <= k < uuid_ctr s')%nat ->
                 stored_path env k <> path) ->
      file_at (files s') path = file_at (files s) path) /\
  (forall path, file_at (files s) path <> None ->
                file_at (files s') path <> None).

(** The output entry of a reference, with the file that backs it in the
    files [fs]: the placeholder for a reference that fails; for one that
    succeeds, the URL of a drawn name under which the re-encoded bytes
    are stored. *)
Definition backed_entry (env : Env) (fs : list (string * bytes))
  (url out : string) : Prop :=
  (reference_fails env url /\ out = "") \/
  exists data compressed k,
    http_get env url = Some data /\
    pil_jpeg env data IMAGE_COMPRESSION_QUALITY = Some compressed /\
    out = image_url env (uuid4 env k ++ ".jpg") /\
    file_at fs (stored_path env k) = Some compressed.

(** The output entry is the placeholder or the URL of a drawn name under
    which a file is stored in [fs]. *)
Definition published_entry (env : Env) (fs : list (string * bytes))
  (out : string) : Prop :=
  out = "" \/
  exists k, out = image_url env (uuid4 env k ++ ".jpg") /\
            file_at fs (stored_path env k) <> None.

(** ** Serving a processed image ([app/api/endpoints.py]) *)

(** [ch.lower()] for a code point below 256. *)
Definition lower_char (c : ascii) : ascii :=
  let n := nat_of_ascii c in
  if ((65 <=? n) && (n <=? 90)
      || (192 <=? n) && (n <=? 222) && negb (n =? 215))%nat%bool
  then ascii_of_nat (n + 32)
  else c.

(** [s.lower()] *)
Fixpoint lower (s : string) : string :=
  match s with
  | EmptyString => EmptyString
  | String c rest => String (lower_char c) (lower rest)
  end.

(** The character class [[a-zA-Z0-9_-]]. *)
Definition is_name_char (c : ascii) : bool :=
  let n := nat_of_ascii c in
  ((97 <=? n) && (n <=? 122) || (65 <=? n) && (n <=? 90)
   || (48 <=? n) && (n <=? 57) || (n =? 95) || (n =? 45))%nat%bool.

(** The alternatives of the group [(jpg|jpeg|png|gif|webp)]. *)
Definition image_extensions : list string :=
  ["jpg"; "jpeg"; "png"; "gif"; "webp"].

(** The rest of the pattern after the dot: one of the extensions, then
    [$], which also matches before a final newline. *)
Definition match_extension (rest : string) : bool :=
  existsb (fun ext => (String.eqb rest ext
                       || String.eqb rest (ext ++ String "010" ""))%bool)
          image_extensions.

(** [re.match(r'^[a-zA-Z0-9_-]+\.(jpg|jpeg|png|gif|webp)$', s)]; [seen]
    tells whether a character of the class was read. *)
Fixpoint match_image_name (s : string) (seen : bool) : bool :=
  match s with
  | EmptyString => false
  | String c rest =>
      if is_name_char c then match_image_name rest true
      else if (Ascii.eqb c "."%char && seen)%bool then match_extension rest
           else false
  end.

(** [Path.suffix] of a file name. *)
Definition path_suffix (name : string) : string :=
  match rev (split_on "."%char name) with
  | last_part :: before =>
      match before, last_part with
      | [], _ => EmptyString
      | _, EmptyString => EmptyString
      | [EmptyString], _ => EmptyString
      | _, _ => "." ++ last_part
      end
  | [] => EmptyString
  end.

(** [content_types] of [get_processed_image]. *)
Definition content_types : list (string * string) :=
  [(".jpg", "image/jpeg"); (".jpeg", "image/jpeg"); (".png", "image/png");
   (".gif", "image/gif"); (".webp", "image/webp")].

(** [d.get(key, default)] *)
Definition dict_get (d : list (string * string)) (key default : string)
  : string :=
  match find (fun kv => String.eqb (fst kv) key) d with
  | Some kv => snd kv
  | None => default
  end.

(** What an endpoint answers: an [HTTPException] with its status code and
    detail, or a [FileResponse]. *)
Inductive HttpAnswer : Type :=
| HttpError (status_code : Z) (detail : string)
| FileResponse (path media_type filename : string).

(** [async def get_processed_image(filename)]. The files of the processed
    directory are regular files, so that resolving the path of a file
    name without a separator stays inside the directory. *)
Definition get_processed_image (env : Env) (filename : string) (s : State)
  : HttpAnswer :=
  if negb (match_image_name (lower filename) false)
  then HttpError 400 "Invalid filename format"
  else
    let file_path := path_join (PROCESSED_DIR env) filename in
    if negb (existsb (fun f => String.eqb (fst f) file_path) (files s))
    then HttpError 404 ("Image " ++ filename ++ " not found")
    else
      let content_type :=
        dict_get content_types (lower (path_suffix filename)) "image/jpeg" in
      FileResponse file_path content_type filename.

(** The characters of the text of a uuid: hexadecimal digits and
    hyphens. *)
Definition is_uuid_char (c : ascii) : bool :=
  let n := nat_of_ascii c in
  ((48 <=? n) && (n <=? 57) || (97 <=? n) && (n <=? 102)
   || (n =? 45))%nat%bool.

Fixpoint all_chars (test : ascii -> bool) (s : string) : bool :=
  match s with
  | EmptyString => true
  | String c rest => (test c && all_chars test rest)%bool
  end.

Definition uuid_text (s : string) : bool :=
  (negb (String.eqb s "") && all_chars is_uuid_char s)%bool.

(** The database and the files after one run over [two_item_batch]. *)
Definition demo_processed : State :=
  final (_process_images demo_env "r1" two_item_batch).

(** * Properties *)

(** ** Lists: [find], [filter] and [update_first] *)

Section UpdateFirst.

Variables (A : Type) (test : A -> bool).

Lemma find_update_first (f : A -> A) (l : list A) :
  (forall x, test x = true -> test (f x) = true) ->
  find test (update_first test f l) = option_map f (find test l).
Proof.
  intros Hf. induction l as [|x l IH]; cbn; [reflexivity|].
  destruct (test x) eqn:E; cbn.
  - now rewrite (Hf x E).
  - now rewrite E.
Qed.

Lemma update_first_none (f : A -> A) (l : list A) :
  find test l = None -> update_first test f l = l.
Proof.
  induction l as [|x l IH]; cbn; [reflexivity|].
  destruct (test x); [discriminate|]. intros H. now rewrite IH.
Qed.

Lemma update_first_compose (f g : A -> A) (l : list A) :
  (forall x, test x = true -> test (f x) = true) ->
  update_first test g (update_first test f l)
  = update_first test (fun x => g (f x)) l.
Proof.
  intros Hf. induction l as [|x l IH]; cbn; [reflexivity|].
  destruct (test x) eqn:E; cbn.
  - now rewrite (Hf x E).
  - now rewrite E, IH.
Qed.

Lemma update_first_length (f : A -> A) (l : list A) :
  List.length (update_first test f l) = List.length l.
Proof.
  induction l as [|x l IH]; cbn; [reflexivity|].
  destruct (test x); cbn; congruence.
Qed.

Lemma update_first_ext (f g : A -> A) (l : list A) :
  (forall x, test x = true -> f x = g x) ->
  update_first test f l = update_first test g l.
Proof.
  intros H. induction l as [|x l IH]; cbn; [reflexivity|].
  destruct (test x) eqn:E; [now rewrite H | now rewrite IH].
Qed.

(** A different key is not affected. *)
Lemma find_update_first_other (other : A -> bool) (f : A -> A) (l : list A) :
  (forall x, other (f x) = other x) ->
  (forall x, test x = true -> other x = false) ->
  find other (update_first test f l) = find other l.
Proof.
  intros Hk Hd. induction l as [|x l IH]; cbn; [reflexivity|].
  destruct (test x) eqn:E; cbn.
  - now rewrite Hk, (Hd x E).
  - now rewrite IH.
Qed.

(** Mapping a projection that [f] keeps. *)
Lemma map_update_first (B : Type) (proj : A -> B) (f : A -> A) (l : list A) :
  (forall x, proj (f x) = proj x) ->
  map proj (update_first test f l) = map proj l.
Proof.
  intros H. induction l as [|x l IH]; cbn; [reflexivity|].
  destruct (test x); cbn; now rewrite ?H, ?IH.
Qed.

(** Filtering by a predicate that [f] keeps commutes with the update when
    every element that passes [test] passes the filter. *)
Lemma filter_update_first (keep : A -> bool) (f : A -> A) (l : list A) :
  (forall x, keep (f x) = keep x) ->
  (forall x, test x = true -> keep x = true) ->
  filter keep (update_first test f l) = update_first test f (filter keep l).
Proof.
  intros Hk Ht. induction l as [|x l IH]; cbn; [reflexivity|].
  destruct (test x) eqn:E.
  - cbn. rewrite Hk, (Ht x E). cbn. now rewrite E.
  - cbn. destruct (keep x); cbn; now rewrite ?E, IH.
Qed.

End UpdateFirst.

Lemma find_app (A : Type) (f : A -> bool) (l l' : list A) :
  find f (l ++ l') = match find f l with
                     | Some x => Some x
                     | None => find f l'
                     end.
Proof.
  induction l as [|x l IH]; cbn; [reflexivity|]. now destruct (f x).
Qed.

Lemma filter_none (A : Type) (f : A -> bool) (l : list A) :
  (forall x, In x l -> f x = false) -> filter f l = [].
Proof.
  induction l as [|x l IH]; cbn; intros H; [reflexivity|].
  rewrite (H x (or_introl eq_refl)). apply IH. intros y Hy. apply H.
  now right.
Qed.

Lemma filter_all (A : Type) (f : A -> bool) (l : list A) :
  (forall x, In x l -> f x = true) -> filter f l = l.
Proof.
  induction l as [|x l IH]; cbn; intros H; [reflexivity|].
  rewrite (H x (or_introl eq_refl)). f_equal. apply IH. intros y Hy.
  apply H. now right.
Qed.

(** ** Status facts *)

Lemma status_eqb_eq (a b : ProcessingStatus) :
  status_eqb a b = true <-> a = b.
Proof. destruct a, b; cbn; split; congruence. Qed.

Lemma filter_length_split (A : Type) (p q r : A -> bool) (l : list A) :
  (forall x, r x = (p x || q x)%bool) ->
  (forall x, p x = true -> q x = false) ->
  List.length (filter r l)
  = (List.length (filter p l) + List.length (filter q l))%nat.
Proof.
  intros Hr Hd. induction l as [|x l IH]; cbn; [reflexivity|].
  rewrite Hr. destruct (p x) eqn:Ep; cbn.
  - rewrite (Hd x Ep). cbn. now rewrite IH.
  - destruct (q x); cbn; rewrite IH; lia.
Qed.

Lemma filter_filter (A : Type) (p q : A -> bool) (l : list A) :
  filter q (filter p l) = filter (fun x => (p x && q x)%bool) l.
Proof.
  induction l as [|x l IH]; cbn; [reflexivity|].
  destruct (p x); cbn; [destruct (q x)|]; now rewrite IH.
Qed.

Lemma terminal_count_split (request_id : string) (s : State) :
  terminal_count request_id s
  = (completed_count request_id s + failed_count request_id s)%Z.
Proof.
  unfold terminal_count, completed_count, failed_count, count_items.
  rewrite <- Nat2Z.inj_add. f_equal.
  apply filter_length_split; intros x; unfold product_has_status.
  - now destruct (Product.status x).
  - now destruct (Product.status x).
Qed.

Lemma filter_length_le (A : Type) (p : A -> bool) (l : list A) :
  (List.length (filter p l) <= List.length l)%nat.
Proof.
  induction l as [|x l IH]; cbn; [lia|]. destruct (p x); cbn; lia.
Qed.

Lemma filter_true (A : Type) (l : list A) : filter (fun _ => true) l = l.
Proof. induction l as [|x l IH]; cbn; congruence. Qed.

Lemma terminal_count_le_total (request_id : string) (s : State) :
  (0 <= terminal_count request_id s <= total_count request_id s)%Z.
Proof.
  unfold terminal_count, total_count, count_items. rewrite filter_true.
  split; [lia|]. apply Nat2Z.inj_le, filter_length_le.
Qed.

Lemma completed_count_nonneg (request_id : string) (s : State) :
  (0 <= completed_count request_id s)%Z.
Proof. unfold completed_count, count_items. lia. Qed.

Lemma failed_count_nonneg (request_id : string) (s : State) :
  (0 <= failed_count request_id s)%Z.
Proof. unfold failed_count, count_items. lia. Qed.

(** ** The database primitives when the database is reliable *)

Section Reliable.

Variable env : Env.
Hypothesis Hrel : reliable env.

Lemma db_call_reliable (s : State) : db_call env s = Ret tt (tick s).
Proof. unfold db_call. now rewrite Hrel. Qed.

Lemma query_request_reliable (request_id : string) (s : State) :
  query_request env request_id s
  = Ret (find_request request_id s) (tick s).
Proof. unfold query_request, bind. now rewrite db_call_reliable. Qed.

Lemma query_product_reliable (product_id : Z) (s : State) :
  query_product env product_id s
  = Ret (find_product product_id s) (tick s).
Proof. unfold query_product, bind. now rewrite db_call_reliable. Qed.

Lemma query_products_reliable (request_id : string) (s : State) :
  query_products env request_id s
  = Ret (batch_items request_id s) (tick s).
Proof. unfold query_products, bind. now rewrite db_call_reliable. Qed.

Lemma count_products_reliable (request_id : string)
  (extra : Product.t -> bool) (s : State) :
  count_products env request_id extra s
  = Ret (count_items request_id extra s) (tick s).
Proof.
  unfold count_products, bind. rewrite db_call_reliable. cbn.
  unfold count_items, batch_items. now rewrite filter_filter.
Qed.

Lemma commit_reliable (s : State) :
  commit env s = Ret tt (push_commit (tick s)).
Proof. unfold commit, bind. now rewrite db_call_reliable. Qed.

End Reliable.

(** ** [update_request_status] on a reliable database *)

Lemma aggregated_id (request_id : string) (s : State) (r : Request.t) :
  Request.id (aggregated request_id s r) = Request.id r.
Proof.
  unfold aggregated.
  repeat match goal with |- context [if ?b then _ else _] => destruct b end;
    reflexivity.
Qed.

Lemma aggregated_webhook_triggered (request_id : string) (s : State)
  (r : Request.t) :
  Request.webhook_triggered (aggregated request_id s r)
  = Request.webhook_triggered r.
Proof.
  unfold aggregated.
  repeat match goal with |- context [if ?b then _ else _] => destruct b end;
    reflexivity.
Qed.

Section Aggregation.

Variable env : Env.
Hypothesis Hrel : reliable env.

Lemma update_request_status_reliable (request_id : string) (s : State)
  (r : Request.t) :
  find_request request_id s = Some r ->
  exists s',
    update_request_status env request_id s = Ret tt s' /\
    requests s' = update_first (request_has_id request_id)
                               (aggregated request_id s) (requests s) /\
    products s' = products s /\
    files s' = files s /\ uuid_ctr s' = uuid_ctr s /\
    committed s' = (requests s', products s) :: committed s /\
    posts s' = posts s /\
    calls s' = CallUpdateStatus request_id :: calls s /\
    closed s' = closed s.
Proof.
  intros Hfind.
  unfold update_request_status, bind, log_call, modify.
  rewrite (query_request_reliable Hrel).
  replace (find_request request_id (add_call _ s)) with (Some r)
    by (symmetry; exact Hfind).
  rewrite !(count_products_reliable Hrel).
  cbn [assign_request modify].
  change (count_items request_id (fun _ => true) _)
    with (total_count request_id s).
  change (count_items request_id (product_has_status COMPLETED) _)
    with (completed_count request_id s).
  change (count_items request_id (product_has_status FAILED) _)
    with (failed_count request_id s).
  assert (Hid : forall f : Request.t -> Request.t,
             (forall x, Request.id (f x) = Request.id x) ->
             forall x, request_has_id request_id x = true ->
                       request_has_id request_id (f x) = true).
  { intros f Hf x. unfold request_has_id. now rewrite Hf. }
  unfold aggregated.
  destruct (completed_count request_id s + failed_count request_id s
            =? total_count request_id s)%Z;
    [destruct ((failed_count request_id s >? 0)%Z
               && (completed_count request_id s =? 0)%Z)%bool
    |destruct (completed_count request_id s + failed_count request_id s
               >? 0)%Z];
    unfold assign_request, modify, ret;
    rewrite (commit_reliable Hrel); eexists; (split; [reflexivity|]);
    cbn; rewrite ?update_first_compose by (apply Hid; reflexivity);
    repeat split; reflexivity.
Qed.

Lemma update_request_status_missing (request_id : string) (s : State) :
  find_request request_id s = None ->
  update_request_status env request_id s
  = Ret tt (tick (add_call (CallUpdateStatus request_id) s)).
Proof.
  intros Hfind.
  unfold update_request_status, bind, log_call, modify.
  rewrite (query_request_reliable Hrel).
  replace (find_request request_id (add_call _ s)) with (@None Request.t)
    by (symmetry; exact Hfind).
  reflexivity.
Qed.

Lemma find_request_aggregated (request_id : string) (s : State)
  (rs : list Request.t) :
  find (request_has_id request_id)
       (update_first (request_has_id request_id) (aggregated request_id s) rs)
  = option_map (aggregated request_id s)
               (find (request_has_id request_id) rs).
Proof.
  apply find_update_first. intros x. unfold request_has_id.
  now rewrite aggregated_id.
Qed.

End Aggregation.

Lemma aggregated_processed (request_id : string) (s : State) (r : Request.t) :
  Request.processed_products (aggregated request_id s r)
  = terminal_count request_id s.
Proof.
  rewrite terminal_count_split. unfold aggregated.
  repeat match goal with |- context [if ?b then _ else _] => destruct b end;
    reflexivity.
Qed.

(** The status that the aggregation step leaves, by cases on the counts. *)
Lemma aggregated_status (request_id : string) (s : State) (r : Request.t) :
  let P := terminal_count request_id s in
  let T := total_count request_id s in
  let C := completed_count request_id s in
  let v := Request.status (aggregated request_id s r) in
  (T = 0 -> v = COMPLETED)%Z /\
  (0 < P -> (v = COMPLETED <-> P = T /\ 1 <= C) /\
            (v = FAILED <-> P = T /\ C = 0) /\
            (v = PROCESSING <-> P < T))%Z /\
  (P = 0 -> 0 < T -> v = Request.status r)%Z.
Proof.
  cbn zeta.
  pose proof (terminal_count_le_total request_id s) as Hle.
  pose proof (completed_count_nonneg request_id s) as Hc.
  pose proof (failed_count_nonneg request_id s) as Hf.
  rewrite terminal_count_split in *. unfold aggregated.
  destruct (Z.eqb_spec (completed_count request_id s
                        + failed_count request_id s)
                       (total_count request_id s)) as [Heq|Hne].
  - destruct (Z.gtb_spec (failed_count request_id s) 0) as [Hf1|Hf1];
      destruct (Z.eqb_spec (completed_count request_id s) 0) as [Hc0|Hc0];
      cbn; (repeat split; intros; try congruence; try lia).
    all: try (destruct H0; lia); try (destruct H1; lia).
  - destruct (Z.gtb_spec (completed_count request_id s
                          + failed_count request_id s) 0) as [Hp|Hp];
      cbn; (repeat split; intros; try congruence; try lia).
    all: try (destruct H0; lia); try (destruct H1; lia).
Qed.

Lemma aggregated_same_items (request_id : string) (s1 s2 : State)
  (r : Request.t) :
  products s1 = products s2 ->
  aggregated request_id s1 r = aggregated request_id s2 r.
Proof.
  intros H.
  unfold aggregated, completed_count, failed_count, total_count, count_items,
    batch_items.
  now rewrite H.
Qed.

Lemma aggregated_twice (request_id : string) (s : State) (r : Request.t) :
  aggregated request_id s (aggregated request_id s r)
  = aggregated request_id s r.
Proof.
  unfold aggregated.
  repeat match goal with |- context [if ?b then _ else _] => destruct b end;
    reflexivity.
Qed.

(** ** The aggregation rule *)

(** C2, as the specification states it, fails on a batch without items:
    the step sets the batch to [completed] although no item is completed
    (and does not leave the status unchanged). *)
Lemma update_request_status_empty_batch :
  exists s', update_request_status demo_env "r1" empty_batch = Ret tt s' /\
             ~ aggregation_rule_spec "r1" PROCESSING s'.
Proof.
  eexists. split; [vm_compute; reflexivity|].
  intros (Hcompleted & _). destruct Hcompleted as [Hc _].
  assert (H : request_status "r1"
                (final (update_request_status demo_env "r1" empty_batch))
              = Some COMPLETED) by reflexivity.
  specialize (Hc H). destruct Hc as [_ Hc]. vm_compute in Hc.
  now apply Hc.
Qed.

(** C2, amended: after the aggregation step the processed count is the
    number of terminal items; for a batch with at least one terminal item
    the status is [completed] iff all items are terminal and one is
    completed, [failed] iff all are terminal and none is completed, and
    [processing] iff some item is not terminal; with items but no terminal
    item the status is left as it was; and for a batch without items the
    status is set to [completed]. *)
Theorem update_request_status_rule (env : Env) (request_id : string)
  (s : State) (r : Request.t) :
  reliable env ->
  find_request request_id s = Some r ->
  exists s',
    update_request_status env request_id s = Ret tt s' /\
    products s' = products s /\
    let P := terminal_count request_id s' in
    let T := total_count request_id s' in
    let C := completed_count request_id s' in
    request_processed request_id s' = Some P /\
    (T = 0 -> request_status request_id s' = Some COMPLETED)%Z /\
    (0 < P ->
       (request_status request_id s' = Some COMPLETED <-> P = T /\ 1 <= C) /\
       (request_status request_id s' = Some FAILED <-> P = T /\ C = 0) /\
       (request_status request_id s' = Some PROCESSING <-> P < T))%Z /\
    (P = 0 -> 0 < T ->
       request_status request_id s' = Some (Request.status r))%Z.
Proof.
  intros Hrel Hfind.
  destruct (update_request_status_reliable Hrel request_id s Hfind)
    as (s' & Hrun & Hreqs & Hprods & _).
  exists s'. split; [exact Hrun|]. split; [exact Hprods|].
  assert (Hcount : forall test,
             count_items request_id test s' = count_items request_id test s).
  { intros test. unfold count_items, batch_items. now rewrite Hprods. }
  unfold terminal_count, total_count, completed_count.
  rewrite !Hcount.
  fold (terminal_count request_id s) (total_count request_id s)
       (completed_count request_id s).
  unfold request_processed, request_status, find_request.
  rewrite Hreqs, find_request_aggregated.
  unfold find_request in Hfind. rewrite Hfind. cbn [option_map].
  rewrite aggregated_processed.
  destruct (aggregated_status request_id s r) as (Hzero & Hpos & Hnone).
  cbn zeta. split; [reflexivity|]. split; [|split].
  - intros HT. now rewrite (Hzero HT).
  - intros HP. destruct (Hpos HP) as (H1 & H2 & H3).
    split; [|split]; (split; [intros Hst|intros Hc]).
    + apply H1. congruence.
    + f_equal. now apply H1.
    + apply H2. congruence.
    + f_equal. now apply H2.
    + apply H3. congruence.
    + f_equal. now apply H3.
  - intros HP HT. now rewrite (Hnone HP HT).
Qed.

Lemma update_request_status_rule_witness :
  exists s',
    update_request_status demo_env "r1" mixed_batch = Ret tt s' /\
    request_processed "r1" s' = Some 2%Z /\
    request_status "r1" s' = Some PROCESSING.
Proof.
  destruct (@update_request_status_rule demo_env "r1" mixed_batch
              (demo_request PROCESSING 3 0 0)
              (fun _ => eq_refl) eq_refl)
    as (s' & Hrun & Hprods & Hproc & _ & Hpos & _).
  exists s'. split; [exact Hrun|].
  assert (HP : terminal_count "r1" s' = 2%Z).
  { unfold terminal_count, count_items, batch_items. rewrite Hprods.
    reflexivity. }
  assert (HT : total_count "r1" s' = 3%Z).
  { unfold total_count, count_items, batch_items. rewrite Hprods.
    reflexivity. }
  split.
  - rewrite Hproc, HP. reflexivity.
  - apply Hpos; rewrite HP, ?HT; reflexivity.
Defined.

(** C8: the aggregation step is idempotent. Run twice in a row, the second
    run leaves the request table, hence the processed count and the status
    of the batch, as the first run left it. *)
Theorem update_request_status_idempotent (env : Env) (request_id : string)
  (s : State) :
  reliable env ->
  exists s1 s2,
    update_request_status env request_id s = Ret tt s1 /\
    update_request_status env request_id s1 = Ret tt s2 /\
    products s1 = products s /\ products s2 = products s /\
    requests s2 = requests s1 /\
    request_processed request_id s2 = request_processed request_id s1 /\
    request_status request_id s2 = request_status request_id s1.
Proof.
  intros Hrel.
  destruct (find_request request_id s) as [r|] eqn:Hfind.
  - destruct (update_request_status_reliable Hrel request_id s Hfind)
      as (s1 & Hrun1 & Hreqs1 & Hprods1 & _).
    assert (Hfind1 : find_request request_id s1
                     = Some (aggregated request_id s r)).
    { unfold find_request in *.
      now rewrite Hreqs1, find_request_aggregated, Hfind. }
    destruct (update_request_status_reliable Hrel request_id s1 Hfind1)
      as (s2 & Hrun2 & Hreqs2 & Hprods2 & _).
    assert (Heq : requests s2 = requests s1).
    { rewrite Hreqs2, Hreqs1.
      rewrite update_first_compose
        by (intros x; unfold request_has_id; now rewrite aggregated_id).
      apply update_first_ext. intros x _.
      rewrite (aggregated_same_items request_id s1 s _ Hprods1).
      apply aggregated_twice. }
    exists s1, s2. unfold request_processed, request_status, find_request.
    rewrite Heq. repeat split; congruence.
  - rewrite (update_request_status_missing Hrel request_id s Hfind).
    eexists. eexists. split; [reflexivity|].
    rewrite (update_request_status_missing Hrel); [|exact Hfind].
    repeat split; reflexivity.
Qed.

Lemma update_request_status_idempotent_witness :
  exists s1 s2,
    update_request_status demo_env "r1" mixed_batch = Ret tt s1 /\
    update_request_status demo_env "r1" s1 = Ret tt s2 /\
    request_processed "r1" s2 = request_processed "r1" s1 /\
    request_status "r1" s2 = request_status "r1" s1.
Proof.
  destruct (@update_request_status_idempotent demo_env "r1" mixed_batch
              (fun _ => eq_refl))
    as (s1 & s2 & H1 & H2 & _ & _ & _ & H3 & H4).
  exists s1, s2. repeat split; assumption.
Defined.

(** ** One image reference: [process_image] *)

Lemma same_database_refl (s : State) : same_database s s.
Proof. unfold same_database. repeat split; auto. Qed.

Lemma same_database_trans (s1 s2 s3 : State) :
  same_database s1 s2 -> same_database s2 s3 -> same_database s1 s3.
Proof.
  unfold same_database. intros (?&?&?&?&?&?&?&?) (?&?&?&?&?&?&?&?).
  repeat split; try congruence; lia.
Qed.

Lemma truthy_str_app (a b : string) :
  truthy_str b = true -> truthy_str (a ++ b) = true.
Proof. destruct a; cbn; auto. Qed.

Lemma output_entry_image_url (env : Env) (filename : string) :
  output_entry (Some (image_url env filename)) = image_url env filename.
Proof.
  unfold output_entry, image_url.
  now rewrite truthy_str_app by reflexivity.
Qed.

Section ProcessImage.

Variable env : Env.

(** The three ways [process_image] ends. *)
Lemma process_image_cases (url : string) (s : State) :
  (reference_fails env url /\ process_image env url s = Ret None s) \/
  (reference_succeeds env url /\
   exists compressed,
     let filename := uuid4 env (uuid_ctr s) ++ ".jpg" in
     let path := path_join (PROCESSED_DIR env) filename in
     (fs_write env path compressed = true /\
      process_image env url s
      = Ret (Some (image_url env filename))
            (add_file path compressed (next_uuid s))) \/
     (fs_write env path compressed = false /\
      process_image env url s
      = Exn ("OSError: " ++ path) (next_uuid s))).
Proof.
  unfold process_image, download_image, compress_image, bind, ret.
  destruct (http_get env url) as [data|] eqn:Hget.
  - destruct (pil_jpeg env data IMAGE_COMPRESSION_QUALITY)
      as [compressed|] eqn:Hjpeg.
    + right. split; [now exists data, compressed|].
      exists compressed. cbn zeta. unfold draw_uuid4, write_file.
      destruct (fs_write env _ compressed) eqn:Hw; [left|right];
        (split; [reflexivity|]); reflexivity.
    + left. split; [right; now exists data|reflexivity].
  - left. split; [now left|reflexivity].
Qed.

Lemma entry_for_widen (lo hi lo' hi' : nat) (url out : string) :
  (lo' <= lo)%nat -> (hi <= hi')%nat ->
  entry_for env lo hi url out -> entry_for env lo' hi' url out.
Proof.
  intros Hlo Hhi [H|(H & k & Hk & Hout)]; [now left|].
  right. split; [exact H|]. exists k. split; [lia|exact Hout].
Qed.

(** The loop over the references: either it returns the accumulator
    extended with one entry per reference, in order, or a write to the
    processed-files directory raised. *)
Lemma process_urls_cases (urls : list string) :
  forall (acc : list string) (s : State),
    match process_urls env urls acc s with
    | Ret outs s' =>
        same_database s s' /\
        exists new, outs = (acc ++ new)%list /\
                    Forall2 (entry_for env (uuid_ctr s) (uuid_ctr s'))
                            urls new
    | Exn e s' =>
        same_database s s' /\
        exists path data, fs_write env path data = false
    end.
Proof.
  induction urls as [|url rest IH]; intros acc s.
  - cbn. split; [apply same_database_refl|].
    exists []. split; [now rewrite app_nil_r|constructor].
  - cbn [process_urls]. unfold bind.
    destruct (process_image_cases url s)
      as [(Hfail & Hrun)|(Hok & compressed & [(Hw & Hrun)|(Hw & Hrun)])];
      rewrite Hrun.
    + specialize (IH (acc ++ [output_entry None])%list s).
      destruct (process_urls env rest _ s) as [outs s'|e s'].
      * destruct IH as (Hdb & new & Hout & Hall). split; [exact Hdb|].
        exists ("" :: new). split.
        { rewrite Hout, <- app_assoc. reflexivity. }
        constructor; [now left|exact Hall].
      * exact IH.
    + set (filename := uuid4 env (uuid_ctr s) ++ ".jpg") in *.
      set (s1 := add_file _ compressed (next_uuid s)).
      specialize (IH (acc ++ [output_entry (Some (image_url env filename))])%list
                     s1).
      assert (Hstep : same_database s s1).
      { unfold same_database, s1. cbn. repeat split; auto. }
      destruct (process_urls env rest _ s1) as [outs s'|e s'].
      * destruct IH as (Hdb & new & Hout & Hall).
        split; [eapply same_database_trans; eassumption|].
        exists (image_url env filename :: new). split.
        { rewrite Hout, <- app_assoc, output_entry_image_url. reflexivity. }
        assert (Hctr : (S (uuid_ctr s) <= uuid_ctr s')%nat).
        { destruct Hdb as (_&_&_&_&_&_&_&Hle). exact Hle. }
        constructor.
        { right. split; [exact Hok|]. exists (uuid_ctr s).
          split; [lia|reflexivity]. }
        eapply Forall2_impl; [|exact Hall]. intros u o.
        apply entry_for_widen; cbn; lia.
      * destruct IH as (Hdb & Hex).
        split; [eapply same_database_trans; eassumption|exact Hex].
    + split.
      * unfold same_database. cbn. repeat split; auto.
      * eauto.
Qed.

(** When no write raises, the loop returns. *)
Lemma process_urls_returns (urls : list string) (acc : list string)
  (s : State) :
  (forall path data, fs_write env path data = true) ->
  exists outs s', process_urls env urls acc s = Ret outs s'.
Proof.
  intros Hfs. pose proof (process_urls_cases urls acc s) as H.
  destruct (process_urls env urls acc s) as [outs s'|e s'].
  - now exists outs, s'.
  - destruct H as (_ & path & data & Hw). rewrite Hfs in Hw. discriminate.
Qed.

End ProcessImage.

(** ** One item: [process_product_images] on a reliable database *)

Lemma product_has_id_keeps (product_id : Z) (f : Product.t -> Product.t) :
  (forall x, Product.id (f x) = Product.id x) ->
  forall x, product_has_id product_id x = true ->
            product_has_id product_id (f x) = true.
Proof. intros Hf x. unfold product_has_id. now rewrite Hf. Qed.

Section ProcessProduct.

Variable env : Env.
Hypothesis Hrel : reliable env.

Lemma process_product_images_missing (product_id : Z) (s : State) :
  find_product product_id s = None ->
  process_product_images env product_id s
  = Ret false (tick (add_call (CallProcessProduct product_id) s)).
Proof.
  intros Hfind. unfold process_product_images, bind, log_call, modify.
  rewrite (query_product_reliable Hrel).
  replace (find_product product_id (add_call _ s)) with (@None Product.t)
    by (symmetry; exact Hfind).
  reflexivity.
Qed.

Lemma process_product_images_reliable (product_id : Z) (s : State)
  (p : Product.t) :
  find_product product_id s = Some p ->
  exists b s',
    process_product_images env product_id s = Ret b s' /\
    requests s' = requests s /\ posts s' = posts s /\
    closed s' = closed s /\
    calls s' = CallProcessProduct product_id :: calls s /\
    (uuid_ctr s <= uuid_ctr s')%nat /\
    committed s'
    = (requests s, products s')
      :: (requests s,
          update_first (product_has_id product_id)
                       (Product.with_status PROCESSING) (products s))
      :: committed s /\
    ((b = true /\
      exists outs,
        Forall2 (entry_for env (uuid_ctr s) (uuid_ctr s'))
                (Product.get_input_urls p) outs /\
        products s'
        = update_first (product_has_id product_id)
            (fun x => Product.with_status COMPLETED
                        (Product.set_output_urls outs x))
            (products s)) \/
     (b = false /\
      (exists path data, fs_write env path data = false) /\
      products s'
      = update_first (product_has_id product_id)
                     (Product.with_status FAILED) (products s))).
Proof.
  intros Hfind. unfold process_product_images, bind, log_call, modify.
  rewrite (query_product_reliable Hrel).
  replace (find_product product_id (add_call _ s)) with (Some p)
    by (symmetry; exact Hfind).
  unfold assign_product at 1. unfold modify.
  rewrite (commit_reliable Hrel). unfold try_except, bind.
  match goal with |- context [process_urls env ?u ?a ?s1] =>
    pose proof (process_urls_cases env u a s1) as Hloop;
    destruct (process_urls env u a s1) as [outs s2|e s2]
  end.
  - destruct Hloop as ((Hr & Hp & Ho & Hc & Hpo & Hca & Hcl & Hu)
                       & new & Hout & Hall).
    cbn [app] in Hout. subst outs.
    unfold assign_product, modify. rewrite (commit_reliable Hrel).
    eexists. eexists. split; [reflexivity|].
    cbn in Hr, Hp, Hc, Hpo, Hca, Hcl, Hu |- *. unfold snap. cbn.
    rewrite ?Hr, ?Hp, ?Hc, ?Hpo, ?Hca, ?Hcl.
    rewrite !update_first_compose
      by (apply product_has_id_keeps; reflexivity).
    repeat (split; [first [reflexivity | exact Hu]|]).
    left. split; [reflexivity|]. exists new. split; [exact Hall|].
    apply update_first_ext. reflexivity.
  - destruct Hloop as ((Hr & Hp & Ho & Hc & Hpo & Hca & Hcl & Hu) & Hex).
    unfold assign_product, modify. rewrite (commit_reliable Hrel).
    eexists. eexists. split; [reflexivity|].
    cbn in Hr, Hp, Hc, Hpo, Hca, Hcl, Hu |- *. unfold snap. cbn.
    rewrite ?Hr, ?Hp, ?Hc, ?Hpo, ?Hca, ?Hcl.
    rewrite !update_first_compose
      by (apply product_has_id_keeps; reflexivity).
    repeat (split; [first [reflexivity | exact Hu]|]).
    right. split; [reflexivity|]. split; [exact Hex|].
    apply update_first_ext. reflexivity.
Qed.

End ProcessProduct.

(** ** Strings and positions *)

Lemma string_app_assoc (a b c : string) : (a ++ b) ++ c = a ++ (b ++ c).
Proof. induction a as [|x a IH]; cbn; [reflexivity|now rewrite IH]. Qed.

Lemma string_app_nil_r (a : string) : a ++ "" = a.
Proof. induction a as [|x a IH]; cbn; [reflexivity|now rewrite IH]. Qed.

Lemma occurs_in_refl (x : string) : occurs_in x x.
Proof. exists "", "". cbn. now rewrite string_app_nil_r. Qed.

Lemma occurs_in_app_l (x a b : string) : occurs_in x a -> occurs_in x (a ++ b).
Proof.
  intros (pre & post & ->). exists pre, (post ++ b).
  now rewrite !string_app_assoc.
Qed.

Lemma occurs_in_app_r (x a b : string) : occurs_in x b -> occurs_in x (a ++ b).
Proof.
  intros (pre & post & ->). exists (a ++ pre), post.
  now rewrite !string_app_assoc.
Qed.

Lemma occurs_in_join (sep x : string) (xs : list string) :
  In x xs -> occurs_in x (join sep xs).
Proof.
  induction xs as [|y ys IH]; [contradiction|].
  intros [->|Hin].
  - destruct ys; cbn; [apply occurs_in_refl|].
    apply occurs_in_app_l, occurs_in_refl.
  - destruct ys as [|z zs]; [contradiction|].
    change (join sep (y :: z :: zs)) with (y ++ sep ++ join sep (z :: zs)).
    now apply occurs_in_app_r, occurs_in_app_r, IH.
Qed.

Lemma occurs_in_concat (x : string) (rows : list string) (row : string) :
  In row rows -> occurs_in x row -> occurs_in x (String.concat "" rows).
Proof.
  induction rows as [|y ys IH]; [contradiction|].
  intros [->|Hin] Hx.
  - destruct ys; cbn; [exact Hx|now apply occurs_in_app_l].
  - destruct ys as [|z zs]; [contradiction|].
    change (String.concat "" (y :: z :: zs))
      with (y ++ "" ++ String.concat "" (z :: zs)).
    apply occurs_in_app_r, occurs_in_app_r. now apply IH.
Qed.

Lemma Forall2_nth_error_l (A B : Type) (R : A -> B -> Prop)
  (l : list A) (l' : list B) :
  Forall2 R l l' ->
  forall i x, nth_error l i = Some x ->
              exists y, nth_error l' i = Some y /\ R x y.
Proof.
  induction 1 as [|a b l l' Hab Hall IH]; intros i x Hi.
  - destruct i; discriminate.
  - destruct i as [|i]; cbn in *.
    + injection Hi as <-. now exists b.
    + now apply IH.
Qed.

Lemma Forall2_in_r (A B : Type) (R : A -> B -> Prop)
  (l : list A) (l' : list B) :
  Forall2 R l l' -> forall y, In y l' -> exists x, In x l /\ R x y.
Proof.
  induction 1 as [|a b l l' Hab Hall IH]; intros y Hy; [contradiction|].
  destruct Hy as [<-|Hy].
  - exists a. split; [now left|exact Hab].
  - destruct (IH y Hy) as (x & Hx & Hr). exists x. split; [now right|exact Hr].
Qed.

Lemma reference_fails_not_succeeds (env : Env) (url : string) :
  reference_fails env url -> reference_succeeds env url -> False.
Proof.
  intros [Hnone|(d & Hget & Hjpeg)] (d' & c & Hget' & Hjpeg').
  - congruence.
  - rewrite Hget in Hget'. injection Hget' as <-. congruence.
Qed.

Lemma image_url_nonempty (env : Env) (filename : string) :
  image_url env filename <> "".
Proof.
  unfold image_url. intros H.
  assert (Ht : truthy_str (API_BASE_URL env ++ "/api/image/" ++ filename)
               = true) by (apply truthy_str_app; reflexivity).
  rewrite H in Ht. discriminate.
Qed.

Lemma entry_for_placeholder (env : Env) (lo hi : nat) (url out : string) :
  entry_for env lo hi url out ->
  (reference_fails env url -> out = "") /\
  (out <> "" -> generated_url env lo hi out) /\
  ((reference_fails env url /\ out = "") \/
   (reference_succeeds env url /\ out <> "")).
Proof.
  intros [(Hf & ->)|(Hs & k & Hk & ->)].
  - split; [reflexivity|]. split; [congruence|]. now left.
  - split; [intros Hf; destruct (reference_fails_not_succeeds Hf Hs)|].
    split; [intros _; now exists k|].
    right. split; [exact Hs|apply image_url_nonempty].
Qed.

(** ** The item processor *)

(** The item after [process_product_images], on a reliable database. *)
Lemma process_product_images_item (env : Env) (product_id : Z) (s : State)
  (p : Product.t) :
  reliable env ->
  find_product product_id s = Some p ->
  exists b s',
    process_product_images env product_id s = Ret b s' /\
    hd_error (committed s') = Some (snap s') /\
    ((b = true /\
      exists outs,
        Forall2 (entry_for env (uuid_ctr s) (uuid_ctr s'))
                (Product.get_input_urls p) outs /\
        find_product product_id s'
        = Some (Product.with_status COMPLETED
                  (Product.set_output_urls outs p))) \/
     (b = false /\
      (exists path data, fs_write env path data = false) /\
      find_product product_id s' = Some (Product.with_status FAILED p))).
Proof.
  intros Hrel Hfind.
  destruct (process_product_images_reliable Hrel product_id s Hfind)
    as (b & s' & Hrun & Hreqs & _ & _ & _ & _ & Hcommitted & Hcases).
  exists b, s'. split; [exact Hrun|]. split.
  { rewrite Hcommitted. unfold snap. now rewrite Hreqs. }
  unfold find_product in *.
  destruct Hcases as [(-> & outs & Hall & Hprods)|(-> & Hex & Hprods)];
    [left|right]; (split; [reflexivity|]).
  - exists outs. split; [exact Hall|].
    rewrite Hprods, find_update_first, Hfind
      by (apply product_has_id_keeps; reflexivity).
    reflexivity.
  - split; [exact Hex|].
    rewrite Hprods, find_update_first, Hfind
      by (apply product_has_id_keeps; reflexivity).
    reflexivity.
Qed.

(** The loop over the references raises exactly when the file system
    refuses one of the writes it asks for. *)
Lemma process_urls_writes (env : Env) (urls : list string) :
  forall (acc : list string) (s : State),
    match process_urls env urls acc s with
    | Ret _ _ =>
        forall w, In w (writes_of env (uuid_ctr s) urls) ->
                  fs_write env (fst w) (snd w) = true
    | Exn _ _ =>
        exists w, In w (writes_of env (uuid_ctr s) urls) /\
                  fs_write env (fst w) (snd w) = false
    end.
Proof.
  induction urls as [|url rest IH]; intros acc s.
  - cbn. intros w [].
  - cbn [process_urls writes_of]. unfold bind at 1.
    unfold process_image, download_image, compress_image.
    unfold bind at 1. unfold ret at 1.
    destruct (http_get env url) as [data|]; [|apply IH].
    unfold bind at 1. unfold ret at 1.
    destruct (pil_jpeg env data IMAGE_COMPRESSION_QUALITY) as [c|];
      [|apply IH].
    unfold bind at 1. unfold draw_uuid4 at 1. unfold bind at 1.
    unfold write_file.
    destruct (fs_write env
                (path_join (PROCESSED_DIR env)
                           (uuid4 env (uuid_ctr s) ++ ".jpg")) c) eqn:Hw.
    + unfold modify at 1. unfold ret at 1.
      match goal with |- context [process_urls env rest ?a ?t] =>
        specialize (IH a t); destruct (process_urls env rest a t)
      end.
      * intros w [<-|Hin]; [exact Hw|now apply IH].
      * destruct IH as (w & Hin & Hrefused). exists w. split; [now right|].
        exact Hrefused.
    + unfold raise. eexists. split; [left; reflexivity|exact Hw].
Qed.

Lemma process_product_images_writes (env : Env) (product_id : Z)
  (s s' : State) (p : Product.t) (b : bool) :
  reliable env ->
  find_product product_id s = Some p ->
  process_product_images env product_id s = Ret b s' ->
  if b
  then forall w,
         In w (writes_of env (uuid_ctr s) (Product.get_input_urls p)) ->
         fs_write env (fst w) (snd w) = true
  else exists w,
         In w (writes_of env (uuid_ctr s) (Product.get_input_urls p)) /\
         fs_write env (fst w) (snd w) = false.
Proof.
  intros Hrel Hfind. unfold process_product_images, bind, log_call, modify.
  rewrite (query_product_reliable Hrel).
  replace (find_product product_id (add_call _ s)) with (Some p)
    by (symmetry; exact Hfind).
  unfold assign_product at 1. unfold modify.
  rewrite (commit_reliable Hrel). unfold try_except, bind.
  match goal with |- context [process_urls env ?u ?a ?s1] =>
    pose proof (process_urls_writes env u a s1) as Hw;
    destruct (process_urls env u a s1) as [outs s2|e s2]
  end; unfold assign_product, modify; rewrite (commit_reliable Hrel);
    unfold ret; intros H; injection H as <- _; exact Hw.
Qed.

Lemma writes_of_all_fail (env : Env) (lo : nat) (urls : list string) :
  (forall url, In url urls -> reference_fails env url) ->
  writes_of env lo urls = [].
Proof.
  induction urls as [|url rest IH]; intros Hall; [reflexivity|].
  cbn [writes_of].
  destruct (Hall url (or_introl eq_refl)) as [->|(d & -> & ->)];
    apply IH; intros u Hu; apply Hall; now right.
Qed.

Lemma entries_all_fail (env : Env) (lo hi : nat) (urls outs : list string) :
  Forall2 (entry_for env lo hi) urls outs ->
  (forall url, In url urls -> reference_fails env url) ->
  outs = map (fun _ => "") urls.
Proof.
  induction 1 as [|url out urls outs Hentry Hall IH]; intros Hfail;
    [reflexivity|].
  cbn [map]. f_equal.
  - apply (entry_for_placeholder Hentry). apply Hfail. now left.
  - apply IH. intros u Hu. apply Hfail. now right.
Qed.

(** C4: a reference that fails at the fetch or the transform stage adds the
    empty placeholder and the loop goes on with the next reference; the
    item still ends [completed], with one entry per reference and the
    placeholder at the index of each failed reference. On a reliable
    database the item ends [failed] exactly when the orchestration itself
    raised: when the file system refused a write that this run asked for,
    of the re-encoded bytes of one of the item's references under the name
    drawn for it. Failed references never make the item [failed]: an
    item all of whose references fail ends [completed] with placeholders
    only, whatever the file system would do. *)
Theorem process_product_images_isolates_references (env : Env)
  (product_id : Z) (s : State) (p : Product.t) :
  reliable env ->
  find_product product_id s = Some p ->
  (forall url rest acc st,
      reference_fails env url ->
      process_urls env (url :: rest) acc st
      = process_urls env rest (acc ++ [""])%list st) /\
  exists b s' p',
    process_product_images env product_id s = Ret b s' /\
    find_product product_id s' = Some p' /\
    let writes := writes_of env (uuid_ctr s) (Product.get_input_urls p) in
    ((b = true /\ Product.status p' = COMPLETED /\
      (forall w, In w writes -> fs_write env (fst w) (snd w) = true) /\
      List.length (Product.get_output_urls p')
      = List.length (Product.get_input_urls p) /\
      forall i url,
        nth_error (Product.get_input_urls p) i = Some url ->
        reference_fails env url ->
        nth_error (Product.get_output_urls p') i = Some "") \/
     (b = false /\ Product.status p' = FAILED /\
      exists w, In w writes /\ fs_write env (fst w) (snd w) = false)) /\
    ((forall url, In url (Product.get_input_urls p) ->
                  reference_fails env url) ->
     Product.status p' = COMPLETED /\
     Product.get_output_urls p'
     = map (fun _ => "") (Product.get_input_urls p)).
Proof.
  intros Hrel Hfind. split.
  { intros url rest acc st Hfail. cbn [process_urls]. unfold bind.
    destruct (process_image_cases env url st)
      as [(_ & Hrun)|(Hok & _)].
    - now rewrite Hrun.
    - destruct (reference_fails_not_succeeds Hfail Hok). }
  destruct (process_product_images_item product_id s Hrel Hfind)
    as (b & s' & Hrun & _ & [(-> & outs & Hall & Hp')|(-> & _ & Hp')]);
    pose proof (@process_product_images_writes env product_id s s' p _ Hrel
                  Hfind Hrun) as Hw; cbn beta iota in Hw.
  - eexists. exists s'. eexists. split; [exact Hrun|].
    split; [exact Hp'|]. cbn zeta. split.
    + left. split; [reflexivity|]. split; [reflexivity|].
      split; [exact Hw|]. cbn. split.
      * symmetry. exact (Forall2_length Hall).
      * intros i url Hi Hfail.
        destruct (Forall2_nth_error_l Hall i Hi) as (out & Hout & Hentry).
        rewrite Hout. f_equal.
        now apply (entry_for_placeholder Hentry).
    + intros Hfail. split; [reflexivity|]. cbn.
      exact (entries_all_fail Hall Hfail).
  - eexists. exists s'. eexists. split; [exact Hrun|].
    split; [exact Hp'|]. cbn zeta. split.
    + right. split; [reflexivity|]. split; [reflexivity|exact Hw].
    + intros Hfail. exfalso. destruct Hw as (w & Hin & _).
      now rewrite (@writes_of_all_fail env _ _ Hfail) in Hin.
Qed.

Lemma process_product_images_isolates_references_witness :
  exists b s' p',
    process_product_images full_disk_env 1
      (single_item_batch "http://broken.example/x.png") = Ret b s' /\
    find_product 1 s' = Some p' /\
    Product.status p' = COMPLETED /\
    Product.get_output_urls p' = [""].
Proof.
  destruct (@process_product_images_isolates_references full_disk_env 1
              (single_item_batch "http://broken.example/x.png")
              (demo_product 1 ["http://broken.example/x.png"] None PENDING)
              (fun _ => eq_refl) eq_refl)
    as (_ & b & s' & p' & Hrun & Hfind & _ & Hall).
  exists b, s', p'. split; [exact Hrun|]. split; [exact Hfind|].
  apply Hall. intros url [<-|[]]. left. reflexivity.
Defined.

(** C3, as the specification states it, fails for an item that ends
    [failed]: when the write of the stored image raises, the item is set to
    [failed] and its output list is not written, so it stays empty although
    the item has one input reference. *)
Lemma process_product_images_failed_outputs :
  exists b s' p',
    process_product_images full_disk_env 1
      (single_item_batch "http://img.example/a.png") = Ret b s' /\
    find_product 1 s' = Some p' /\
    ~ outputs_match_inputs_spec full_disk_env p'.
Proof.
  eexists. eexists. eexists.
  split; [vm_compute; reflexivity|]. split; [reflexivity|].
  intros H. destruct (H eq_refl) as [Hlen _]. discriminate Hlen.
Qed.

(** C3, amended: when [process_product_images] sets an item to
    [completed], the persisted output list has the length of the input list
    and entry i belongs to input reference i (the placeholder when the
    reference failed, a generated URL when it succeeded); when it sets the
    item to [failed], the output list is left as it was before the run. *)
Theorem process_product_images_outputs (env : Env) (product_id : Z)
  (s : State) (p : Product.t) :
  reliable env ->
  find_product product_id s = Some p ->
  exists b s' p',
    process_product_images env product_id s = Ret b s' /\
    hd_error (committed s') = Some (snap s') /\
    find_product product_id s' = Some p' /\
    Product.get_input_urls p' = Product.get_input_urls p /\
    ((Product.status p' = COMPLETED /\
      List.length (Product.get_output_urls p')
      = List.length (Product.get_input_urls p') /\
      forall i url,
        nth_error (Product.get_input_urls p') i = Some url ->
        exists out,
          nth_error (Product.get_output_urls p') i = Some out /\
          ((reference_fails env url /\ out = "") \/
           (reference_succeeds env url /\
            generated_url env (uuid_ctr s) (uuid_ctr s') out))) \/
     (Product.status p' = FAILED /\
      Product.output_image_urls p' = Product.output_image_urls p)).
Proof.
  intros Hrel Hfind.
  destruct (process_product_images_item product_id s Hrel Hfind)
    as (b & s' & Hrun & Hhd & [(-> & outs & Hall & Hp')|(-> & Hex & Hp')]).
  - eexists. exists s'. eexists. split; [exact Hrun|].
    split; [exact Hhd|]. split; [exact Hp'|]. split; [reflexivity|].
    left. split; [reflexivity|]. cbn. split.
    + symmetry. exact (Forall2_length Hall).
    + intros i url Hi.
      destruct (Forall2_nth_error_l Hall i Hi) as (out & Hout & Hentry).
      exists out. split; [exact Hout|exact Hentry].
  - eexists. exists s'. eexists. split; [exact Hrun|].
    split; [exact Hhd|]. split; [exact Hp'|]. split; [reflexivity|].
    right. split; reflexivity.
Qed.

Lemma process_product_images_outputs_witness :
  exists b s' p',
    process_product_images demo_env 1 two_item_batch = Ret b s' /\
    find_product 1 s' = Some p' /\
    List.length (Product.get_output_urls p') = 2%nat.
Proof.
  destruct (@process_product_images_outputs demo_env 1 two_item_batch
              (demo_product 1 ["http://broken.example/x.png";
                               "http://img.example/a.png"] None PENDING)
              (fun _ => eq_refl) eq_refl)
    as (b & s' & p' & Hrun & _ & Hfind & Hin & Hcases).
  exists b, s', p'. split; [exact Hrun|]. split; [exact Hfind|].
  destruct Hcases as [(_ & Hlen & _)|(Hfailed & _)].
  - rewrite Hlen, Hin. reflexivity.
  - exfalso.
    assert (Hrun' : process_product_images demo_env 1 two_item_batch
                    = Ret b s') by exact Hrun.
    vm_compute in Hrun'. injection Hrun' as _ <-.
    vm_compute in Hfind. injection Hfind as <-. discriminate Hfailed.
Defined.

(** ** Generated URLs and the result manifest *)

(** What [generate_output_csv] writes, whenever it writes. *)
Lemma generate_output_csv_text (env : Env) (request_id : string)
  (t t' : State) (path text : string) :
  generate_output_csv env request_id t = Ret (Some (path, text)) t' ->
  text = csv_header
         ++ String.concat "" (map csv_row (batch_items request_id t)).
Proof.
  unfold generate_output_csv, query_request, query_products, bind, gets,
    db_call, ret.
  destruct (db_fault env (db_ops t)); [discriminate|].
  destruct (find (request_has_id request_id) (requests (tick t))) as [r|];
    [|discriminate].
  destruct (negb (status_eqb (Request.status r) COMPLETED));
    [discriminate|].
  destruct (db_fault env (db_ops (tick t))); [discriminate|].
  intros H. injection H as _ <- _. reflexivity.
Qed.

Lemma occurs_in_csv_row (p : Product.t) (out : string) :
  In out (Product.get_output_urls p) -> occurs_in out (csv_row p).
Proof.
  intros Hin. unfold csv_row.
  do 6 apply occurs_in_app_r. apply occurs_in_app_l.
  now apply occurs_in_join.
Qed.

(** C9, as the specification states it, fails: the URL that the item
    processor writes has the path [/api/image/{name}.jpg], not
    [/image/{name}.jpg]. *)
Lemma process_product_images_url_path :
  exists b s' p' out,
    process_product_images demo_env 1
      (single_item_batch "http://img.example/a.png") = Ret b s' /\
    find_product 1 s' = Some p' /\
    In out (Product.get_output_urls p') /\ out <> "" /\
    ~ image_url_spec demo_env out.
Proof.
  eexists. eexists. eexists. eexists.
  split; [vm_compute; reflexivity|]. split; [reflexivity|].
  split; [left; reflexivity|]. split; [discriminate|].
  intros (name & H). cbn in H. discriminate H.
Qed.

(** C9, amended: every non-placeholder entry that the item processor
    writes to an output list is the configured base URL followed by
    [/api/image/{generated-name}.jpg], where generated-name is a uuid drawn
    during that run of the processor; the entry occurs verbatim in the
    item's row of the result manifest, and every entry of an output list
    occurs verbatim in the text that [generate_output_csv] writes. *)
Theorem process_product_images_generated_urls (env : Env) (product_id : Z)
  (s : State) (p : Product.t) :
  reliable env ->
  find_product product_id s = Some p ->
  (exists b s' p',
     process_product_images env product_id s = Ret b s' /\
     find_product product_id s' = Some p' /\
     ((b = false /\
       Product.output_image_urls p' = Product.output_image_urls p) \/
      (b = true /\
       forall out,
         In out (Product.get_output_urls p') -> out <> "" ->
         (exists k, (uuid_ctr s <= k < uuid_ctr s')%nat /\
                    out = API_BASE_URL env ++ "/api/image/"
                          ++ uuid4 env k ++ ".jpg") /\
         occurs_in out (csv_row p')))) /\
  (forall request_id t t' path text item out,
      generate_output_csv env request_id t = Ret (Some (path, text)) t' ->
      In item (batch_items request_id t) ->
      In out (Product.get_output_urls item) ->
      occurs_in out text).
Proof.
  intros Hrel Hfind. split.
  - destruct (process_product_images_item product_id s Hrel Hfind)
      as (b & s' & Hrun & _ & [(-> & outs & Hall & Hp')|(-> & Hex & Hp')]).
    + eexists. exists s'. eexists. split; [exact Hrun|].
      split; [exact Hp'|]. right. split; [reflexivity|].
      intros out Hin Hne. split.
      * cbn in Hin. destruct (Forall2_in_r Hall out Hin) as (url & _ & He).
        destruct (entry_for_placeholder He) as (_ & Hgen & _).
        exact (Hgen Hne).
      * now apply occurs_in_csv_row.
    + eexists. exists s'. eexists. split; [exact Hrun|].
      split; [exact Hp'|]. left. split; reflexivity.
  - intros request_id t t' path text item out Hgen Hitem Hout.
    rewrite (generate_output_csv_text _ _ _ Hgen).
    apply occurs_in_app_r.
    apply occurs_in_concat with (row := csv_row item).
    + now apply in_map.
    + now apply occurs_in_csv_row.
Qed.

Lemma process_product_images_generated_urls_witness :
  exists b s' p',
    process_product_images demo_env 1 two_item_batch = Ret b s' /\
    find_product 1 s' = Some p' /\
    (b = false \/
     forall out, In out (Product.get_output_urls p') -> out <> "" ->
                 occurs_in out (csv_row p')).
Proof.
  destruct (@process_product_images_generated_urls demo_env 1 two_item_batch
              (demo_product 1 ["http://broken.example/x.png";
                               "http://img.example/a.png"] None PENDING)
              (fun _ => eq_refl) eq_refl)
    as ((b & s' & p' & Hrun & Hfind & Hcases) & _).
  exists b, s', p'. split; [exact Hrun|]. split; [exact Hfind|].
  destruct Hcases as [(Hb & _)|(_ & Hall)]; [now left|right].
  intros out Hin Hne. now apply Hall.
Defined.

(** ** The driver: [_process_images] *)

Lemma request_has_id_keeps (request_id : string)
  (f : Request.t -> Request.t) :
  (forall x, Request.id (f x) = Request.id x) ->
  forall x, request_has_id request_id x = true ->
            request_has_id request_id (f x) = true.
Proof. intros Hf x. unfold request_has_id. now rewrite Hf. Qed.

Section Driver.

Variable env : Env.
Hypothesis Hrel : reliable env.


Lemma _process_images_try_reliable (request_id : string) (s : State)
  (r : Request.t) :
  find_request request_id s = Some r ->
  _process_images_try env request_id s
  = bind (process_products env request_id (batch_items request_id s))
         (fun _ => bind (trigger_webhook_if_needed env request_id)
                        (fun _ => ret (success_result request_id)))
         (started request_id s).
Proof.
  intros Hfind. unfold _process_images_try.
  unfold bind at 1. rewrite (query_products_reliable Hrel).
  unfold bind at 1. unfold bind at 1.
  rewrite (query_request_reliable Hrel).
  replace (find_request request_id (tick s)) with (Some r)
    by (symmetry; exact Hfind).
  unfold bind at 1. unfold assign_request, modify.
  rewrite (commit_reliable Hrel). reflexivity.
Qed.

End Driver.

Lemma find_request_started (request_id : string) (s : State) :
  find_request request_id (started request_id s)
  = option_map (Request.with_status PROCESSING) (find_request request_id s).
Proof.
  unfold find_request, started. cbn.
  apply find_update_first, request_has_id_keeps. reflexivity.
Qed.



Lemma bind_ret_inv (A B : Type) (m : M A) (f : A -> M B) (s s' : State)
  (b : B) :
  bind m f s = Ret b s' ->
  exists a s0, m s = Ret a s0 /\ f a s0 = Ret b s'.
Proof.
  unfold bind. destruct (m s) as [a s0|e s0]; [|discriminate].
  intros H. now exists a, s0.
Qed.

(** A database call that does not raise. *)
Lemma db_call_ok (env : Env) (s : State) :
  db_fault env (db_ops s) = None -> db_call env s = Ret tt (tick s).
Proof. intros H. unfold db_call. now rewrite H. Qed.

Lemma query_request_ok (env : Env) (request_id : string) (s : State) :
  db_fault env (db_ops s) = None ->
  query_request env request_id s
  = Ret (find_request request_id s) (tick s).
Proof. intros H. unfold query_request, bind. now rewrite db_call_ok. Qed.

Lemma commit_ok (env : Env) (s : State) :
  db_fault env (db_ops s) = None ->
  commit env s = Ret tt (push_commit (tick s)).
Proof. intros H. unfold commit, bind. now rewrite db_call_ok. Qed.

(** The [try] block of the driver returns nothing but the success
    result. *)
Lemma _process_images_try_result (env : Env) (request_id : string)
  (s s1 : State) (res : TaskResult) :
  _process_images_try env request_id s = Ret res s1 ->
  res = success_result request_id.
Proof.
  unfold _process_images_try. intros H.
  apply bind_ret_inv in H. destruct H as (ps & t1 & _ & H).
  apply bind_ret_inv in H. destruct H as (request & t2 & _ & H).
  apply bind_ret_inv in H. destruct H as (u & t3 & _ & H).
  apply bind_ret_inv in H. destruct H as (u' & t4 & _ & H).
  apply bind_ret_inv in H. destruct H as (w & t5 & _ & H).
  unfold ret in H. now injection H as <- _.
Qed.

(** ** Relations kept by every step of a computation *)

Section Keeps.

Variable R : State -> State -> Prop.
Hypothesis R_refl : forall s, R s s.
Hypothesis R_trans : forall s1 s2 s3, R s1 s2 -> R s2 s3 -> R s1 s3.

Lemma keeps_ret (A : Type) (a : A) : keeps R (ret a).
Proof. intros s. apply R_refl. Qed.

Lemma keeps_raise (A : Type) (e : string) : keeps R (@raise A e).
Proof. intros s. apply R_refl. Qed.

Lemma keeps_gets (A : Type) (f : State -> A) : keeps R (gets f).
Proof. intros s. apply R_refl. Qed.

Lemma keeps_modify (f : State -> State) :
  (forall s, R s (f s)) -> keeps R (modify f).
Proof. intros H s. apply H. Qed.

Lemma keeps_bind (A B : Type) (m : M A) (f : A -> M B) :
  keeps R m -> (forall a, keeps R (f a)) -> keeps R (bind m f).
Proof.
  intros Hm Hf s. unfold bind. specialize (Hm s).
  destruct (m s) as [a s1|e s1]; cbn in *; [|exact Hm].
  eapply R_trans; [exact Hm|apply Hf].
Qed.

Lemma keeps_try_except (A : Type) (m : M A) (h : string -> M A) :
  keeps R m -> (forall e, keeps R (h e)) -> keeps R (try_except m h).
Proof.
  intros Hm Hh s. unfold try_except. specialize (Hm s).
  destruct (m s) as [a s1|e s1]; cbn in *; [exact Hm|].
  eapply R_trans; [exact Hm|apply Hh].
Qed.

Lemma keeps_try_finally (A : Type) (m : M A) (f : M unit) :
  keeps R m -> keeps R f -> keeps R (try_finally m f).
Proof.
  intros Hm Hf s. unfold try_finally. specialize (Hm s).
  destruct (m s) as [a s1|e s1]; cbn in *;
    specialize (Hf s1); destruct (f s1); cbn in *;
    eapply R_trans; eassumption.
Qed.

Lemma keeps_if (A : Type) (b : bool) (m1 m2 : M A) :
  keeps R m1 -> keeps R m2 -> keeps R (if b then m1 else m2).
Proof. now destruct b. Qed.

End Keeps.

(** ** What the steps before the notifier leave alone *)

Lemma notification_frame_refl (s : State) : notification_frame s s.
Proof.
  split; [reflexivity|]. split; [reflexivity|]. exists []. now split.
Qed.

Lemma notification_frame_trans (s1 s2 s3 : State) :
  notification_frame s1 s2 -> notification_frame s2 s3 ->
  notification_frame s1 s3.
Proof.
  intros (Hp1 & Hf1 & new1 & Hc1 & Hall1) (Hp2 & Hf2 & new2 & Hc2 & Hall2).
  split; [congruence|]. split; [congruence|].
  exists (new2 ++ new1)%list. split.
  - rewrite Hc2, Hc1. now rewrite app_assoc.
  - apply Forall_app. split; [|exact Hall1].
    eapply Forall_impl; [|exact Hall2]. intros c Hc. congruence.
Qed.

(** A step that changes neither the request table, nor the commits, nor
    the callbacks sent. *)
Lemma notification_frame_same (s s' : State) :
  requests s' = requests s -> committed s' = committed s ->
  posts s' = posts s -> notification_frame s s'.
Proof.
  intros Hr Hc Hp. split; [exact Hp|]. split; [now rewrite Hr|].
  exists []. now split.
Qed.

Lemma notification_frame_commit (s : State) :
  notification_frame s (push_commit s).
Proof.
  split; [reflexivity|]. split; [reflexivity|].
  exists [snap s]. split; [reflexivity|]. now constructor.
Qed.

Lemma notification_frame_assign (request_id : string)
  (f : Request.t -> Request.t) (s : State) :
  (forall r, Request.id (f r) = Request.id r) ->
  (forall r, Request.webhook_triggered (f r) = Request.webhook_triggered r) ->
  notification_frame s
    (set_requests (update_first (request_has_id request_id) f (requests s))
                  s).
Proof.
  intros Hid Hflag. split; [reflexivity|]. split.
  - cbn. unfold flags. apply map_update_first. intros r.
    now rewrite Hid, Hflag.
  - exists []. now split.
Qed.

Create HintDb keeps discriminated.

#[local] Hint Resolve notification_frame_refl : keeps.

Ltac keeps_step :=
  first
    [ solve [auto with keeps]
    | apply keeps_ret; [apply notification_frame_refl]
    | apply keeps_raise; [apply notification_frame_refl]
    | apply keeps_gets; [apply notification_frame_refl]
    | apply keeps_modify; intros ?; apply notification_frame_same; reflexivity
    | apply keeps_bind;
      [exact notification_frame_trans| |intros ?]
    | apply keeps_try_except;
      [exact notification_frame_trans| |intros ?] ].

Section FrameSteps.

Variable env : Env.

Lemma keeps_db_call : keeps notification_frame (db_call env).
Proof.
  intros s. unfold db_call.
  destruct (db_fault env (db_ops s)); cbn;
    apply notification_frame_same; reflexivity.
Qed.
#[local] Hint Resolve keeps_db_call : keeps.

Lemma keeps_query_request (request_id : string) :
  keeps notification_frame (query_request env request_id).
Proof. unfold query_request. repeat keeps_step. Qed.

Lemma keeps_query_product (product_id : Z) :
  keeps notification_frame (query_product env product_id).
Proof. unfold query_product. repeat keeps_step. Qed.

Lemma keeps_query_products (request_id : string) :
  keeps notification_frame (query_products env request_id).
Proof. unfold query_products. repeat keeps_step. Qed.

Lemma keeps_count_products (request_id : string) (extra : Product.t -> bool) :
  keeps notification_frame (count_products env request_id extra).
Proof. unfold count_products. repeat keeps_step. Qed.

Lemma keeps_commit : keeps notification_frame (commit env).
Proof.
  unfold commit. apply keeps_bind;
    [exact notification_frame_trans|apply keeps_db_call|intros _].
  apply keeps_modify. apply notification_frame_commit.
Qed.

Lemma keeps_assign_product (product_id : Z) (f : Product.t -> Product.t) :
  keeps notification_frame (assign_product product_id f).
Proof. unfold assign_product. repeat keeps_step. Qed.

Lemma keeps_assign_request (request_id : string)
  (f : Request.t -> Request.t) :
  (forall r, Request.id (f r) = Request.id r) ->
  (forall r, Request.webhook_triggered (f r) = Request.webhook_triggered r) ->
  keeps notification_frame (assign_request request_id f).
Proof.
  intros Hid Hflag. unfold assign_request. apply keeps_modify. intros s.
  now apply notification_frame_assign.
Qed.

Lemma keeps_log_call (c : Call) : keeps notification_frame (log_call c).
Proof. unfold log_call. repeat keeps_step. Qed.

#[local] Hint Resolve keeps_query_request keeps_query_product keeps_query_products
  keeps_count_products keeps_commit keeps_assign_product keeps_log_call
  : keeps.

Lemma keeps_process_image (url : string) :
  keeps notification_frame (process_image env url).
Proof.
  intros s.
  destruct (process_image_cases env url s)
    as [(_ & ->)|(_ & c & [(_ & ->)|(_ & ->)])]; cbn;
    apply notification_frame_same; reflexivity.
Qed.
#[local] Hint Resolve keeps_process_image : keeps.

Lemma keeps_process_urls (urls : list string) (acc : list string) :
  keeps notification_frame (process_urls env urls acc).
Proof.
  revert acc. induction urls as [|url rest IH]; intros acc; cbn.
  - repeat keeps_step.
  - apply keeps_bind;
      [exact notification_frame_trans|apply keeps_process_image|intros ?].
    apply IH.
Qed.
#[local] Hint Resolve keeps_process_urls : keeps.

Lemma keeps_process_product_images (product_id : Z) :
  keeps notification_frame (process_product_images env product_id).
Proof.
  unfold process_product_images.
  apply keeps_bind; [exact notification_frame_trans|auto with keeps|intros _].
  apply keeps_bind; [exact notification_frame_trans|auto with keeps|intros o].
  destruct o as [p|]; repeat keeps_step.
Qed.

Lemma keeps_update_request_status (request_id : string) :
  keeps notification_frame (update_request_status env request_id).
Proof.
  unfold update_request_status.
  apply keeps_bind; [exact notification_frame_trans|auto with keeps|intros _].
  apply keeps_bind; [exact notification_frame_trans|auto with keeps|intros o].
  destruct o as [r|]; [|repeat keeps_step].
  do 3 (apply keeps_bind;
        [exact notification_frame_trans|auto with keeps|intros ?]).
  apply keeps_bind; [exact notification_frame_trans| |intros _].
  { apply keeps_assign_request; reflexivity. }
  apply keeps_bind; [exact notification_frame_trans| |intros _;
                                                      auto with keeps].
  repeat apply keeps_if;
    first [ apply keeps_assign_request; reflexivity
          | apply keeps_ret; apply notification_frame_refl ].
Qed.

#[local] Hint Resolve keeps_process_product_images keeps_update_request_status
  : keeps.

Lemma keeps_process_products (request_id : string) (ps : list Product.t) :
  keeps notification_frame (process_products env request_id ps).
Proof.
  induction ps as [|p rest IH]; cbn.
  - repeat keeps_step.
  - apply keeps_bind; [exact notification_frame_trans|auto with keeps|intros _].
    apply keeps_bind; [exact notification_frame_trans|auto with keeps|intros _].
    exact IH.
Qed.

End FrameSteps.

(** ** The completion notifier *)

Lemma query_request_cases (env : Env) (request_id : string) (s : State) :
  (exists e, query_request env request_id s = Exn e (tick s)) \/
  query_request env request_id s = Ret (find_request request_id s) (tick s).
Proof.
  unfold query_request, bind, db_call.
  destruct (db_fault env (db_ops s)) as [e|]; [left; now exists e|now right].
Qed.

Lemma commit_cases (env : Env) (s : State) :
  (exists e, commit env s = Exn e (tick s)) \/
  commit env s = Ret tt (push_commit (tick s)).
Proof.
  unfold commit, bind, db_call.
  destruct (db_fault env (db_ops s)) as [e|]; [left; now exists e|now right].
Qed.

Lemma find_flags (request_id : string) (rs : list Request.t) :
  forall rs', flags rs' = flags rs ->
    option_map Request.webhook_triggered
               (find (request_has_id request_id) rs')
    = option_map Request.webhook_triggered
                 (find (request_has_id request_id) rs).
Proof.
  induction rs as [|r rs IH]; intros [|r' rs'] H; try discriminate;
    [reflexivity|].
  cbn in H. injection H as Hid Hflag Hrest. cbn.
  unfold request_has_id at 1 3. rewrite Hid.
  destruct (String.eqb (Request.id r) request_id); cbn.
  - now rewrite Hflag.
  - now apply IH.
Qed.

Lemma snapshot_notified_flags (request_id : string) (c c' : Snapshot) :
  flags (fst c') = flags (fst c) ->
  snapshot_notified request_id c' = snapshot_notified request_id c.
Proof.
  intros Hflags. unfold snapshot_notified.
  pose proof (find_flags request_id (fst c) (fst c') Hflags) as H.
  destruct (find _ (fst c')), (find _ (fst c)); cbn in H; congruence.
Qed.

Lemma notified_frame (request_id : string) (s s' : State) :
  notification_frame s s' ->
  notified request_id s' = notified request_id s /\ posts s' = posts s.
Proof.
  intros (Hposts & Hflags & _). split; [|exact Hposts].
  exact (snapshot_notified_flags request_id (snap s) (snap s') Hflags).
Qed.

(** Under a frame, every snapshot committed on the way shows the flag as
    it was at the start. *)
Lemma notified_frame_history (request_id : string) (s s' : State) :
  notification_frame s s' ->
  Forall (fun c => snapshot_notified request_id c = notified request_id s)
         (run_history s s').
Proof.
  intros (_ & _ & new & Hc & Hall). unfold run_history.
  rewrite Hc, length_app, Nat.add_sub.
  rewrite firstn_app, firstn_all, Nat.sub_diag. cbn. rewrite app_nil_r.
  apply Forall_rev. eapply Forall_impl; [|exact Hall].
  intros c Hflags.
  exact (snapshot_notified_flags request_id (snap s) c Hflags).
Qed.

Section Notifier.

Variable env : Env.

(** The ways the notifier ends: it raises before doing anything, or it
    returns having sent nothing, or it returns after one POST for a batch
    that is [completed] and not yet notified; the flag is set only when
    that POST succeeded. *)
Lemma trigger_webhook_if_needed_cases (request_id : string) (s : State) :
  match trigger_webhook_if_needed env request_id s with
  | Exn _ s' => notification_frame s s'
  | Ret _ s' =>
      notification_frame s s' \/
      exists r url payload,
        find_request request_id s = Some r /\
        truthy_int (Request.webhook_triggered r) = false /\
        Request.status r = COMPLETED /\
        ((http_post env url payload = false /\
          posts s' = (url, payload, false) :: posts s /\
          requests s' = requests s) \/
         (http_post env url payload = true /\
          posts s' = (url, payload, true) :: posts s /\
          requests s'
          = update_first (request_has_id request_id)
                         (Request.with_webhook_triggered 1) (requests s)))
  end.
Proof.
  unfold trigger_webhook_if_needed. unfold bind at 1.
  unfold log_call at 1. unfold modify at 1. unfold bind at 1.
  destruct (query_request_cases env request_id
              (add_call (CallTriggerWebhook request_id) s))
    as [(e & ->)| ->];
    [apply notification_frame_same; reflexivity|].
  change (find_request request_id (add_call _ s))
    with (find_request request_id s).
  destruct (find_request request_id s) as [r|] eqn:Hfind;
    [|left; apply notification_frame_same; reflexivity].
  destruct (truthy_int (Request.webhook_triggered r)) eqn:Hflag;
    [left; apply notification_frame_same; reflexivity|].
  destruct (status_eqb (Request.status r) COMPLETED) eqn:Hst;
    [|left; apply notification_frame_same; reflexivity].
  apply status_eqb_eq in Hst. cbn [negb orb].
  destruct (truthy_str (str_or (Request.webhook_url r) (WEBHOOK_URL env)));
    cbn [negb]; [|left; apply notification_frame_same; reflexivity].
  unfold bind at 1. unfold gets at 1.
  unfold try_except. unfold bind at 1. unfold post_webhook.
  match goal with |- context [http_post env ?u ?pl] =>
    destruct (http_post env u pl) eqn:Hpost;
    [|right; exists r, u, pl; cbn; repeat split; auto]
  end.
  unfold modify at 1. unfold bind at 1. unfold assign_request at 1.
  unfold modify at 1. unfold bind at 1.
  match goal with |- context [commit env ?t] =>
    destruct (commit_cases env t) as [(e & ->)| ->]
  end; cbn;
    right; exists r; eexists; eexists;
    (split; [reflexivity|]); (split; [exact Hflag|]);
    (split; [exact Hst|]); right; (split; [exact Hpost|]);
    split; reflexivity.
Qed.

(** On a batch that is already notified the notifier sends nothing. *)
Lemma trigger_webhook_if_needed_notified (request_id : string) (s : State) :
  notified request_id s = true ->
  notification_frame s (final (trigger_webhook_if_needed env request_id s)).
Proof.
  intros Hn. pose proof (trigger_webhook_if_needed_cases request_id s) as H.
  destruct (trigger_webhook_if_needed env request_id s) as [a s'|e s'];
    cbn; [|exact H].
  destruct H as [H|(r & url & payload & Hfind & Hflag & _)]; [exact H|].
  unfold notified in Hn. rewrite Hfind in Hn. congruence.
Qed.

Lemma keeps__process_images_except (request_id e : string) :
  keeps notification_frame (_process_images_except env request_id e).
Proof.
  unfold _process_images_except.
  apply keeps_bind;
    [exact notification_frame_trans|apply keeps_query_request|intros o].
  apply keeps_bind; [exact notification_frame_trans| |intros _].
  - destruct o; [|apply keeps_ret; apply notification_frame_refl].
    apply keeps_bind;
      [exact notification_frame_trans| |intros _; apply keeps_commit].
    apply keeps_assign_request; reflexivity.
  - apply keeps_ret. apply notification_frame_refl.
Qed.

(** The [try] block up to the notifier: it raises, or it reaches the
    notifier, without sending anything or touching a flag. *)
Lemma _process_images_try_cases (request_id : string) (s : State) :
  exists s1,
    notification_frame s s1 /\
    ((exists e, _process_images_try env request_id s = Exn e s1) \/
     _process_images_try env request_id s
     = bind (trigger_webhook_if_needed env request_id)
            (fun _ => ret (success_result request_id)) s1).
Proof.
  remember (_process_images_try env request_id s) as res eqn:Hres.
  unfold _process_images_try in Hres. unfold bind at 1 in Hres.
  pose proof (keeps_query_products env request_id s) as H1.
  destruct (query_products env request_id s) as [ps t1|e t1]; cbn in H1;
    [|exists t1; split; [exact H1|left; now exists e]].
  unfold bind at 1 in Hres.
  pose proof (keeps_query_request env request_id t1) as H2.
  destruct (query_request env request_id t1) as [o t2|e t2]; cbn in H2;
    [|exists t2; split; [eauto using notification_frame_trans|left; now exists e]].
  unfold bind at 1 in Hres.
  assert (H3 : keeps notification_frame
                 (match o with
                  | Some _ =>
                      bind (assign_request request_id
                              (Request.with_status PROCESSING))
                           (fun _ => commit env)
                  | None => ret tt
                  end)).
  { destruct o; [|apply keeps_ret; apply notification_frame_refl].
    apply keeps_bind;
      [exact notification_frame_trans| |intros _; apply keeps_commit].
    apply keeps_assign_request; reflexivity. }
  specialize (H3 t2).
  match type of Hres with
  | context [match ?m t2 with Ret _ _ => _ | Exn _ _ => _ end] =>
      destruct (m t2) as [u t3|e t3]
  end; cbn in H3; [|exists t3; split; [eauto using notification_frame_trans|left; now exists e]].
  unfold bind at 1 in Hres.
  pose proof (keeps_process_products env request_id ps t3) as H4.
  destruct (process_products env request_id ps t3) as [u' t4|e t4];
    cbn in H4; [|exists t4; split; [eauto using notification_frame_trans|left; now exists e]].
  exists t4. split; [eauto using notification_frame_trans|right; exact Hres].
Qed.

(** A run on a batch that is already notified sends nothing and leaves
    every flag as it is. *)
Lemma _process_images_notified (request_id : string) (s : State) :
  notified request_id s = true ->
  notification_frame s (final (_process_images env request_id s)).
Proof.
  intros Hn.
  assert (Hclose : forall A (r : Res A),
             notification_frame s (final r) ->
             notification_frame s
               (final (try_finally (fun _ => r) db_close s))).
  { intros A r Hr. unfold try_finally. destruct r as [a t|e t]; cbn in *;
      (eapply notification_frame_trans; [exact Hr|]);
      apply notification_frame_same; reflexivity. }
  unfold _process_images.
  apply (Hclose _ (try_except (_process_images_try env request_id)
                              (_process_images_except env request_id) s)).
  unfold try_except.
  destruct (_process_images_try_cases request_id s)
    as (s1 & Hframe & [(e & Htry)|Htry]); rewrite Htry.
  - eapply notification_frame_trans; [exact Hframe|].
    apply keeps__process_images_except.
  - unfold bind.
    assert (Hn1 : notified request_id s1 = true).
    { destruct (notified_frame request_id Hframe) as [-> _]. exact Hn. }
    pose proof (trigger_webhook_if_needed_notified request_id s1 Hn1) as Ht.
    destruct (trigger_webhook_if_needed env request_id s1) as [a t|e t];
      cbn in Ht |- *.
    + eapply notification_frame_trans; eassumption.
    + apply notification_frame_trans with s1; [exact Hframe|].
      apply notification_frame_trans with t; [exact Ht|].
      apply keeps__process_images_except.
Qed.

End Notifier.

Lemma final_try_finally_close (A : Type) (m : M A) (s : State) :
  final (try_finally m db_close s) = set_closed (final (m s)).
Proof. unfold try_finally. destruct (m s); reflexivity. Qed.

Lemma reinvoke_frame (env : Env) (request_id : string) (n : nat) :
  forall s, notified request_id s = true ->
            notification_frame s (reinvoke env request_id n s).
Proof.
  induction n as [|n IH]; intros s Hn; cbn.
  - apply notification_frame_refl.
  - pose proof (_process_images_notified env request_id s Hn) as H1.
    eapply notification_frame_trans; [exact H1|]. apply IH.
    destruct (notified_frame request_id H1) as [-> _]. exact Hn.
Qed.

(** C1: however often the task is run again on a batch whose
    notification-sent flag is set, the flag stays set and no callback is
    sent, so the flag goes from unset to set at most once; and when a run
    sets the flag, the batch is [completed] and the run has sent exactly
    one callback for it, which was delivered. *)
Theorem notification_sent_at_most_once (env : Env) (request_id : string)
  (s : State) :
  (notified request_id s = true ->
   forall n,
     notified request_id (reinvoke env request_id n s) = true /\
     posts (reinvoke env request_id n s) = posts s /\
     Forall (fun c => snapshot_notified request_id c = true)
            (run_history s (reinvoke env request_id n s))) /\
  (notified request_id s = false ->
   notified request_id (final (_process_images env request_id s)) = true ->
   request_status request_id (final (_process_images env request_id s))
   = Some COMPLETED /\
   exists url payload,
     http_post env url payload = true /\
     posts (final (_process_images env request_id s))
     = (url, payload, true) :: posts s).
Proof.
  split.
  - intros Hn n.
    pose proof (reinvoke_frame env request_id n s Hn) as Hframe.
    destruct (notified_frame request_id Hframe) as [H1 H2].
    split; [now rewrite H1|]. split; [exact H2|].
    pose proof (notified_frame_history request_id Hframe) as H3.
    now rewrite Hn in H3.
  - unfold _process_images. rewrite final_try_finally_close.
    intros Hn Hn'. unfold try_except in *.
    assert (Habsurd : forall t, notification_frame s t ->
                                notified request_id (set_closed t) = true ->
                                False).
    { intros t Ht Hc.
      destruct (notified_frame request_id Ht) as [Heq _].
      change (notified request_id (set_closed t))
        with (notified request_id t) in Hc.
      congruence. }
    destruct (_process_images_try_cases env request_id s)
      as (s1 & Hframe & [(e & Htry)|Htry]); rewrite Htry in *.
    + exfalso. apply (Habsurd _ (notification_frame_trans Hframe
               (keeps__process_images_except env request_id e s1)) Hn').
    + unfold bind in *.
      pose proof (trigger_webhook_if_needed_cases env request_id s1) as Ht.
      destruct (trigger_webhook_if_needed env request_id s1) as [a t|e t].
      * cbn in Hn' |- *.
        destruct Ht as [Ht|(r & url & payload & Hfind & Hflag & Hst
                            & [(Hpost & Hposts & Hreqs)
                              |(Hpost & Hposts & Hreqs)])].
        { exfalso. exact (Habsurd _ (notification_frame_trans Hframe Ht)
                                  Hn'). }
        { exfalso.
          destruct (notified_frame request_id Hframe) as [Heq _].
          unfold notified, find_request in Hn', Heq, Hn. cbn in Hn'.
          rewrite Hreqs in Hn'. congruence. }
        { split.
          - unfold request_status, find_request in *. cbn. rewrite Hreqs.
            rewrite find_update_first
              by (apply request_has_id_keeps; reflexivity).
            rewrite Hfind. cbn. now rewrite Hst.
          - exists url, payload. split; [exact Hpost|].
            destruct (notified_frame request_id Hframe) as [_ Hp].
            cbn. now rewrite Hposts, Hp. }
      * exfalso.
        apply (Habsurd _ (notification_frame_trans
                 (notification_frame_trans Hframe Ht)
                 (keeps__process_images_except env request_id e t)) Hn').
Qed.

Lemma notification_sent_at_most_once_witness :
  (notified "r1" (reinvoke demo_env "r1" 3 notified_batch) = true /\
   posts (reinvoke demo_env "r1" 3 notified_batch) = []) /\
  request_status "r1" (final (_process_images demo_env "r1" two_item_batch))
  = Some COMPLETED.
Proof.
  destruct (notification_sent_at_most_once demo_env "r1" notified_batch)
    as [Hkeep _].
  destruct (notification_sent_at_most_once demo_env "r1" two_item_batch)
    as [_ Hflip].
  split.
  - destruct (Hkeep eq_refl 3%nat) as (H1 & H2 & _). now split.
  - exact (proj1 (Hflip eq_refl eq_refl)).
Defined.

(** The ways the notifier ends, with what it posted. *)
Lemma trigger_webhook_if_needed_sends (env : Env) (request_id : string)
  (s : State) :
  match trigger_webhook_if_needed env request_id s with
  | Exn _ s' => notification_frame s s'
  | Ret a s' =>
      (notification_frame s s' /\ a = None) \/
      exists r timestamp,
        let url := str_or (Request.webhook_url r) (WEBHOOK_URL env) in
        let payload := webhook_payload request_id r timestamp in
        find_request request_id s = Some r /\
        truthy_int (Request.webhook_triggered r) = false /\
        Request.status r = COMPLETED /\
        truthy_str url = true /\
        posts s' = (url, payload, http_post env url payload) :: posts s /\
        ((http_post env url payload = false /\ a = Some false /\
          requests s' = requests s) \/
         (http_post env url payload = true /\
          requests s'
          = update_first (request_has_id request_id)
                         (Request.with_webhook_triggered 1) (requests s)))
  end.
Proof.
  unfold trigger_webhook_if_needed. unfold bind at 1.
  unfold log_call at 1. unfold modify at 1. unfold bind at 1.
  destruct (query_request_cases env request_id
              (add_call (CallTriggerWebhook request_id) s))
    as [(e & ->)| ->];
    [apply notification_frame_same; reflexivity|].
  change (find_request request_id (add_call _ s))
    with (find_request request_id s).
  destruct (find_request request_id s) as [r|] eqn:Hfind;
    [|left; split; [apply notification_frame_same|]; reflexivity].
  destruct (truthy_int (Request.webhook_triggered r)) eqn:Hflag;
    [left; split; [apply notification_frame_same|]; reflexivity|].
  destruct (status_eqb (Request.status r) COMPLETED) eqn:Hst;
    [|left; split; [apply notification_frame_same|]; reflexivity].
  apply status_eqb_eq in Hst. cbn [negb orb].
  destruct (truthy_str (str_or (Request.webhook_url r) (WEBHOOK_URL env)))
    eqn:Hurl;
    cbn [negb]; [|left; split; [apply notification_frame_same|]; reflexivity].
  unfold bind at 1. unfold gets at 1.
  unfold try_except. unfold bind at 1. unfold post_webhook.
  match goal with |- context [http_post env ?u ?pl] =>
    destruct (http_post env u pl) eqn:Hpost
  end.
  - unfold modify at 1. unfold bind at 1. unfold assign_request at 1.
    unfold modify at 1. unfold bind at 1.
    match goal with |- context [commit env ?t] =>
      destruct (commit_cases env t) as [(e & ->)| ->]
    end; cbn;
      right; exists r; eexists; cbn zeta;
      (split; [reflexivity|]); (split; [exact Hflag|]);
      (split; [exact Hst|]); (split; [exact Hurl|]);
      rewrite Hpost; (split; [reflexivity|]); right; split; reflexivity.
  - right. exists r. eexists. cbn zeta.
    split; [reflexivity|]. split; [exact Hflag|]. split; [exact Hst|].
    split; [exact Hurl|]. rewrite Hpost. cbn.
    split; [reflexivity|]. left. repeat split; reflexivity.
Qed.

(** ** The result of a run *)

Lemma _process_images_try_raises (env : Env) (request_id : string)
  (s s1 : State) (e : string) :
  _process_images_try env request_id s = Exn e s1 ->
  notification_frame s s1.
Proof.
  intros Htry.
  destruct (_process_images_try_cases env request_id s)
    as (t & Hframe & [(e0 & H)|H]); rewrite H in Htry.
  - injection Htry as _ <-. exact Hframe.
  - unfold bind in Htry.
    pose proof (trigger_webhook_if_needed_sends env request_id t) as Ht.
    destruct (trigger_webhook_if_needed env request_id t) as [a t'|e' t'];
      [discriminate|].
    injection Htry as _ <-.
    exact (notification_frame_trans Hframe Ht).
Qed.

(** C7, as the specification states it, fails when the handler's own
    query raises too: the exception that escaped the [try] block is
    replaced by one that leaves [_process_images], no result object is
    returned, and the batch keeps the status [processing]. *)
Lemma _process_images_handler_raises :
  let env := flaky_db_env (fun k => Nat.eqb k 4 || Nat.eqb k 5) in
  let s := single_item_batch "http://img.example/a.png" in
  exists e s1 e' s2,
    _process_images_try env "r1" s = Exn e s1 /\
    _process_images env "r1" s = Exn e' s2 /\
    request_status "r1" s2 = Some PROCESSING /\
    option_map (batch_rank "r1") (hd_error (committed s2))
    = Some (rank PROCESSING).
Proof.
  cbn zeta. eexists. eexists. eexists. eexists.
  split; [vm_compute; reflexivity|].
  split; [vm_compute; reflexivity|].
  split; vm_compute; reflexivity.
Qed.

(** C7, amended: when no exception escapes the [try] block of the driver,
    the run returns the success result with the batch identifier. When an
    exception escapes it, nothing committed before is rolled back, and
    the handler queries the batch again: if that query and the commit
    succeed, the batch is forced to [failed], that status is committed,
    the items and the files stay as they are, and the run returns the
    result with status "error", the batch identifier and the text of the
    exception (the same result, with nothing committed, when the batch has
    no row); if the handler's query or its commit raises, that exception
    leaves the run, no result is returned and nothing more is
    committed. The session is closed in every case. *)
Theorem _process_images_result (env : Env) (request_id : string)
  (s : State) :
  (forall res s1,
      _process_images_try env request_id s = Ret res s1 ->
      res_status res = "success" /\ res_request_id res = request_id /\
      res_error res = None /\
      _process_images env request_id s = Ret res (set_closed s1)) /\
  (forall e s1,
      _process_images_try env request_id s = Exn e s1 ->
      (exists new, committed s1 = (new ++ committed s)%list) /\
      (forall r,
          db_fault env (db_ops s1) = None ->
          find_request request_id s1 = Some r ->
          db_fault env (S (db_ops s1)) = None ->
          exists res s2,
            _process_images env request_id s = Ret res s2 /\
            res_status res = "error" /\ res_request_id res = request_id /\
            res_error res = Some e /\
            request_status request_id s2 = Some FAILED /\
            committed s2 = snap s2 :: committed s1 /\
            products s2 = products s1 /\ files s2 = files s1 /\
            closed s2 = true) /\
      (db_fault env (db_ops s1) = None ->
       find_request request_id s1 = None ->
       exists res,
         _process_images env request_id s = Ret res (set_closed (tick s1)) /\
         res_status res = "error" /\ res_request_id res = request_id /\
         res_error res = Some e) /\
      (forall e',
          db_fault env (db_ops s1) = Some e' ->
          _process_images env request_id s
          = Exn e' (set_closed (tick s1))) /\
      (forall r e',
          db_fault env (db_ops s1) = None ->
          find_request request_id s1 = Some r ->
          db_fault env (S (db_ops s1)) = Some e' ->
          exists s2,
            _process_images env request_id s = Exn e' s2 /\
            committed s2 = committed s1 /\
            products s2 = products s1 /\ closed s2 = true)).
Proof.
  split.
  - intros res s1 Htry.
    pose proof (_process_images_try_result _ _ _ Htry) as ->.
    repeat split; try reflexivity.
    unfold _process_images, try_finally, try_except. now rewrite Htry.
  - intros e s1 Htry. split.
    { destruct (_process_images_try_raises _ _ _ Htry)
        as (_ & _ & new & Hc & _).
      now exists new. }
    unfold _process_images, try_finally, try_except. rewrite Htry.
    unfold _process_images_except.
    split; [|split; [|split]]; unfold bind at 1; unfold bind at 1.
    + intros r Hq Hfind Hc.
      rewrite (query_request_ok _ _ _ Hq).
      replace (find_request request_id s1) with (Some r)
        by (symmetry; exact Hfind).
      unfold bind at 1. unfold assign_request, modify.
      rewrite commit_ok by exact Hc.
      cbn. eexists. eexists. split; [reflexivity|].
      unfold request_status, find_request in *. cbn.
      rewrite find_update_first by (apply request_has_id_keeps; reflexivity).
      rewrite Hfind. repeat split; reflexivity.
    + intros Hq Hfind.
      rewrite (query_request_ok _ _ _ Hq).
      replace (find_request request_id s1) with (@None Request.t)
        by (symmetry; exact Hfind).
      cbn. eexists. split; [reflexivity|]. repeat split; reflexivity.
    + intros e' Hq. unfold query_request, bind, db_call.
      rewrite Hq. reflexivity.
    + intros r e' Hq Hfind Hc.
      rewrite (query_request_ok _ _ _ Hq).
      replace (find_request request_id s1) with (Some r)
        by (symmetry; exact Hfind).
      unfold bind at 1. unfold assign_request, modify.
      unfold commit, bind, db_call. cbn. rewrite Hc.
      eexists. split; [reflexivity|]. repeat split; reflexivity.
Qed.

Lemma _process_images_result_witness :
  exists res s2,
    _process_images (flaky_db_env (Nat.eqb 4)) "r1"
      (single_item_batch "http://img.example/a.png") = Ret res s2 /\
    res_status res = "error" /\ res_request_id res = "r1" /\
    res_error res = Some "OperationalError" /\
    request_status "r1" s2 = Some FAILED.
Proof.
  destruct (@_process_images_result (flaky_db_env (Nat.eqb 4)) "r1"
              (single_item_batch "http://img.example/a.png")) as [_ H].
  edestruct H as (_ & Hok & _).
  - vm_compute. reflexivity.
  - edestruct Hok as (res & s2 & Hrun & Hs & Hid & Herr & Hst & _);
      [reflexivity|reflexivity|reflexivity|].
    exists res, s2. repeat split; assumption.
Defined.

(** ** Chains of snapshots *)

Section Chains.

Variable le : Snapshot -> Snapshot -> Prop.
Hypothesis le_refl : forall a, le a a.
Hypothesis le_trans : forall a b c, le a b -> le b c -> le a c.

Lemma chain_app (a b : Snapshot) (l1 l2 : list Snapshot) :
  chain le a (l1 ++ [b]) -> chain le b l2 -> chain le a (l1 ++ b :: l2).
Proof.
  revert a. induction l1 as [|x l1 IH]; intros a; cbn.
  - intros [H _] H2. now split.
  - intros [H1 H] H2. split; [exact H1|now apply IH].
Qed.

Lemma chain_drop (a b : Snapshot) (l1 l2 : list Snapshot) :
  chain le a (l1 ++ b :: l2) -> chain le a (l1 ++ l2).
Proof.
  revert a. induction l1 as [|x l1 IH]; intros a; cbn.
  - intros [H1 H2]. destruct l2 as [|y l2]; cbn in *; [exact I|].
    destruct H2 as [H2 H3]. split; [eapply le_trans; eassumption|exact H3].
  - intros [H1 H]. split; [exact H1|now apply IH].
Qed.

Lemma chain_app_l (a : Snapshot) (l1 l2 : list Snapshot) :
  chain le a (l1 ++ l2) -> chain le a l1.
Proof.
  revert a. induction l1 as [|x l1 IH]; intros a; cbn; [trivial|].
  intros [H1 H]. split; [exact H1|now apply IH with (a := x)].
Qed.

Lemma advances_refl (s : State) : advances le s s.
Proof. exists []. split; [reflexivity|]. cbn. now split. Qed.

Lemma advances_trans (s1 s2 s3 : State) :
  advances le s1 s2 -> advances le s2 s3 -> advances le s1 s3.
Proof.
  intros (new1 & Hc1 & H1) (new2 & Hc2 & H2).
  exists (new2 ++ new1)%list. split.
  - rewrite Hc2, Hc1. now rewrite app_assoc.
  - rewrite rev_app_distr, <- app_assoc.
    apply chain_drop with (b := snap s2).
    apply chain_app; assumption.
Qed.

(** A step without a commit. *)
Lemma advances_quiet (s s' : State) :
  committed s' = committed s -> le (snap s) (snap s') -> advances le s s'.
Proof.
  intros Hc Hle. exists []. split; [exact Hc|]. cbn. now split.
Qed.

(** A step that ends with the commit of the tables it leaves. *)
Lemma advances_commit (s s' : State) :
  committed s' = snap s' :: committed s -> le (snap s) (snap s') ->
  advances le s s'.
Proof.
  intros Hc Hle. exists [snap s']. split; [exact Hc|]. cbn.
  repeat split; auto.
Qed.

(** A step that commits [mid] and then the tables it leaves. *)
Lemma advances_commit2 (s s' : State) (mid : Snapshot) :
  committed s' = snap s' :: mid :: committed s ->
  le (snap s) mid -> le mid (snap s') -> advances le s s'.
Proof.
  intros Hc H1 H2. exists [snap s'; mid]. split; [exact Hc|]. cbn.
  repeat split; auto.
Qed.

(** The commits of a run that advances form a chain from its start. *)
Lemma advances_run_history (s s' : State) :
  advances le s s' -> chain le (snap s) (run_history s s').
Proof.
  intros (new & Hc & H). unfold run_history. rewrite Hc.
  rewrite length_app, Nat.add_sub.
  rewrite firstn_app, firstn_all, Nat.sub_diag. cbn.
  rewrite app_nil_r. now apply chain_app_l in H.
Qed.

End Chains.

(** ** Moving forward *)

Lemma forward_refl (c : Snapshot) : forward c c.
Proof. intros q. lia. Qed.

Lemma forward_trans (a b c : Snapshot) :
  forward a b -> forward b c -> forward a c.
Proof. intros H1 H2 q. specialize (H1 q). specialize (H2 q). lia. Qed.

Lemma forward_same_items (c c' : Snapshot) : snd c' = snd c -> forward c c'.
Proof. intros H q. unfold item_rank. rewrite H. lia. Qed.

(** Updating the row of one item moves forward when that item does. *)
Lemma forward_update_first (product_id : Z) (f : Product.t -> Product.t)
  (c c' : Snapshot) :
  (forall x, Product.id (f x) = Product.id x) ->
  snd c' = update_first (product_has_id product_id) f (snd c) ->
  (forall x, find (product_has_id product_id) (snd c) = Some x ->
             (rank (Product.status x) <= rank (Product.status (f x)))%nat) ->
  forward c c'.
Proof.
  intros Hid Hupd Hrank q. unfold item_rank. rewrite Hupd.
  destruct (Z.eq_dec q product_id) as [->|Hne].
  - rewrite find_update_first by (apply product_has_id_keeps; exact Hid).
    destruct (find (product_has_id product_id) (snd c)) as [x|] eqn:E; cbn;
      [now apply Hrank|lia].
  - rewrite find_update_first_other; [lia| |].
    + intros x. unfold product_has_id. now rewrite Hid.
    + intros x. unfold product_has_id. intros Hx.
      apply Z.eqb_eq in Hx. apply Z.eqb_neq. congruence.
Qed.

Lemma progress_refl (request_id : string) (c : Snapshot) :
  progress request_id c c.
Proof. split; lia. Qed.

Lemma progress_trans (request_id : string) (a b c : Snapshot) :
  progress request_id a b -> progress request_id b c ->
  progress request_id a c.
Proof. intros [H1 H2] [H3 H4]. split; lia. Qed.

Lemma progress_same_requests (request_id : string) (c c' : Snapshot) :
  fst c' = fst c -> progress request_id c c'.
Proof.
  intros H. unfold progress, batch_rank, batch_processed. rewrite H.
  split; lia.
Qed.

(** Setting the notification flag changes neither the status nor the
    processed count of the batch. *)
Lemma progress_flag (request_id : string) (c c' : Snapshot) :
  fst c' = update_first (request_has_id request_id)
                        (Request.with_webhook_triggered 1) (fst c) ->
  progress request_id c c'.
Proof.
  intros H. unfold progress, batch_rank, batch_processed. rewrite H.
  rewrite find_update_first by (apply request_has_id_keeps; reflexivity).
  destruct (find (request_has_id request_id) (fst c)); cbn; split; lia.
Qed.

(** ** The notifier on a reliable database *)

Lemma trigger_webhook_if_needed_reliable (env : Env) (request_id : string)
  (s : State) :
  reliable env ->
  exists a s',
    trigger_webhook_if_needed env request_id s = Ret a s' /\
    products s' = products s /\
    calls s' = CallTriggerWebhook request_id :: calls s /\
    ((requests s' = requests s /\ committed s' = committed s) \/
     (requests s' = update_first (request_has_id request_id)
                      (Request.with_webhook_triggered 1) (requests s) /\
      committed s' = snap s' :: committed s)).
Proof.
  intros Hrel.
  unfold trigger_webhook_if_needed. unfold bind at 1.
  unfold log_call at 1. unfold modify at 1. unfold bind at 1.
  rewrite (query_request_reliable Hrel).
  change (find_request request_id (add_call _ s))
    with (find_request request_id s).
  destruct (find_request request_id s) as [r|];
    [|eexists; eexists; split; [reflexivity|]; cbn; auto].
  destruct (truthy_int (Request.webhook_triggered r)
            || negb (status_eqb (Request.status r) COMPLETED))%bool;
    [eexists; eexists; split; [reflexivity|]; cbn; auto|].
  destruct (negb (truthy_str (str_or (Request.webhook_url r)
                                     (WEBHOOK_URL env))));
    [eexists; eexists; split; [reflexivity|]; cbn; auto|].
  unfold bind at 1. unfold gets at 1.
  unfold try_except. unfold bind at 1. unfold post_webhook.
  match goal with |- context [http_post env ?u ?pl] =>
    destruct (http_post env u pl)
  end.
  - unfold modify at 1. unfold bind at 1. unfold assign_request at 1.
    unfold modify at 1. unfold bind at 1.
    rewrite (commit_reliable Hrel).
    eexists; eexists; split; [reflexivity|]; cbn; auto.
  - eexists; eexists; split; [reflexivity|]; cbn; auto.
Qed.

(** ** One turn of the driver's loop *)

Section CountUpdate.

Variables (A : Type) (test keep : A -> bool) (f : A -> A).

Lemma filter_update_first_length (l : list A) :
  (forall x, keep (f x) = keep x) ->
  List.length (filter keep (update_first test f l))
  = List.length (filter keep l).
Proof.
  intros H. induction l as [|x l IH]; cbn; [reflexivity|].
  destruct (test x); cbn.
  - rewrite H. now destruct (keep x).
  - destruct (keep x); cbn; now rewrite IH.
Qed.

Lemma filter_update_first_length_le (l : list A) :
  (forall x, keep x = true -> keep (f x) = true) ->
  (List.length (filter keep l)
   <= List.length (filter keep (update_first test f l)))%nat.
Proof.
  intros H. induction l as [|x l IH]; cbn; [lia|].
  destruct (test x); cbn.
  - destruct (keep x) eqn:E; [rewrite (H x E); cbn; lia|].
    destruct (keep (f x)); cbn; lia.
  - destruct (keep x); cbn; lia.
Qed.

Lemma filter_found_length (l : list A) (x : A) :
  find test l = Some x -> keep x = true ->
  (1 <= List.length (filter keep l))%nat.
Proof.
  intros Hfind Hkeep. apply find_some in Hfind. destruct Hfind as [Hin _].
  assert (Hin' : In x (filter keep l)) by (apply filter_In; now split).
  destruct (filter keep l); [contradiction|cbn; lia].
Qed.

End CountUpdate.

Lemma find_product_other (product_id other_id : Z)
  (f : Product.t -> Product.t) (ps : list Product.t) :
  (forall x, Product.id (f x) = Product.id x) ->
  other_id <> product_id ->
  find (product_has_id other_id)
       (update_first (product_has_id product_id) f ps)
  = find (product_has_id other_id) ps.
Proof.
  intros Hid Hne. apply find_update_first_other.
  - intros x. unfold product_has_id. now rewrite Hid.
  - intros x. unfold product_has_id. intros Hx.
    apply Z.eqb_eq in Hx. apply Z.eqb_neq. congruence.
Qed.

Section Turn.

Variable env : Env.
Hypothesis Hrel : reliable env.

(** The item processor followed by the aggregation step, for an item and
    a batch that exist. *)
Lemma turn_reliable (request_id : string) (product_id : Z) (s : State)
  (p0 : Product.t) (r : Request.t) :
  find_product product_id s = Some p0 ->
  find_request request_id s = Some r ->
  exists b s1 s2 f,
    process_product_images env product_id s = Ret b s1 /\
    update_request_status env request_id s1 = Ret tt s2 /\
    (forall x, Product.id (f x) = Product.id x) /\
    (forall x, Product.request_id (f x) = Product.request_id x) /\
    (forall x, is_terminal (Product.status (f x)) = true) /\
    products s1 = update_first (product_has_id product_id) f (products s) /\
    requests s1 = requests s /\
    committed s1
    = snap s1
      :: (requests s,
          update_first (product_has_id product_id)
                       (Product.with_status PROCESSING) (products s))
      :: committed s /\
    calls s1 = CallProcessProduct product_id :: calls s /\
    products s2 = products s1 /\
    requests s2 = update_first (request_has_id request_id)
                               (aggregated request_id s1) (requests s) /\
    committed s2 = snap s2 :: committed s1 /\
    calls s2 = CallUpdateStatus request_id :: calls s1.
Proof.
  intros Hp Hr.
  destruct (process_product_images_reliable Hrel product_id s Hp)
    as (b & s1 & Hrun1 & Hreqs1 & _ & _ & Hcalls1 & _ & Hc1 & Hcases).
  assert (Hr1 : find_request request_id s1 = Some r).
  { unfold find_request in *. now rewrite Hreqs1. }
  destruct (update_request_status_reliable Hrel request_id s1 Hr1)
    as (s2 & Hrun2 & Hreqs2 & Hprods2 & _ & _ & Hc2 & _ & Hcalls2 & _).
  assert (Hsnap1 : committed s1
            = snap s1
              :: (requests s,
                  update_first (product_has_id product_id)
                    (Product.with_status PROCESSING) (products s))
              :: committed s).
  { rewrite Hc1. unfold snap. now rewrite Hreqs1. }
  assert (Hsnap2 : committed s2 = snap s2 :: committed s1).
  { rewrite Hc2. unfold snap. now rewrite Hprods2. }
  rewrite Hreqs1 in Hreqs2.
  destruct Hcases as [(-> & outs & _ & Hprods1)|(-> & _ & Hprods1)].
  - exists true, s1, s2,
      (fun x => Product.with_status COMPLETED
                  (Product.set_output_urls outs x)).
    repeat split; assumption || reflexivity.
  - exists false, s1, s2, (Product.with_status FAILED).
    repeat split; assumption || reflexivity.
Qed.

End Turn.

(** ** Counts across one turn *)

Lemma count_items_filter (request_id : string) (test : Product.t -> bool)
  (s : State) :
  count_items request_id test s
  = Z.of_nat (List.length
      (filter (fun p => (product_of_request request_id p && test p)%bool)
              (products s))).
Proof. unfold count_items, batch_items. now rewrite filter_filter. Qed.

Section TurnCounts.

Variables (request_id : string) (product_id : Z).
Variable f : Product.t -> Product.t.
Hypothesis f_request : forall x, Product.request_id (f x) = Product.request_id x.
Hypothesis f_terminal : forall x, is_terminal (Product.status (f x)) = true.
Variables s s1 : State.
Hypothesis Hprods :
  products s1 = update_first (product_has_id product_id) f (products s).

Lemma total_count_turn :
  total_count request_id s1 = total_count request_id s.
Proof.
  unfold total_count. rewrite !count_items_filter, Hprods. f_equal.
  apply filter_update_first_length. intros x.
  unfold product_of_request. now rewrite f_request.
Qed.

Lemma terminal_count_turn :
  (terminal_count request_id s <= terminal_count request_id s1)%Z.
Proof.
  unfold terminal_count. rewrite !count_items_filter, Hprods.
  apply Nat2Z.inj_le, filter_update_first_length_le. intros x.
  unfold product_of_request. rewrite f_request, f_terminal.
  intros H. apply andb_prop in H. destruct H as [-> _]. reflexivity.
Qed.

Lemma terminal_count_turn_pos (p0 : Product.t) :
  (forall x, Product.id (f x) = Product.id x) ->
  find_product product_id s = Some p0 ->
  Product.request_id p0 = request_id ->
  (0 < terminal_count request_id s1)%Z.
Proof.
  intros f_id Hfind Hreq.
  unfold terminal_count. rewrite count_items_filter.
  assert (Hfind1 : find (product_has_id product_id) (products s1)
                   = Some (f p0)).
  { unfold find_product in Hfind.
    rewrite Hprods, find_update_first, Hfind
      by (apply product_has_id_keeps; exact f_id).
    reflexivity. }
  pose proof (filter_found_length (product_has_id product_id)
                (fun p => (product_of_request request_id p
                           && is_terminal (Product.status p))%bool)
                (products s1) Hfind1) as H.
  cbn beta in H. unfold product_of_request in H at 1.
  rewrite f_request, Hreq, String.eqb_refl, f_terminal in H.
  specialize (H eq_refl). lia.
Qed.

End TurnCounts.

(** Once an item is terminal, the aggregated status is at least
    [processing], and terminal exactly when every item is terminal. *)
Lemma rank_aggregated (request_id : string) (s : State) (r : Request.t) :
  (0 < terminal_count request_id s)%Z ->
  (1 <= rank (Request.status (aggregated request_id s r)))%nat /\
  (rank (Request.status (aggregated request_id s r)) = 2%nat
   <-> terminal_count request_id s = total_count request_id s).
Proof.
  intros Hpos.
  destruct (aggregated_status request_id s r) as (_ & H & _).
  destruct (H Hpos) as (Hc & Hf & Hp). clear H.
  pose proof (terminal_count_le_total request_id s) as Hle.
  pose proof (completed_count_nonneg request_id s) as Hc0.
  destruct (Request.status (aggregated request_id s r)) eqn:E; cbn.
  - (* pending is excluded *)
    exfalso.
    destruct (Z.eq_dec (terminal_count request_id s)
                       (total_count request_id s)) as [Heq|Hne].
    + destruct (Z.eq_dec (completed_count request_id s) 0) as [Hz|Hnz].
      * assert (PENDING = FAILED) by (apply Hf; now split). discriminate.
      * assert (PENDING = COMPLETED) by (apply Hc; split; [exact Heq|lia]).
        discriminate.
    + assert (PENDING = PROCESSING) by (apply Hp; lia). discriminate.
  - split; [lia|]. split; [discriminate|].
    intros Heq. assert (terminal_count request_id s
                        < total_count request_id s)%Z by now apply Hp.
    lia.
  - split; [lia|]. split; [intros _|reflexivity].
    now apply Hc.
  - split; [lia|]. split; [intros _|reflexivity].
    now apply Hf.
Qed.

Lemma forward_update_both (product_id : Z) (g f : Product.t -> Product.t)
  (l : list Product.t) (a b : Snapshot) :
  (forall x, Product.id (g x) = Product.id x) ->
  (forall x, Product.id (f x) = Product.id x) ->
  snd a = update_first (product_has_id product_id) g l ->
  snd b = update_first (product_has_id product_id) f l ->
  (forall x, find (product_has_id product_id) l = Some x ->
             (rank (Product.status (g x))
              <= rank (Product.status (f x)))%nat) ->
  forward a b.
Proof.
  intros Hg Hf Ha Hb Hrank q. unfold item_rank. rewrite Ha, Hb.
  destruct (Z.eq_dec q product_id) as [->|Hne].
  - rewrite !find_update_first by (apply product_has_id_keeps; assumption).
    destruct (find (product_has_id product_id) l) as [x|] eqn:E; cbn;
      [now apply Hrank|lia].
  - rewrite !find_product_other by assumption. lia.
Qed.

(** ** The driver's loop on a reliable database *)

Section Loop.

Variable env : Env.
Hypothesis Hrel : reliable env.
Variable request_id : string.

Lemma process_products_reliable (ps : list Product.t) :
  forall (s : State) (r : Request.t),
    find_request request_id s = Some r ->
    NoDup (map Product.id ps) ->
    (forall q, In q ps ->
       exists q', find_product (Product.id q) s = Some q' /\
                  Product.request_id q' = request_id) ->
    exists s',
      process_products env request_id ps s = Ret tt s' /\
      ((Request.processed_products r <= terminal_count request_id s)%Z ->
       (rank (Request.status r) = 2%nat ->
        terminal_count request_id s = total_count request_id s) ->
       advances (progress request_id) s s') /\
      calls s'
      = (rev (flat_map (fun p => [CallProcessProduct (Product.id p);
                                  CallUpdateStatus request_id]) ps)
         ++ calls s)%list /\
      ((forall q q', In q ps ->
          find_product (Product.id q) s = Some q' ->
          (rank (Product.status q') <= 1)%nat) ->
       advances forward s s').
Proof.
  induction ps as [|p rest IH]; intros s r Hr Hnodup Hitems.
  - exists s. cbn. split; [reflexivity|].
    split; [intros _ _; apply advances_refl, progress_refl|].
    split; [reflexivity|]. intros _. apply advances_refl, forward_refl.
  - destruct (Hitems p (or_introl eq_refl)) as (p0 & Hp0 & Hreq0).
    destruct (turn_reliable Hrel request_id (Product.id p) s Hp0 Hr)
      as (b & s1 & s2 & f & Hrun1 & Hrun2 & Hfid & Hfreq & Hfterm & Hprods1
          & Hreqs1 & Hc1 & Hcalls1 & Hprods2 & Hreqs2 & Hc2 & Hcalls2).
    cbn [process_products]. unfold bind. rewrite Hrun1, Hrun2.
    cbn [map] in Hnodup. apply NoDup_cons_iff in Hnodup.
    destruct Hnodup as [Hnotin Hnodup'].
    (* counts after the turn *)
    pose proof (total_count_turn request_id _ _ Hfreq _ _ Hprods1) as HT.
    pose proof (terminal_count_turn request_id _ _ Hfreq Hfterm _ _ Hprods1)
      as HP.
    pose proof (terminal_count_turn_pos _ _ Hfreq Hfterm _ _ Hprods1
                  Hfid Hp0 Hreq0) as Hpos.
    destruct (rank_aggregated request_id s1 r Hpos) as [Hrank1 Hrank2].
    set (r2 := aggregated request_id s1 r) in *.
    assert (Hr2 : find_request request_id s2 = Some r2).
    { unfold find_request in *.
      now rewrite Hreqs2, find_request_aggregated, Hr. }
    assert (Hcount2 : forall test, count_items request_id test s2
                                   = count_items request_id test s1).
    { intros test. unfold count_items, batch_items. now rewrite Hprods2. }
    assert (Hother : forall q, In q rest ->
               find_product (Product.id q) s2 = find_product (Product.id q) s).
    { intros q Hq. unfold find_product. rewrite Hprods2, Hprods1.
      apply find_product_other; [exact Hfid|].
      intros Heq. apply Hnotin. rewrite <- Heq. now apply in_map. }
    destruct (IH s2 r2 Hr2 Hnodup') as (s' & Hrun & Hadv & Hcalls & Hfwd).
    { intros q Hq. rewrite (Hother q Hq). apply Hitems. now right. }
    assert (Hadv2 : advances (progress request_id) s2 s').
    { apply Hadv.
      - unfold terminal_count. rewrite Hcount2.
        unfold r2. rewrite aggregated_processed. reflexivity.
      - intros H2. unfold terminal_count, total_count. rewrite !Hcount2.
        now apply Hrank2. }
    exists s'. split; [exact Hrun|].
    assert (Hsnap1 : snap s1 = (requests s, products s1)).
    { unfold snap. now rewrite Hreqs1. }
    split; [|split].
    + (* the batch progresses *)
      intros Hproc Hterm.
      apply advances_trans with s2;
        [apply progress_trans| |exact Hadv2].
      apply advances_trans with s1; [apply progress_trans| |].
      * eapply advances_commit2;
          [apply progress_refl|exact Hc1| |];
          apply progress_same_requests; rewrite ?Hsnap1; reflexivity.
      * apply advances_commit; [apply progress_refl|exact Hc2|].
        unfold progress, batch_rank, batch_processed, snap. cbn [fst].
        unfold find_request in Hr, Hr2. rewrite Hreqs1, Hr, Hr2.
        unfold r2 at 2. rewrite aggregated_processed.
        split; [|lia].
        destruct (Nat.eq_dec (rank (Request.status r)) 2) as [E|E].
        { assert (terminal_count request_id s1
                  = total_count request_id s1).
          { pose proof (terminal_count_le_total request_id s1).
            specialize (Hterm E). lia. }
          apply Hrank2 in H. lia. }
        { assert (rank (Request.status r) <= 2)%nat
            by (destruct (Request.status r); cbn; lia).
          lia. }
    + rewrite Hcalls, Hcalls2, Hcalls1. cbn [flat_map].
      rewrite rev_app_distr. cbn [rev app]. now rewrite <- !app_assoc.
    + intros Hranks.
      apply advances_trans with s2;
        [apply forward_trans| |].
      * apply advances_trans with s1; [apply forward_trans| |].
        { eapply advances_commit2; [apply forward_refl|exact Hc1| |].
          - apply forward_update_first
              with (product_id := Product.id p)
                   (f := Product.with_status PROCESSING);
              [reflexivity|reflexivity|].
            intros x Hx. cbn.
            apply (Hranks p x (or_introl eq_refl)). exact Hx.
          - apply forward_update_both
              with (product_id := Product.id p)
                   (g := Product.with_status PROCESSING) (f := f)
                   (l := products s);
              [reflexivity|exact Hfid|reflexivity|exact Hprods1|].
            intros x _. cbn.
            specialize (Hfterm x).
            destruct (Product.status (f x)); cbn in *; try discriminate;
              lia. }
        { apply advances_commit; [apply forward_refl|exact Hc2|].
          apply forward_same_items. exact Hprods2. }
      * apply Hfwd. intros q q' Hq Hfind.
        rewrite (Hother q Hq) in Hfind.
        apply (Hranks q q' (or_intror Hq) Hfind).
Qed.

End Loop.

(** ** The whole run on a reliable database *)

Lemma NoDup_map_filter (A B : Type) (f : A -> B) (keep : A -> bool)
  (l : list A) :
  NoDup (map f l) -> NoDup (map f (filter keep l)).
Proof.
  induction l as [|x l IH]; cbn; [trivial|].
  intros H. apply NoDup_cons_iff in H. destruct H as [Hnotin Hnodup].
  destruct (keep x); cbn; [|now apply IH].
  constructor; [|now apply IH].
  intros Hin. apply Hnotin. apply in_map_iff in Hin.
  destruct Hin as (y & Hy & Hin). apply filter_In in Hin.
  apply in_map_iff. exists y. now split.
Qed.

Lemma find_by_id_NoDup (l : list Product.t) (q : Product.t) :
  NoDup (map Product.id l) -> In q l ->
  find (product_has_id (Product.id q)) l = Some q.
Proof.
  induction l as [|x l IH]; cbn; [contradiction|].
  intros H Hin. apply NoDup_cons_iff in H. destruct H as [Hnotin Hnodup].
  unfold product_has_id at 1.
  destruct (Z.eqb_spec (Product.id x) (Product.id q)) as [Heq|Hne].
  - destruct Hin as [->|Hin]; [reflexivity|].
    exfalso. apply Hnotin. rewrite Heq. now apply in_map.
  - destruct Hin as [->|Hin]; [congruence|now apply IH].
Qed.

Lemma firstn_new (A : Type) (new old : list A) :
  firstn (List.length (new ++ old) - List.length old) (new ++ old) = new.
Proof.
  rewrite length_app, Nat.add_sub.
  rewrite firstn_app, firstn_all, Nat.sub_diag. cbn. apply app_nil_r.
Qed.

Section Run.

Variable env : Env.
Hypothesis Hrel : reliable env.

Lemma _process_images_reliable (request_id : string) (s : State)
  (r : Request.t) :
  find_request request_id s = Some r ->
  NoDup (map Product.id (products s)) ->
  exists s',
    _process_images env request_id s = Ret (success_result request_id) s' /\
    calls s'
    = (rev (expected_calls request_id (batch_items request_id s))
       ++ calls s)%list /\
    ((Request.processed_products r <= terminal_count request_id s)%Z ->
     advances (progress request_id) (started request_id s) s') /\
    ((forall p, In p (batch_items request_id s) ->
                is_terminal (Product.status p) = false) ->
     advances forward s s').
Proof.
  intros Hr Hnodup.
  assert (Hr0 : find_request request_id (started request_id s)
                = Some (Request.with_status PROCESSING r)).
  { now rewrite find_request_started, Hr. }
  destruct (@process_products_reliable env Hrel request_id
              (batch_items request_id s) (started request_id s) _ Hr0)
    as (s1 & Hloop & Hprog & Hcalls & Hfwd).
  { now apply NoDup_map_filter. }
  { intros q Hq. exists q. unfold batch_items in Hq.
    apply filter_In in Hq. destruct Hq as [Hin Hreq]. split.
    - unfold find_product. cbn. now apply find_by_id_NoDup.
    - unfold product_of_request in Hreq. now apply String.eqb_eq. }
  destruct (trigger_webhook_if_needed_reliable request_id s1 Hrel)
    as (a & s2 & Htrig & Hprods2 & Hcalls2 & Hcases).
  exists (set_closed s2). split; [|split; [|split]].
  - unfold _process_images, try_finally, try_except.
    rewrite (_process_images_try_reliable Hrel _ _ Hr).
    unfold bind. now rewrite Hloop, Htrig.
  - cbn. rewrite Hcalls2, Hcalls. unfold expected_calls.
    rewrite rev_app_distr. reflexivity.
  - intros Hproc.
    apply advances_trans with s1;
      [apply progress_trans|apply Hprog; [exact Hproc|discriminate]|].
    destruct Hcases as [(Hreqs & Hc)|(Hreqs & Hc)].
    + apply advances_quiet; [exact Hc|].
      apply progress_same_requests. exact Hreqs.
    + apply advances_commit; [apply progress_refl|exact Hc|].
      apply progress_flag. exact Hreqs.
  - intros Hfresh.
    apply advances_trans with (started request_id s);
      [apply forward_trans| |].
    { apply advances_commit; [apply forward_refl|reflexivity|].
      now apply forward_same_items. }
    apply advances_trans with s1; [apply forward_trans| |].
    { apply Hfwd. intros q q' Hq Hfind.
      unfold batch_items in Hq. pose proof Hq as Hq'.
      apply filter_In in Hq'. destruct Hq' as [Hin _].
      unfold find_product in Hfind. cbn in Hfind.
      rewrite (find_by_id_NoDup _ _ Hnodup Hin) in Hfind.
      injection Hfind as <-. specialize (Hfresh q Hq).
      destruct (Product.status q); cbn in *; try discriminate; lia. }
    destruct Hcases as [(_ & Hc)|(_ & Hc)].
    + apply advances_quiet; [exact Hc|].
      now apply forward_same_items.
    + apply advances_commit; [apply forward_refl|exact Hc|].
      now apply forward_same_items.
Qed.

End Run.

Lemma run_history_new (s s' : State) (new : list Snapshot) :
  committed s' = (new ++ committed s)%list -> run_history s s' = rev new.
Proof. intros H. unfold run_history. now rewrite H, firstn_new. Qed.


Lemma chain_In (le : Snapshot -> Snapshot -> Prop) :
  (forall a b c, le a b -> le b c -> le a c) ->
  forall (l : list Snapshot) (a c : Snapshot),
    chain le a l -> In c l -> le a c.
Proof.
  intros Htrans. induction l as [|b l IH]; intros a c Hchain Hin;
    [contradiction|].
  cbn in Hchain. destruct Hchain as [Hab Hrest].
  destruct Hin as [<-|Hin]; [exact Hab|].
  eapply Htrans; [exact Hab|]. now apply IH.
Qed.

(** ** The turns of the driver's loop *)

Lemma status_progress_refl (request_id : string) (c : Snapshot) :
  status_progress request_id c c.
Proof. unfold status_progress. lia. Qed.

Lemma status_progress_trans (request_id : string) (a b c : Snapshot) :
  status_progress request_id a b -> status_progress request_id b c ->
  status_progress request_id a c.
Proof. unfold status_progress. lia. Qed.

Lemma status_progress_same_requests (request_id : string)
  (c c' : Snapshot) :
  fst c' = fst c -> status_progress request_id c c'.
Proof. intros H. unfold status_progress, batch_rank. rewrite H. lia. Qed.

Lemma status_progress_flag (request_id : string) (c c' : Snapshot) :
  fst c' = update_first (request_has_id request_id)
                        (Request.with_webhook_triggered 1) (fst c) ->
  status_progress request_id c c'.
Proof.
  intros H. unfold status_progress, batch_rank. rewrite H.
  rewrite find_update_first by (apply request_has_id_keeps; reflexivity).
  destruct (find (request_has_id request_id) (fst c)); cbn; lia.
Qed.

(** Updating the row with the key of [p] in a list that holds [p] once. *)
Lemma update_first_split (f : Product.t -> Product.t) (p : Product.t)
  (pre rest : list Product.t) :
  NoDup (map Product.id (pre ++ p :: rest)) ->
  update_first (product_has_id (Product.id p)) f (pre ++ p :: rest)
  = (pre ++ f p :: rest)%list.
Proof.
  induction pre as [|x pre IH]; cbn; intros Hnodup.
  - unfold product_has_id. now rewrite Z.eqb_refl.
  - apply NoDup_cons_iff in Hnodup. destruct Hnodup as [Hnotin Hnodup].
    unfold product_has_id at 1.
    destruct (Z.eqb_spec (Product.id x) (Product.id p)) as [Heq|Hne].
    + exfalso. apply Hnotin. rewrite Heq, map_app. apply in_or_app.
      right. now left.
    + f_equal. now apply IH.
Qed.

(** The rows of a batch after the row of one of its items was updated. *)
Lemma filter_update_first_item (keep : Product.t -> bool)
  (f : Product.t -> Product.t) (p : Product.t) (l : list Product.t) :
  NoDup (map Product.id l) -> In p l -> keep p = true ->
  (forall x, keep (f x) = keep x) ->
  filter keep (update_first (product_has_id (Product.id p)) f l)
  = update_first (product_has_id (Product.id p)) f (filter keep l).
Proof.
  intros Hnodup Hin Hkeep Hf.
  induction l as [|x l IH]; cbn; [reflexivity|].
  cbn in Hnodup. apply NoDup_cons_iff in Hnodup.
  destruct Hnodup as [Hnotin Hnodup].
  destruct (product_has_id (Product.id p) x) eqn:E.
  - assert (x = p) as ->.
    { destruct Hin as [Hx|Hin]; [exact Hx|]. exfalso. apply Hnotin.
      unfold product_has_id in E. apply Z.eqb_eq in E. rewrite E.
      now apply in_map. }
    cbn. rewrite Hf, Hkeep. cbn. now rewrite E.
  - assert (Hin' : In p l).
    { destruct Hin as [->|Hin]; [|exact Hin].
      unfold product_has_id in E. now rewrite Z.eqb_refl in E. }
    cbn. destruct (keep x); cbn; rewrite ?E, IH; auto.
Qed.

Lemma terminal_items_app (l1 l2 : list Product.t) :
  terminal_items (l1 ++ l2) = (terminal_items l1 + terminal_items l2)%Z.
Proof.
  unfold terminal_items. rewrite filter_app, length_app. lia.
Qed.

Lemma terminal_items_cons (x : Product.t) (l : list Product.t) :
  terminal_items (x :: l)
  = ((if is_terminal (Product.status x) then 1 else 0)
     + terminal_items l)%Z.
Proof.
  unfold terminal_items. cbn [filter].
  destruct (is_terminal (Product.status x)); cbn [List.length]; lia.
Qed.

Lemma terminal_items_all (l : list Product.t) :
  Forall (fun q => is_terminal (Product.status q) = true) l ->
  terminal_items l = Z.of_nat (List.length l).
Proof.
  intros H. unfold terminal_items. rewrite filter_all; [reflexivity|].
  now apply Forall_forall.
Qed.



Section Turns.

Variable env : Env.
Hypothesis Hrel : reliable env.
Variable request_id : string.

(** The loop of the driver, turn by turn: the commits of every turn, and
    the processed count that the aggregation step of a turn commits, when
    the rows of the batch that come before the items of the loop are
    terminal. *)
Lemma process_products_turns (ps : list Product.t) :
  forall (pre : list Product.t) (s : State) (r : Request.t),
    find_request request_id s = Some r ->
    NoDup (map Product.id (products s)) ->
    batch_items request_id s = (pre ++ ps)%list ->
    Forall (fun q => is_terminal (Product.status q) = true) pre ->
    exists s' turns,
      process_products env request_id ps s = Ret tt s' /\
      committed s'
      = (rev (flat_map turn_commits turns) ++ committed s)%list /\
      Forall2 turn_of ps turns /\
      (forall k t,
          nth_error turns k = Some t ->
          batch_processed request_id (turn_aggregated t)
          = (Z.of_nat (List.length pre + S k)
             + terminal_items (skipn (S k) ps))%Z).
Proof.
  induction ps as [|p rest IH]; intros pre s r Hr Hnodup Hbatch Hpre.
  - exists s, []. cbn. split; [reflexivity|]. split; [reflexivity|].
    split; [constructor|]. intros [|k] t H; discriminate H.
  - assert (Hin : In p (products s)).
    { assert (H : In p (batch_items request_id s))
        by (rewrite Hbatch; apply in_or_app; right; now left).
      unfold batch_items in H. apply filter_In in H. tauto. }
    assert (Hreq : product_of_request request_id p = true).
    { assert (H : In p (batch_items request_id s))
        by (rewrite Hbatch; apply in_or_app; right; now left).
      unfold batch_items in H. apply filter_In in H. tauto. }
    assert (Hp : find_product (Product.id p) s = Some p)
      by (unfold find_product; now apply find_by_id_NoDup).
    destruct (turn_reliable Hrel request_id (Product.id p) s Hp Hr)
      as (b & s1 & s2 & f & Hrun1 & Hrun2 & Hfid & Hfreq & Hfterm & Hprods1
          & Hreqs1 & Hc1 & Hcalls1 & Hprods2 & Hreqs2 & Hc2 & Hcalls2).
    cbn [process_products]. unfold bind. rewrite Hrun1, Hrun2.
    assert (Hbatch1 : batch_items request_id s1
                      = (pre ++ f p :: rest)%list).
    { unfold batch_items. rewrite Hprods1.
      rewrite filter_update_first_item; try assumption.
      - fold (batch_items request_id s). rewrite Hbatch.
        apply update_first_split. rewrite <- Hbatch.
        unfold batch_items. now apply NoDup_map_filter.
      - intros x. unfold product_of_request. now rewrite Hfreq. }
    assert (Hr2 : find_request request_id s2
                  = Some (aggregated request_id s1 r)).
    { unfold find_request in *.
      now rewrite Hreqs2, find_request_aggregated, Hr. }
    assert (Hcount : terminal_count request_id s1
                     = (Z.of_nat (List.length pre + 1)
                        + terminal_items rest)%Z).
    { unfold terminal_count, count_items. rewrite Hbatch1.
      fold (terminal_items (pre ++ f p :: rest)).
      rewrite terminal_items_app, (terminal_items_all Hpre).
      rewrite terminal_items_cons, Hfterm, Nat2Z.inj_add. lia. }
    destruct (IH (pre ++ [f p])%list s2 _ Hr2)
      as (s' & turns & Hrun & Hc & Hall & Hcounts).
    { rewrite Hprods2, Hprods1. now rewrite map_update_first. }
    { unfold batch_items. rewrite Hprods2.
      fold (batch_items request_id s1). rewrite Hbatch1.
      now rewrite <- app_assoc. }
    { apply Forall_app. split; [exact Hpre|].
      constructor; [apply Hfterm|constructor]. }
    set (t0 := mkTurn
                 (requests s,
                  update_first (product_has_id (Product.id p))
                               (Product.with_status PROCESSING) (products s))
                 (snap s1) (snap s2)).
    exists s', (t0 :: turns). split; [exact Hrun|]. split; [|split].
    + rewrite Hc, Hc2, Hc1. cbn [flat_map].
      rewrite rev_app_distr, <- app_assoc. reflexivity.
    + constructor; [|exact Hall].
      unfold turn_of, t0, item_status, snap. cbn.
      unfold find_product in Hp.
      split.
      { rewrite find_update_first
          by (apply product_has_id_keeps; reflexivity).
        rewrite Hp. reflexivity. }
      split; [now rewrite Hreqs1|]. split; [now rewrite Hprods2|].
      exists (Product.status (f p)). split; [apply Hfterm|].
      rewrite Hprods1, find_update_first
        by (apply product_has_id_keeps; exact Hfid).
      rewrite Hp. reflexivity.
    + intros [|k] t Hk; cbn in Hk.
      * injection Hk as <-. unfold t0. cbn [turn_aggregated].
        unfold batch_processed, snap. cbn [fst].
        unfold find_request in Hr2. rewrite Hr2.
        rewrite aggregated_processed, Hcount. cbn [skipn]. reflexivity.
      * rewrite (Hcounts k t Hk). rewrite length_app. cbn [List.length skipn].
        lia.
Qed.

(** Through the loop, the status of the batch never goes back, once it
    is terminal only if every item is. *)
Lemma process_products_status (ps : list Product.t) :
  forall (s : State) (r : Request.t),
    find_request request_id s = Some r ->
    NoDup (map Product.id ps) ->
    (forall q, In q ps ->
       exists q', find_product (Product.id q) s = Some q' /\
                  Product.request_id q' = request_id) ->
    (rank (Request.status r) = 2%nat ->
     terminal_count request_id s = total_count request_id s) ->
    exists s',
      process_products env request_id ps s = Ret tt s' /\
      advances (status_progress request_id) s s'.
Proof.
  induction ps as [|p rest IH]; intros s r Hr Hnodup Hitems Hterm.
  - exists s. cbn. split; [reflexivity|].
    apply advances_refl, status_progress_refl.
  - destruct (Hitems p (or_introl eq_refl)) as (p0 & Hp0 & Hreq0).
    destruct (turn_reliable Hrel request_id (Product.id p) s Hp0 Hr)
      as (b & s1 & s2 & f & Hrun1 & Hrun2 & Hfid & Hfreq & Hfterm & Hprods1
          & Hreqs1 & Hc1 & Hcalls1 & Hprods2 & Hreqs2 & Hc2 & Hcalls2).
    cbn [process_products]. unfold bind. rewrite Hrun1, Hrun2.
    cbn [map] in Hnodup. apply NoDup_cons_iff in Hnodup.
    destruct Hnodup as [Hnotin Hnodup'].
    pose proof (total_count_turn request_id _ _ Hfreq _ _ Hprods1) as HT.
    pose proof (terminal_count_turn request_id _ _ Hfreq Hfterm _ _ Hprods1)
      as HP.
    pose proof (terminal_count_turn_pos _ _ Hfreq Hfterm _ _ Hprods1
                  Hfid Hp0 Hreq0) as Hpos.
    destruct (rank_aggregated request_id s1 r Hpos) as [Hrank1 Hrank2].
    set (r2 := aggregated request_id s1 r) in *.
    assert (Hr2 : find_request request_id s2 = Some r2).
    { unfold find_request in *.
      now rewrite Hreqs2, find_request_aggregated, Hr. }
    assert (Hcount2 : forall test, count_items request_id test s2
                                   = count_items request_id test s1).
    { intros test. unfold count_items, batch_items. now rewrite Hprods2. }
    assert (Hother : forall q, In q rest ->
               find_product (Product.id q) s2 = find_product (Product.id q) s).
    { intros q Hq. unfold find_product. rewrite Hprods2, Hprods1.
      apply find_product_other; [exact Hfid|].
      intros Heq. apply Hnotin. rewrite <- Heq. now apply in_map. }
    destruct (IH s2 r2 Hr2 Hnodup') as (s' & Hrun & Hadv).
    { intros q Hq. rewrite (Hother q Hq). apply Hitems. now right. }
    { intros H2. unfold terminal_count, total_count. rewrite !Hcount2.
      now apply Hrank2. }
    exists s'. split; [exact Hrun|].
    assert (Hsnap1 : snap s1 = (requests s, products s1)).
    { unfold snap. now rewrite Hreqs1. }
    apply advances_trans with s2;
      [apply status_progress_trans| |exact Hadv].
    apply advances_trans with s1; [apply status_progress_trans| |].
    + eapply advances_commit2;
        [apply status_progress_refl|exact Hc1| |];
        apply status_progress_same_requests; rewrite ?Hsnap1; reflexivity.
    + apply advances_commit; [apply status_progress_refl|exact Hc2|].
      unfold status_progress, batch_rank, snap. cbn [fst].
      unfold find_request in Hr, Hr2. rewrite Hreqs1, Hr, Hr2.
      destruct (Nat.eq_dec (rank (Request.status r)) 2) as [E|E].
      * assert (terminal_count request_id s1
                = total_count request_id s1).
        { pose proof (terminal_count_le_total request_id s1).
          specialize (Hterm E). lia. }
        apply Hrank2 in H. lia.
      * assert (rank (Request.status r) <= 2)%nat
          by (destruct (Request.status r); cbn; lia).
        lia.
Qed.

(** A run, turn by turn. *)
Lemma _process_images_turns (s : State) (r : Request.t) :
  find_request request_id s = Some r ->
  NoDup (map Product.id (products s)) ->
  exists s' turns tail,
    _process_images env request_id s = Ret (success_result request_id) s' /\
    run_history s s'
    = snap (started request_id s)
      :: (flat_map turn_commits turns ++ tail)%list /\
    (tail = [] \/ tail = [snap s']) /\
    Forall2 turn_of (batch_items request_id s) turns /\
    (forall k t,
        nth_error turns k = Some t ->
        batch_processed request_id (turn_aggregated t)
        = (Z.of_nat (S k)
           + terminal_items (skipn (S k) (batch_items request_id s)))%Z) /\
    chain (status_progress request_id) (snap (started request_id s))
          (flat_map turn_commits turns ++ tail).
Proof.
  intros Hr Hnodup.
  assert (Hr0 : find_request request_id (started request_id s)
                = Some (Request.with_status PROCESSING r)).
  { now rewrite find_request_started, Hr. }
  destruct (@process_products_turns (batch_items request_id s) []
              (started request_id s) _ Hr0 Hnodup eq_refl (Forall_nil _))
    as (s1 & turns & Hloop & Hc & Hall & Hcounts).
  destruct (@process_products_status (batch_items request_id s)
              (started request_id s) _ Hr0)
    as (s1' & Hloop' & Hadv).
  { unfold batch_items. now apply NoDup_map_filter. }
  { intros q Hq. exists q. unfold batch_items in Hq.
    apply filter_In in Hq. destruct Hq as [Hin Hreq]. split.
    - unfold find_product. cbn. now apply find_by_id_NoDup.
    - unfold product_of_request in Hreq. now apply String.eqb_eq. }
  { cbn. discriminate. }
  rewrite Hloop in Hloop'. injection Hloop' as <-.
  destruct Hadv as (new & Hnew & Hchain).
  assert (new = rev (flat_map turn_commits turns)) as ->.
  { rewrite Hc in Hnew. now apply app_inv_tail in Hnew. }
  rewrite rev_involutive in Hchain.
  destruct (trigger_webhook_if_needed_reliable request_id s1 Hrel)
    as (a & s2 & Htrig & Hprods2 & _ & Hcases).
  assert (Hrun : _process_images env request_id s
                 = Ret (success_result request_id) (set_closed s2)).
  { unfold _process_images, try_finally, try_except.
    rewrite (_process_images_try_reliable Hrel _ _ Hr).
    unfold bind. now rewrite Hloop, Htrig. }
  assert (Hstart : committed (started request_id s)
                   = snap (started request_id s) :: committed s)
    by reflexivity.
  destruct Hcases as [(Hreqs & Hc2)|(Hreqs & Hc2)].
  - exists (set_closed s2), turns, []. split; [exact Hrun|].
    split; [|split; [now left|split; [exact Hall|split; [exact Hcounts|]]]].
    + assert (Hh : committed (set_closed s2)
                   = ((rev (flat_map turn_commits turns)
                       ++ [snap (started request_id s)])
                      ++ committed s)%list).
      { cbn [committed set_closed]. rewrite Hc2, Hc, Hstart.
        now rewrite <- app_assoc. }
      rewrite (run_history_new _ _ _ Hh).
      rewrite rev_app_distr, rev_involutive, app_nil_r. reflexivity.
    + rewrite app_nil_r.
      apply chain_app_l with (l2 := [snap s1]). exact Hchain.
  - exists (set_closed s2), turns, [snap (set_closed s2)].
    split; [exact Hrun|].
    split; [|split; [now right|split; [exact Hall|split; [exact Hcounts|]]]].
    + assert (Hh : committed (set_closed s2)
                   = ((snap s2 :: rev (flat_map turn_commits turns)
                       ++ [snap (started request_id s)])
                      ++ committed s)%list).
      { cbn [committed set_closed]. rewrite Hc2, Hc, Hstart.
        cbn [app]. f_equal. now rewrite <- app_assoc. }
      rewrite (run_history_new _ _ _ Hh). cbn [rev].
      rewrite rev_app_distr, rev_involutive. cbn [rev app].
      reflexivity.
    + apply chain_drop with (b := snap s1);
        [apply status_progress_trans|].
      apply chain_app; [exact Hchain|]. cbn. split; [|exact I].
      apply status_progress_flag. exact Hreqs.
Qed.

End Turns.

(** ** Item statuses over a run *)

(** C5, as the specification states it, fails when the task is run again
    on a batch whose item is already [completed]: the item processor
    first commits the item as [processing]. *)
Lemma _process_images_rerun_moves_back :
  ~ chain forward (snap notified_batch)
      (run_history notified_batch
         (final (_process_images demo_env "r1" notified_batch))).
Proof.
  remember (run_history notified_batch
              (final (_process_images demo_env "r1" notified_batch)))
    as h eqn:Hh.
  vm_compute in Hh. subst h. cbn [chain].
  intros (_ & Hback & _). specialize (Hback 1%Z).
  vm_compute in Hback. lia.
Qed.

(** C5, amended: on a reliable database, from the state before a run
    through every commit of the run, the status of every item only moves
    forward along [pending -> processing -> {completed, failed}] exactly
    when no item of the batch is terminal before the run. For every item
    of the batch, whatever its status before the run, the item processor
    commits it as [processing] and, in its next commit, as terminal: an
    item that is already terminal when the task is run again is first
    moved back to [processing] before it becomes terminal again. *)
Theorem _process_images_items_forward (env : Env) (request_id : string)
  (s : State) (r : Request.t) :
  reliable env ->
  find_request request_id s = Some r ->
  NoDup (map Product.id (products s)) ->
  exists s',
    _process_images env request_id s = Ret (success_result request_id) s' /\
    (chain forward (snap s) (run_history s s') <->
     forall p, In p (batch_items request_id s) ->
               is_terminal (Product.status p) = false) /\
    (forall p, In p (batch_items request_id s) ->
       exists before c d after,
         run_history s s' = (before ++ c :: d :: after)%list /\
         item_status (Product.id p) c = Some PROCESSING /\
         exists v, is_terminal v = true /\
                   item_status (Product.id p) d = Some v).
Proof.
  intros Hrel Hr Hnodup.
  destruct (_process_images_reliable Hrel request_id s Hr Hnodup)
    as (s' & Hrun & _ & _ & Hfwd).
  destruct (_process_images_turns Hrel request_id s Hr Hnodup)
    as (s'' & turns & tail & Hrun' & Hhist & _ & Hall & _).
  rewrite Hrun in Hrun'. injection Hrun' as <-.
  assert (Hturn : forall p, In p (batch_items request_id s) ->
            exists before c d after,
              run_history s s' = (before ++ c :: d :: after)%list /\
              item_status (Product.id p) c = Some PROCESSING /\
              exists v, is_terminal v = true /\
                        item_status (Product.id p) d = Some v).
  { intros p Hp. apply In_nth_error in Hp. destruct Hp as (i & Hi).
    destruct (Forall2_nth_error_l Hall i Hi) as (t & Ht & Hpt & _ & _ & Hv).
    apply nth_error_split in Ht. destruct Ht as (l1 & l2 & -> & _).
    exists (snap (started request_id s) :: flat_map turn_commits l1),
           (turn_processing t), (turn_done t),
           (turn_aggregated t :: flat_map turn_commits l2 ++ tail)%list.
    split; [|split; [exact Hpt|exact Hv]].
    rewrite Hhist, flat_map_app. cbn [flat_map turn_commits app].
    rewrite <- !app_assoc. reflexivity. }
  exists s'. split; [exact Hrun|]. split; [split|exact Hturn].
  - intros Hchain p Hp.
    destruct (is_terminal (Product.status p)) eqn:Hterm; [exfalso|reflexivity].
    destruct (Hturn p Hp) as (before & c & d & after & Hh & Hc & _).
    assert (Hle : forward (snap s) c).
    { apply (@chain_In forward forward_trans _ _ _ Hchain). rewrite Hh.
      apply in_or_app. right. now left. }
    specialize (Hle (Product.id p)). unfold item_rank in Hle.
    unfold item_status in Hc.
    destruct (find (product_has_id (Product.id p)) (snd c)) as [x|];
      [|discriminate].
    cbn in Hc. injection Hc as Hc. rewrite Hc in Hle.
    unfold batch_items in Hp. apply filter_In in Hp. destruct Hp as [Hin _].
    cbn [snap snd] in Hle. rewrite (find_by_id_NoDup _ _ Hnodup Hin) in Hle.
    destruct (Product.status p); cbn in *; try discriminate; lia.
  - intros Hfresh. apply advances_run_history. now apply Hfwd.
Qed.

Lemma two_item_batch_keys : NoDup (map Product.id (products two_item_batch)).
Proof.
  cbn. constructor; [intros [H|[]]; discriminate H|].
  constructor; [intros []|constructor].
Defined.

Lemma _process_images_items_forward_witness :
  exists s',
    _process_images demo_env "r1" two_item_batch
    = Ret (success_result "r1") s' /\
    chain forward (snap two_item_batch) (run_history two_item_batch s').
Proof.
  destruct (@_process_images_items_forward demo_env "r1" two_item_batch
              (demo_request PENDING 2 0 0) (fun _ => eq_refl) eq_refl
              two_item_batch_keys)
    as (s' & Hrun & Hiff & _).
  exists s'. split; [exact Hrun|]. apply Hiff.
  intros p [<-|[<-|[]]]; reflexivity.
Defined.

(** ** Order and progress of a run *)




(** ** The two scenarios of the specification, run on the model *)

(** Two rows; the first reference of row 1 cannot be fetched. Both items
    end [completed], the batch ends [completed] with two processed items,
    and one callback with a completion of 100 percent is delivered. *)
Example scenario_two_rows :
  let s' := final (_process_images demo_env "r1" two_item_batch) in
  map (fun p => (Product.status p, Product.get_output_urls p)) (products s')
  = [(COMPLETED,
      [""; "http://localhost:8000/api/image/9f1c2e7a-0000-4000-8000-0.jpg"]);
     (COMPLETED,
      ["http://localhost:8000/api/image/9f1c2e7a-0000-4000-8000-1.jpg"])] /\
  request_status "r1" s' = Some COMPLETED /\
  request_processed "r1" s' = Some 2%Z /\
  map (fun '(url, payload, ok) =>
         (url, Qeq_bool (pl_completion_percentage payload) (inject_Z 100), ok))
      (posts s')
  = [("http://hooks.example/done", true, true)] /\
  notified "r1" s' = true.
Proof. vm_compute. repeat split; reflexivity. Qed.

(** One row whose single reference cannot be fetched: the item ends
    [completed] with the placeholder as its only output, and the batch
    ends [completed]. *)
Example scenario_single_failing_reference :
  let s' := final (_process_images demo_env "r1"
                     (single_item_batch "http://broken.example/x.png")) in
  map (fun p => (Product.status p, Product.get_output_urls p)) (products s')
  = [(COMPLETED, [""])] /\
  request_status "r1" s' = Some COMPLETED.
Proof. vm_compute. repeat split; reflexivity. Qed.

(** * Further properties of the code *)

(** ** Splitting and joining *)

Lemma split_on_nonempty (sep : ascii) (s : string) : split_on sep s <> [].
Proof.
  induction s as [|c s IH]; cbn; [discriminate|].
  destruct (Ascii.eqb c sep); [discriminate|].
  destruct (split_on sep s); [contradiction|discriminate].
Qed.

Lemma join_cons (sep x : string) (y : string) (ys : list string) :
  join sep (x :: y :: ys) = x ++ sep ++ join sep (y :: ys).
Proof. reflexivity. Qed.

Lemma join_String_hd (sep : string) (c : ascii) (y : string)
  (ys : list string) :
  join sep (String c y :: ys) = String c (join sep (y :: ys)).
Proof. destruct ys; reflexivity. Qed.

(** Joining the parts of a split gives the string back. *)
Lemma join_split_on (sep : ascii) (s : string) :
  join (String sep "") (split_on sep s) = s.
Proof.
  induction s as [|c s IH]; [reflexivity|]. cbn [split_on].
  destruct (Ascii.eqb_spec c sep) as [->|Hne].
  - pose proof (split_on_nonempty sep s) as Hne.
    destruct (split_on sep s) as [|y ys]; [contradiction|].
    rewrite join_cons, IH. reflexivity.
  - pose proof (split_on_nonempty sep s) as Hne'.
    destruct (split_on sep s) as [|y ys]; [contradiction|].
    now rewrite join_String_hd, IH.
Qed.

(** No part of a split contains the separator. *)
Lemma split_on_no_sep (sep : ascii) (s : string) :
  Forall (fun part => has_char sep part = false) (split_on sep s).
Proof.
  induction s as [|c s IH]; cbn; [repeat constructor|].
  destruct (Ascii.eqb c sep) eqn:E; [constructor; [reflexivity|exact IH]|].
  destruct (split_on sep s) as [|y ys]; [repeat constructor; cbn; now rewrite E|].
  inversion IH as [|? ? Hy Hys]; subst.
  constructor; [cbn; now rewrite E, Hy|exact Hys].
Qed.

(** Splitting a join of separator-free parts gives the parts back. *)
Lemma split_on_join (sep : ascii) (xs : list string) :
  xs <> [] ->
  Forall (fun part => has_char sep part = false) xs ->
  split_on sep (join (String sep "") xs) = xs.
Proof.
  assert (Hone : forall x, has_char sep x = false -> split_on sep x = [x]).
  { induction x as [|c x IH]; cbn; [reflexivity|].
    intros H. apply orb_false_iff in H. destruct H as [Hc Hx].
    now rewrite Hc, IH. }
  assert (Happ : forall x rest, has_char sep x = false ->
             split_on sep (x ++ String sep rest) = x :: split_on sep rest).
  { induction x as [|c x IH]; intros rest; cbn.
    - now rewrite Ascii.eqb_refl.
    - intros H. apply orb_false_iff in H. destruct H as [Hc Hx].
      now rewrite Hc, IH. }
  induction xs as [|x xs IH]; [contradiction|]. intros _ Hall.
  inversion Hall as [|? ? Hx Hxs]; subst.
  destruct xs as [|y ys]; [cbn; now apply Hone|].
  rewrite join_cons. cbn [append].
  rewrite Happ by exact Hx. f_equal. apply IH; [discriminate|exact Hxs].
Qed.

Lemma split_max_nonempty (sep : ascii) (s : string) (n : nat) :
  split_max sep s n <> [].
Proof.
  revert n. induction s as [|c s IH]; intros [|n]; cbn; try discriminate.
  destruct (Ascii.eqb c sep); [discriminate|].
  specialize (IH (S n)).
  destruct (split_max sep s (S n)); [contradiction|discriminate].
Qed.

(** Joining the parts of a bounded split gives the string back. *)
Lemma join_split_max (sep : ascii) (s : string) (n : nat) :
  join (String sep "") (split_max sep s n) = s.
Proof.
  revert n. induction s as [|c s IH]; intros [|n]; try reflexivity.
  cbn [split_max].
  destruct (Ascii.eqb_spec c sep) as [->|Hne].
  - pose proof (split_max_nonempty sep s n) as Hn. specialize (IH n).
    destruct (split_max sep s n) as [|y ys]; [contradiction|].
    rewrite join_cons, IH. reflexivity.
  - pose proof (split_max_nonempty sep s (S n)) as Hn. specialize (IH (S n)).
    destruct (split_max sep s (S n)) as [|y ys]; [contradiction|].
    now rewrite join_String_hd, IH.
Qed.

(** Of a split into three parts, the first two are free of the
    separator. *)
Lemma split_max_2_parts (sep : ascii) (s a b c : string) :
  split_max sep s 2 = [a; b; c] ->
  has_char sep a = false /\ has_char sep b = false /\
  s = a ++ String sep (b ++ String sep c).
Proof.
  intros H. split; [|split].
  - revert a b c H. induction s as [|d s IH]; intros a b c H; cbn in H;
      [discriminate|].
    destruct (Ascii.eqb d sep) eqn:E.
    + now injection H as <- _.
    + destruct (split_max sep s 2) as [|y ys] eqn:Ey; [discriminate|].
      injection H as <- ->. cbn. rewrite E. now apply (IH y b c).
  - assert (H1 : forall t x y, split_max sep t 1 = [x; y] ->
                               has_char sep x = false).
    { induction t as [|d t IH]; intros x y Ht; cbn in Ht; [discriminate|].
      destruct (Ascii.eqb d sep) eqn:E.
      - now injection Ht as <- _.
      - destruct (split_max sep t 1) as [|u us] eqn:Eu; [discriminate|].
        injection Ht as <- ->. cbn. rewrite E. now apply (IH u y). }
    revert a b c H. induction s as [|d s IH]; intros a b c H; cbn in H;
      [discriminate|].
    destruct (Ascii.eqb d sep) eqn:E.
    + injection H as _ Hrest. now apply (H1 s b c).
    + destruct (split_max sep s 2) as [|y ys] eqn:Ey; [discriminate|].
      injection H as _ ->. now apply (IH y b c).
  - pose proof (join_split_max sep s 2) as Hj. rewrite H in Hj.
    rewrite <- Hj. reflexivity.
Qed.

(** ** Validation of a manifest *)

Lemma truthy_str_false (x : string) : truthy_str x = false <-> x = "".
Proof. destruct x; cbn; split; congruence. Qed.

Lemma validate_line_accepts (idx : Z) (line : string) (row : CsvRow) :
  validate_line idx line = inr row -> row_of_line line row.
Proof.
  unfold validate_line.
  destruct (split_max ","%char (strip line) 2) as [|a [|b [|c [|d l]]]] eqn:E;
    try discriminate.
  destruct (truthy_str a) eqn:Ha; [|discriminate].
  destruct (truthy_str b) eqn:Hb; [|discriminate].
  destruct (truthy_str c) eqn:Hc; [|discriminate].
  cbn [negb orb].
  destruct (url_list_of c) as [|u us] eqn:Eu; [discriminate|].
  cbn [orb].
  destruct (existsb _ (u :: us)) eqn:Ex; [discriminate|].
  intros H. injection H as <-. unfold row_of_line.
  cbn [col_s_no col_product_name col_input_image_urls].
  destruct (split_max_2_parts _ _ E) as (Hna & Hnb & Hs).
  split; [exact Hs|].
  split; [intros ->; discriminate|].
  split; [intros ->; discriminate|].
  split; [intros ->; discriminate|].
  split; [exact Hna|]. split; [exact Hnb|].
  rewrite Eu. apply Forall_forall. intros url Hin.
  { 
    destruct (String.prefix "http" url) eqn:Hp; [reflexivity|].
    assert (Hex : existsb (fun url => negb (String.prefix "http" url))
                          (u :: us) = true).
    { apply existsb_exists. exists url. split; [exact Hin|].
      now rewrite Hp. }
    congruence. }
Qed.

Lemma validate_lines_accepts (lines : list string) :
  forall idx data rows,
    validate_lines idx lines data = inr rows ->
    exists new, rows = (data ++ new)%list /\ Forall2 row_of_line lines new.
Proof.
  induction lines as [|line rest IH]; intros idx data rows; cbn.
  - intros H. injection H as <-. exists []. split;
      [now rewrite app_nil_r|constructor].
  - destruct (validate_line idx line) as [e|row] eqn:E; [discriminate|].
    intros H. destruct (IH _ _ _ H) as (new & -> & Hall).
    exists (row :: new). split; [now rewrite <- app_assoc|].
    constructor; [exact (validate_line_accepts _ _ E)|exact Hall].
Qed.

Lemma validate_csv_text_inr (text : string) (rows : list CsvRow) :
  validate_csv_text text = inr rows ->
  let header := split_on ","%char (strip (hd "" (text_lines text))) in
  forallb (fun col => str_in col header) required_columns = true /\
  List.length header = 3%nat /\
  validate_lines 1 (tl (text_lines text)) [] = inr rows.
Proof.
  unfold validate_csv_text. cbn zeta.
  destruct (forallb _ required_columns); [|discriminate]. cbn [negb].
  destruct (Nat.eqb_spec
              (List.length (split_on ","%char
                              (strip (hd "" (text_lines text))))) 3)
    as [Hlen|Hlen]; [|discriminate].
  cbn [negb]. now repeat split.
Qed.

Lemma validate_csv_text_rows (text : string) (rows : list CsvRow) :
  validate_csv_text text = inr rows ->
  Forall2 row_of_line (tl (text_lines text)) rows.
Proof.
  intros H. destruct (validate_csv_text_inr _ H) as (_ & _ & Hlines).
  destruct (validate_lines_accepts _ _ _ Hlines) as (new & -> & Hall).
  exact Hall.
Qed.

Lemma Forall2_in_l (A B : Type) (R : A -> B -> Prop)
  (l : list A) (l' : list B) :
  Forall2 R l l' -> forall x, In x l -> exists y, In y l' /\ R x y.
Proof.
  induction 1 as [|a b l l' Hab Hall IH]; intros x Hx; [contradiction|].
  destruct Hx as [<-|Hx].
  - exists b. split; [now left|exact Hab].
  - destruct (IH x Hx) as (y & Hy & Hr). exists y. split; [now right|exact Hr].
Qed.

Lemma split_max_0 (sep : ascii) (s : string) : split_max sep s 0 = [s].
Proof. destruct s; reflexivity. Qed.

Lemma split_max_one (sep : ascii) (b c : string) :
  has_char sep b = false ->
  split_max sep (b ++ String sep c) 1 = [b; c].
Proof.
  induction b as [|d b IH]; cbn [append split_max has_char].
  - intros _. now rewrite Ascii.eqb_refl, split_max_0.
  - intros H. apply orb_false_iff in H. destruct H as [Hd Hb].
    rewrite Hd. now rewrite (IH Hb).
Qed.

Lemma split_max_two (sep : ascii) (a b c : string) :
  has_char sep a = false -> has_char sep b = false ->
  split_max sep (a ++ String sep (b ++ String sep c)) 2 = [a; b; c].
Proof.
  intros Ha Hb. induction a as [|d a IH]; cbn [append split_max].
  - rewrite Ascii.eqb_refl. f_equal. now apply split_max_one.
  - cbn in Ha. apply orb_false_iff in Ha. destruct Ha as [Hd Ha].
    rewrite Hd. now rewrite (IH Ha).
Qed.

Lemma validate_line_complete (idx : Z) (line : string) (row : CsvRow) :
  row_of_line line row -> validate_line idx line = inr row.
Proof.
  destruct row as [a b c]. unfold row_of_line.
  cbn [col_s_no col_product_name col_input_image_urls].
  intros (Hs & Ha & Hb & Hc & Hna & Hnb & Hurls).
  unfold validate_line. rewrite Hs. cbn [append].
  rewrite (@split_max_two ","%char a b c Hna Hnb).
  destruct a as [|a0 a]; [contradiction|].
  destruct b as [|b0 b]; [contradiction|].
  destruct c as [|c0 c]; [contradiction|].
  cbn [truthy_str negb orb].
  destruct (url_list_of (String c0 c)) as [|u us] eqn:Eu.
  { unfold url_list_of in Eu. apply map_eq_nil in Eu.
    destruct (split_on_nonempty _ _ Eu). }
  cbn [orb].
  destruct (existsb (fun url => negb (String.prefix "http" url)) (u :: us))
    eqn:Ex; [|reflexivity].
  apply existsb_exists in Ex. destruct Ex as (url & Hin & Hneg).
  rewrite Forall_forall in Hurls. rewrite (Hurls url Hin) in Hneg.
  discriminate.
Qed.

Lemma validate_lines_complete (lines : list string) :
  forall idx data new,
    Forall2 row_of_line lines new ->
    validate_lines idx lines data = inr (data ++ new)%list.
Proof.
  induction lines as [|line rest IH]; intros idx data new Hall;
    inversion Hall as [|? row ? new' Hrow Hrest]; subst; cbn.
  - now rewrite app_nil_r.
  - rewrite (validate_line_complete idx Hrow).
    rewrite (IH _ _ _ Hrest). now rewrite <- app_assoc.
Qed.

Lemma validate_line_error (idx : Z) (line e : string) :
  validate_line idx line = inl e ->
  e = "Missing data in row " ++ str_int idx \/
  e = "Invalid image URL format in row " ++ str_int idx.
Proof.
  unfold validate_line.
  destruct (split_max ","%char (strip line) 2) as [|a [|b [|c [|d l]]]];
    try (intros H; injection H as <-; now left).
  destruct (negb (truthy_str a) || negb (truthy_str b)
            || negb (truthy_str c))%bool;
    [intros H; injection H as <-; now left|].
  destruct (_ || _)%bool; [|discriminate].
  intros H. injection H as <-. now right.
Qed.

Lemma validate_lines_error (lines : list string) :
  forall idx data e,
    validate_lines idx lines data = inl e ->
    exists good bad rest rows,
      lines = (good ++ bad :: rest)%list /\
      Forall2 row_of_line good rows /\
      validate_line (idx + Z.of_nat (List.length good)) bad = inl e.
Proof.
  induction lines as [|line rest IH]; intros idx data e; cbn;
    [discriminate|].
  destruct (validate_line idx line) as [e'|row] eqn:E.
  - intros H. injection H as ->.
    exists [], line, rest, []. cbn. rewrite Z.add_0_r.
    repeat split; [constructor|exact E].
  - intros H.
    destruct (IH _ _ _ H) as (good & bad & rest' & rows & -> & Hall & Hbad).
    exists (line :: good), bad, rest', (row :: rows). cbn [List.length app].
    split; [reflexivity|]. split.
    + constructor; [exact (validate_line_accepts _ _ E)|exact Hall].
    + rewrite Nat2Z.inj_succ. rewrite <- Hbad. f_equal. lia.
Qed.

Lemma header_accepted (header : list string) :
  (forallb (fun col => str_in col header) required_columns = true /\
   List.length header = 3%nat)
  <-> Permutation header required_columns.
Proof.
  split.
  - intros [Hall Hlen].
    apply Permutation_sym, NoDup_Permutation_bis.
    + repeat constructor; cbn; intuition discriminate.
    + rewrite Hlen. cbn. lia.
    + intros col Hcol. rewrite forallb_forall in Hall.
      specialize (Hall col Hcol). unfold str_in in Hall.
      apply existsb_exists in Hall. destruct Hall as (x & Hx & Heq).
      apply String.eqb_eq in Heq. now subst.
  - intros Hperm. split.
    + apply forallb_forall. intros col Hcol. unfold str_in.
      apply existsb_exists. exists col. split; [|apply String.eqb_refl].
      apply Permutation_in with (l := required_columns);
        [now apply Permutation_sym|exact Hcol].
    + now rewrite (Permutation_length Hperm).
Qed.

(** X1: [validate_csv_format] accepts a file exactly when it can be read, its
    header consists of the three required column names in any order, and
    every line after the header is a row; the DataFrame holds these rows
    in the order of the lines. *)
Theorem validate_csv_format_accepts (read_text : string -> string + string)
  (file_path : string) (rows : list CsvRow) :
  validate_csv_format read_text file_path = inr rows
  <-> exists text,
        read_text file_path = inr text /\
        Permutation (split_on ","%char (strip (hd "" (text_lines text))))
                    required_columns /\
        Forall2 row_of_line (tl (text_lines text)) rows.
Proof.
  unfold validate_csv_format. split.
  - destruct (read_text file_path) as [e|text]; [discriminate|].
    intros H. exists text. split; [reflexivity|].
    destruct (validate_csv_text_inr _ H) as (Hall & Hlen & _).
    split; [now apply header_accepted|now apply validate_csv_text_rows].
  - intros (text & -> & Hperm & Hrows).
    apply header_accepted in Hperm. destruct Hperm as [Hall Hlen].
    unfold validate_csv_text. cbn zeta. rewrite Hall, Hlen. cbn.
    exact (validate_lines_complete 1 [] Hrows).
Qed.

(** X2: a manifest with a blank line after the header, a final empty line
    included, is rejected. *)
Theorem validate_csv_format_blank_line
  (read_text : string -> string + string) (file_path text line : string) :
  read_text file_path = inr text ->
  In line (tl (text_lines text)) ->
  strip line = "" ->
  exists e, validate_csv_format read_text file_path = inl e.
Proof.
  intros Hread Hin Hblank.
  destruct (validate_csv_format read_text file_path) as [e|rows] eqn:E;
    [now exists e|exfalso].
  unfold validate_csv_format in E. rewrite Hread in E.
  pose proof (validate_csv_text_rows _ E) as Hall.
  destruct (Forall2_in_l Hall line Hin) as (row & _ & Hrow & _).
  rewrite Hblank in Hrow. destruct (col_s_no row); discriminate.
Qed.

(** X3: when a readable manifest is rejected, the error is about the header,
    or it names the first line after the header that is not a row, by its
    position counted from 1. *)
Theorem validate_csv_format_error (read_text : string -> string + string)
  (file_path text e : string) :
  read_text file_path = inr text ->
  validate_csv_format read_text file_path = inl e ->
  e = "Missing required columns" \/ e = "Invalid number of columns" \/
  exists good bad rest rows,
    tl (text_lines text) = (good ++ bad :: rest)%list /\
    Forall2 row_of_line good rows /\
    (forall row, ~ row_of_line bad row) /\
    (e = "Missing data in row " ++ str_int (Z.of_nat (List.length good) + 1)
     \/ e = "Invalid image URL format in row "
            ++ str_int (Z.of_nat (List.length good) + 1)).
Proof.
  intros Hread. unfold validate_csv_format. rewrite Hread.
  unfold validate_csv_text. cbn zeta.
  destruct (forallb _ required_columns);
    [|intros H; injection H as <-; now left].
  cbn [negb].
  destruct (Nat.eqb _ 3); [|intros H; injection H as <-; right; now left].
  cbn [negb]. intros H. right. right.
  destruct (validate_lines_error _ _ _ H)
    as (good & bad & rest & rows & Hlines & Hall & Hbad).
  exists good, bad, rest, rows. split; [exact Hlines|].
  split; [exact Hall|]. split.
  - intros row Hrow.
    match type of Hbad with validate_line ?i _ = _ =>
      rewrite (@validate_line_complete i bad row Hrow) in Hbad
    end. discriminate.
  - rewrite Z.add_comm. exact (validate_line_error _ _ Hbad).
Qed.

(** ** Ingestion: [process_csv_file] *)

Lemma NoDup_app_cons_end (A : Type) (l : list A) (x : A) :
  NoDup l -> ~ In x l -> NoDup (l ++ [x]).
Proof.
  induction l as [|y l IH]; cbn; intros Hnd Hin.
  - constructor; [intros []|constructor].
  - apply NoDup_cons_iff in Hnd. destruct Hnd as [Hy Hnd].
    constructor.
    + intros H. apply in_app_or in H. destruct H as [H|[H|[]]];
        [contradiction|]. apply Hin. now left.
    + apply IH; [exact Hnd|]. intros H. apply Hin. now right.
Qed.

Section IngestionFacts.

Variable read_text : string -> string + string.
Variable integer_of_text : string -> Z.
Variable new_product_id : list Product.t -> Z.
Variable env : Env.

(** The database never hands out a key that is in use. *)
Hypothesis new_product_id_fresh :
  forall ps, ~ In (new_product_id ps) (map Product.id ps).

Lemma add_products_appends (request_id : string) (rows : list CsvRow) :
  forall s,
    NoDup (map Product.id (products s)) ->
    exists new,
      add_products integer_of_text new_product_id request_id rows s
      = Ret tt (set_products (products s ++ new)%list s) /\
      Forall2 (item_of_row request_id) rows new /\
      NoDup (map Product.id (products s ++ new)%list).
Proof.
  induction rows as [|row rest IH]; intros s Hnodup; cbn.
  - exists []. rewrite app_nil_r. split; [now destruct s|].
    split; [constructor|exact Hnodup].
  - unfold bind, add_product, modify.
    set (p := product_of_row integer_of_text request_id row
                (new_product_id (products s))).
    destruct (IH (set_products (products s ++ [p])%list s))
      as (new & Hrun & Hall & Hnd).
    { cbn. rewrite map_app. cbn.
      apply NoDup_app_cons_end; [exact Hnodup|].
      apply new_product_id_fresh. }
    exists (p :: new). rewrite Hrun. cbn in *.
    rewrite <- app_assoc in *. cbn in *.
    split; [reflexivity|]. split; [|exact Hnd].
    constructor; [|exact Hall]. unfold item_of_row. now cbn.
Qed.

Lemma Forall2_in_r_item (request_id : string) (rows : list CsvRow)
  (new : list Product.t) :
  Forall2 (item_of_row request_id) rows new ->
  forall p, In p new -> Product.request_id p = request_id.
Proof.
  intros Hall p Hp. destruct (Forall2_in_r Hall p Hp) as (row & _ & H).
  exact (proj1 H).
Qed.

Lemma process_csv_file_batch (file_path : string)
  (webhook_url : option string) (rows : list CsvRow) (s : State) :
  reliable env ->
  validate_csv_format read_text file_path = inr rows ->
  find_request (uuid4 env (uuid_ctr s)) s = None ->
  (forall p, In p (products s) ->
             Product.request_id p <> uuid4 env (uuid_ctr s)) ->
  NoDup (map Product.id (products s)) ->
  exists request_id s',
    process_csv_file read_text integer_of_text new_product_id env
                     file_path webhook_url s = Ret request_id s' /\
    request_id = uuid4 env (uuid_ctr s) /\
    find_request request_id s'
    = Some (Request.mk request_id PENDING (basename file_path)
                       (Z.of_nat (List.length rows)) 0 0 webhook_url) /\
    Forall2 (item_of_row request_id) rows (batch_items request_id s') /\
    total_count request_id s' = Z.of_nat (List.length rows) /\
    NoDup (map Product.id (products s')) /\
    hd_error (committed s') = Some (snap s') /\
    (forall other, other <> request_id ->
       find_request other s' = find_request other s /\
       batch_items other s' = batch_items other s).
Proof.
  intros Hrel Hvalid Hnew Hunused Hnodup.
  unfold process_csv_file. rewrite Hvalid.
  unfold bind at 1. unfold draw_uuid4 at 1.
  unfold bind at 1. unfold add_request at 1. unfold modify at 1.
  unfold bind at 1.
  match goal with |- context [add_products _ _ ?rid _ ?st] =>
    destruct (add_products_appends rid rows st)
      as (new & Hadd & Hall & Hnd); [exact Hnodup|]
  end.
  rewrite Hadd. unfold bind at 1.
  rewrite (commit_reliable Hrel). unfold ret.
  eexists. eexists. split; [reflexivity|]. split; [reflexivity|].
  cbn in Hnd.
  assert (Hitems : forall p, In p new ->
                     Product.request_id p = uuid4 env (uuid_ctr s))
    by exact (Forall2_in_r_item Hall).
  assert (Hmine : filter (product_of_request (uuid4 env (uuid_ctr s)))
                         (products s ++ new) = new).
  { rewrite filter_app, filter_none, filter_all; [reflexivity| |].
    - intros p Hp. unfold product_of_request.
      rewrite (Hitems p Hp). apply String.eqb_refl.
    - intros p Hp. unfold product_of_request.
      apply String.eqb_neq. now apply Hunused. }
  split; [|split; [|split; [|split; [|split]]]].
  - unfold find_request in *. cbn. rewrite find_app, Hnew. cbn.
    unfold request_has_id. cbn. now rewrite String.eqb_refl.
  - unfold batch_items. cbn. now rewrite Hmine.
  - unfold total_count, count_items, batch_items. cbn.
    rewrite Hmine, filter_true. f_equal.
    symmetry. exact (Forall2_length Hall).
  - exact Hnd.
  - reflexivity.
  - intros other Hother. split.
    + unfold find_request. cbn. rewrite find_app.
      destruct (find (request_has_id other) (requests s)); [reflexivity|].
      cbn. unfold request_has_id. cbn.
      destruct (String.eqb_spec (uuid4 env (uuid_ctr s)) other);
        [congruence|reflexivity].
    + unfold batch_items. cbn. rewrite filter_app.
      rewrite (@filter_none _ _ new), app_nil_r; [reflexivity|].
      intros p Hp. unfold product_of_request. rewrite (Hitems p Hp).
      now apply String.eqb_neq.
Qed.

(** X4: on a reliable database, an accepted manifest becomes a new batch: a
    pending request under a freshly drawn identifier, with the number of
    rows as its total and nothing processed or notified, and one pending
    item without outputs per row, in the order of the rows; what was in
    the tables before is untouched, and product keys stay unique. *)
Theorem process_csv_file_creates_batch (file_path : string)
  (webhook_url : option string) (rows : list CsvRow) (s : State) :
  reliable env ->
  validate_csv_format read_text file_path = inr rows ->
  find_request (uuid4 env (uuid_ctr s)) s = None ->
  (forall p, In p (products s) ->
             Product.request_id p <> uuid4 env (uuid_ctr s)) ->
  NoDup (map Product.id (products s)) ->
  exists request_id s',
    process_csv_file read_text integer_of_text new_product_id env
                     file_path webhook_url s = Ret request_id s' /\
    request_id = uuid4 env (uuid_ctr s) /\
    find_request request_id s'
    = Some (Request.mk request_id PENDING (basename file_path)
                       (Z.of_nat (List.length rows)) 0 0 webhook_url) /\
    Forall2 (item_of_row request_id) rows (batch_items request_id s') /\
    total_count request_id s' = Z.of_nat (List.length rows) /\
    NoDup (map Product.id (products s')) /\
    hd_error (committed s') = Some (snap s') /\
    (forall other, other <> request_id ->
       find_request other s' = find_request other s /\
       batch_items other s' = batch_items other s).
Proof. apply process_csv_file_batch. Qed.

End IngestionFacts.

(** ** The end of a run *)




Section Drain.

Variable env : Env.
Hypothesis Hrel : reliable env.
Variable request_id : string.


End Drain.




(** ** What the notifier sends *)


(** ** Stored images *)

Lemma file_at_add_file_same (path : string) (data : bytes) (s : State) :
  file_at (files (add_file path data s)) path = Some data.
Proof. unfold file_at. cbn. now rewrite String.eqb_refl. Qed.

Lemma find_filter_other (fs : list (string * bytes)) (path other : string) :
  other <> path ->
  find (fun f => String.eqb (fst f) other)
       (filter (fun f => negb (String.eqb (fst f) path)) fs)
  = find (fun f => String.eqb (fst f) other) fs.
Proof.
  intros Hne. induction fs as [|[q d] fs IH]; cbn; [reflexivity|].
  destruct (String.eqb_spec q path) as [->|Hq]; cbn.
  - destruct (String.eqb_spec path other); [congruence|exact IH].
  - destruct (String.eqb q other); [reflexivity|exact IH].
Qed.

Lemma file_at_add_file_other (path other : string) (data : bytes)
  (s : State) :
  other <> path ->
  file_at (files (add_file path data s)) other = file_at (files s) other.
Proof.
  intros Hne. unfold file_at. cbn.
  destruct (String.eqb_spec path other); [congruence|].
  now rewrite find_filter_other.
Qed.

Lemma file_at_In (fs : list (string * bytes)) (path : string)
  (data : bytes) :
  file_at fs path = Some data -> In (path, data) fs.
Proof.
  unfold file_at.
  destruct (find (fun f => String.eqb (fst f) path) fs) as [[q d]|] eqn:E;
    cbn; [|discriminate].
  intros H. injection H as ->. apply find_some in E.
  destruct E as [Hin Heq]. cbn in Heq. apply String.eqb_eq in Heq.
  now subst q.
Qed.

Lemma stores_refl (env : Env) (s : State) : stores env s s.
Proof. split; [lia|]. split; intros path H; [reflexivity|exact H]. Qed.

Lemma stores_trans (env : Env) (s1 s2 s3 : State) :
  stores env s1 s2 -> stores env s2 s3 -> stores env s1 s3.
Proof.
  intros (Hle1 & Hf1 & He1) (Hle2 & Hf2 & He2).
  split; [lia|]. split.
  - intros path Hpath. rewrite Hf2, Hf1; [reflexivity| |];
      intros k Hk; apply Hpath; lia.
  - intros path H. apply He2, He1, H.
Qed.

(** A step that leaves the files and the uuid counter alone. *)
Lemma stores_same (env : Env) (s s' : State) :
  files s' = files s -> uuid_ctr s' = uuid_ctr s -> stores env s s'.
Proof.
  intros Hf Hc. split; [lia|]. rewrite Hf.
  split; intros path H; [reflexivity|exact H].
Qed.

Ltac stores_step env :=
  first
    [ assumption
    | apply keeps_ret; [apply stores_refl]
    | apply keeps_raise; [apply stores_refl]
    | apply keeps_gets; [apply stores_refl]
    | apply keeps_modify; intros ?; apply stores_same; reflexivity
    | apply keeps_bind; [exact (@stores_trans env)| |intros ?]
    | apply keeps_try_except; [exact (@stores_trans env)| |intros ?] ].

Section StoresSteps.

Variable env : Env.

Lemma stores_db_call : keeps (stores env) (db_call env).
Proof.
  intros s. unfold db_call.
  destruct (db_fault env (db_ops s)); cbn; apply stores_same; reflexivity.
Qed.

Lemma stores_commit : keeps (stores env) (commit env).
Proof.
  pose proof stores_db_call. unfold commit. repeat stores_step env.
Qed.

Lemma stores_query_request (request_id : string) :
  keeps (stores env) (query_request env request_id).
Proof.
  pose proof stores_db_call. unfold query_request. repeat stores_step env.
Qed.

Lemma stores_query_product (product_id : Z) :
  keeps (stores env) (query_product env product_id).
Proof.
  pose proof stores_db_call. unfold query_product. repeat stores_step env.
Qed.

Lemma stores_query_products (request_id : string) :
  keeps (stores env) (query_products env request_id).
Proof.
  pose proof stores_db_call. unfold query_products. repeat stores_step env.
Qed.

Lemma stores_count_products (request_id : string)
  (extra : Product.t -> bool) :
  keeps (stores env) (count_products env request_id extra).
Proof.
  pose proof stores_db_call. unfold count_products. repeat stores_step env.
Qed.

(** A write under the path of the uuid just drawn. *)
Lemma stores_add_file (s : State) (data : bytes) :
  stores env s (add_file (stored_path env (uuid_ctr s)) data (next_uuid s)).
Proof.
  split; [cbn; lia|]. split.
  - intros path Hpath. rewrite file_at_add_file_other; [reflexivity|].
    intros ->. apply (Hpath (uuid_ctr s)); [cbn; lia|reflexivity].
  - intros path Hfile.
    destruct (String.eqb_spec path (stored_path env (uuid_ctr s)))
      as [->|Hne].
    + rewrite file_at_add_file_same. discriminate.
    + rewrite file_at_add_file_other by exact Hne. exact Hfile.
Qed.

Lemma stores_process_image (url : string) :
  keeps (stores env) (process_image env url).
Proof.
  intros s.
  destruct (process_image_cases env url s)
    as [(_ & ->)|(_ & c & [(_ & ->)|(_ & ->)])]; cbn [final].
  - apply stores_refl.
  - apply stores_add_file.
  - split; [cbn; lia|]. split; intros path H; [reflexivity|exact H].
Qed.

Lemma stores_process_urls (urls : list string) (acc : list string) :
  keeps (stores env) (process_urls env urls acc).
Proof.
  revert acc. induction urls as [|url rest IH]; intros acc; cbn.
  - apply keeps_ret. apply stores_refl.
  - apply keeps_bind;
      [exact (@stores_trans env)|apply stores_process_image|intros ?].
    apply IH.
Qed.

Lemma stores_process_product_images (product_id : Z) :
  keeps (stores env) (process_product_images env product_id).
Proof.
  pose proof stores_commit. pose proof stores_query_product.
  unfold process_product_images, log_call, assign_product.
  apply keeps_bind; [exact (@stores_trans env)| |intros _].
  { stores_step env. }
  apply keeps_bind; [exact (@stores_trans env)|auto|intros o].
  destruct o as [p|]; [|stores_step env].
  apply keeps_bind; [exact (@stores_trans env)|stores_step env|intros _].
  apply keeps_bind; [exact (@stores_trans env)|auto|intros _].
  apply keeps_try_except; [exact (@stores_trans env)| |intros e].
  - apply keeps_bind;
      [exact (@stores_trans env)|apply stores_process_urls|intros outs].
    repeat stores_step env.
  - repeat stores_step env.
Qed.

Lemma stores_update_request_status (request_id : string) :
  keeps (stores env) (update_request_status env request_id).
Proof.
  pose proof stores_commit. pose proof stores_query_request.
  pose proof stores_count_products.
  unfold update_request_status, log_call, assign_request.
  apply keeps_bind; [exact (@stores_trans env)|stores_step env|intros _].
  apply keeps_bind; [exact (@stores_trans env)|auto|intros o].
  destruct o as [r|]; [|stores_step env].
  do 3 (apply keeps_bind; [exact (@stores_trans env)|auto|intros ?]).
  apply keeps_bind; [exact (@stores_trans env)|stores_step env|intros _].
  apply keeps_bind; [exact (@stores_trans env)| |intros _; auto].
  repeat apply keeps_if; stores_step env.
Qed.

Lemma stores_process_products (request_id : string) (ps : list Product.t) :
  keeps (stores env) (process_products env request_id ps).
Proof.
  induction ps as [|p rest IH]; cbn.
  - apply keeps_ret. apply stores_refl.
  - apply keeps_bind;
      [exact (@stores_trans env)|apply stores_process_product_images
      |intros _].
    apply keeps_bind;
      [exact (@stores_trans env)|apply stores_update_request_status
      |intros _].
    exact IH.
Qed.

Lemma stores_trigger_webhook_if_needed (request_id : string) :
  keeps (stores env) (trigger_webhook_if_needed env request_id).
Proof.
  pose proof stores_commit. pose proof stores_query_request.
  unfold trigger_webhook_if_needed, log_call, assign_request.
  apply keeps_bind; [exact (@stores_trans env)|stores_step env|intros _].
  apply keeps_bind; [exact (@stores_trans env)|auto|intros o].
  destruct o as [r|]; [|stores_step env].
  apply keeps_if; [stores_step env|].
  apply keeps_if; [stores_step env|].
  apply keeps_bind; [exact (@stores_trans env)|stores_step env|intros ts].
  apply keeps_try_except; [exact (@stores_trans env)| |intros e].
  - apply keeps_bind; [exact (@stores_trans env)| |intros _].
    + unfold post_webhook. apply keeps_if; repeat stores_step env.
    + repeat stores_step env.
  - stores_step env.
Qed.

Lemma stores__process_images (request_id : string) :
  keeps (stores env) (_process_images env request_id).
Proof.
  pose proof stores_commit. pose proof stores_query_request.
  unfold _process_images.
  apply keeps_try_finally;
    [exact (@stores_trans env)| |unfold db_close; stores_step env].
  apply keeps_try_except; [exact (@stores_trans env)| |intros e].
  - unfold _process_images_try, assign_request.
    apply keeps_bind;
      [exact (@stores_trans env)|apply stores_query_products|intros ps].
    apply keeps_bind; [exact (@stores_trans env)|auto|intros o].
    apply keeps_bind; [exact (@stores_trans env)| |intros _].
    { destruct o; repeat stores_step env. }
    apply keeps_bind;
      [exact (@stores_trans env)|apply stores_process_products|intros _].
    apply keeps_bind;
      [exact (@stores_trans env)|apply stores_trigger_webhook_if_needed
      |intros _].
    stores_step env.
  - unfold _process_images_except, assign_request.
    apply keeps_bind; [exact (@stores_trans env)|auto|intros o].
    apply keeps_bind; [exact (@stores_trans env)| |intros _].
    { destruct o; repeat stores_step env. }
    stores_step env.
Qed.

End StoresSteps.

Lemma string_app_inv_head (a x y : string) : a ++ x = a ++ y -> x = y.
Proof.
  induction a as [|c a IH]; cbn; [trivial|].
  intros H. injection H as H. now apply IH.
Qed.

Lemma string_length_app (x y : string) :
  String.length (x ++ y) = (String.length x + String.length y)%nat.
Proof. induction x as [|c x IH]; cbn; [reflexivity|now rewrite IH]. Qed.

Lemma string_app_inv_tail (b : string) :
  forall x y, x ++ b = y ++ b -> x = y.
Proof.
  induction x as [|c x IH]; intros [|d y] H; cbn in H.
  - reflexivity.
  - exfalso. apply (f_equal String.length) in H. cbn in H.
    rewrite string_length_app in H. lia.
  - exfalso. apply (f_equal String.length) in H. cbn in H.
    rewrite string_length_app in H. lia.
  - injection H as -> H. f_equal. now apply IH.
Qed.

Lemma stored_path_inj (env : Env) :
  (forall i j, uuid4 env i = uuid4 env j -> i = j) ->
  forall i j, stored_path env i = stored_path env j -> i = j.
Proof.
  intros Hinj i j H. unfold stored_path, path_join in H.
  apply string_app_inv_head in H. apply string_app_inv_head in H.
  apply string_app_inv_tail in H. now apply Hinj.
Qed.

Lemma reinvoke_stores (env : Env) (request_id : string) (n : nat) :
  forall s, stores env s (reinvoke env request_id n s).
Proof.
  induction n as [|n IH]; intros s; cbn; [apply stores_refl|].
  eapply stores_trans; [apply stores__process_images|apply IH].
Qed.

(** X7: whatever the environment does and however often the task is run,
    the runs write only under the paths [PROCESSED_DIR/<uuid>.jpg] of the
    uuids drawn during them: the file under any other path has the content
    it had, and no file is removed. So when none of the drawn names is in
    use before the runs, every file that was stored keeps its content. *)
Theorem runs_write_under_drawn_names (env : Env) (request_id : string)
  (n : nat) (s : State) :
  let s' := reinvoke env request_id n s in
  (forall path,
      (forall k, (uuid_ctr s <= k < uuid_ctr s')%nat ->
                 stored_path env k <> path) ->
      file_at (files s') path = file_at (files s) path) /\
  (forall path, file_at (files s) path <> None ->
                file_at (files s') path <> None) /\
  ((forall k, (uuid_ctr s <= k < uuid_ctr s')%nat ->
              file_at (files s) (stored_path env k) = None) ->
   forall path data,
     file_at (files s) path = Some data ->
     file_at (files s') path = Some data).
Proof.
  cbn zeta.
  destruct (reinvoke_stores env request_id n s) as (_ & Hframe & Hkeep).
  split; [exact Hframe|]. split; [exact Hkeep|].
  intros Hfresh path data Hfile. rewrite Hframe; [exact Hfile|].
  intros k Hk Heq. rewrite <- Heq, (Hfresh k Hk) in Hfile. discriminate.
Qed.

(** ** Published URLs and their files *)

Lemma process_image_ret (env : Env) (url : string) (s s' : State)
  (res : option string) :
  process_image env url s = Ret res s' ->
  (reference_fails env url /\ res = None /\ s' = s) \/
  exists data compressed,
    http_get env url = Some data /\
    pil_jpeg env data IMAGE_COMPRESSION_QUALITY = Some compressed /\
    res = Some (image_url env (uuid4 env (uuid_ctr s) ++ ".jpg")) /\
    s' = add_file (stored_path env (uuid_ctr s)) compressed (next_uuid s).
Proof.
  unfold process_image, download_image, compress_image, bind, ret.
  destruct (http_get env url) as [data|] eqn:Hget.
  - destruct (pil_jpeg env data IMAGE_COMPRESSION_QUALITY)
      as [compressed|] eqn:Hjpeg.
    + unfold draw_uuid4, write_file.
      destruct (fs_write env _ compressed); cbn; [|discriminate].
      intros H. injection H as <- <-. right. now exists data, compressed.
    + intros H. injection H as <- <-. left.
      split; [right; now exists data|now split].
  - intros H. injection H as <- <-. left. split; [now left|now split].
Qed.

(** The rest of the loop, as a step from the state it starts in. *)
Lemma process_urls_stores (env : Env) (urls : list string)
  (acc outs : list string) (s s' : State) :
  process_urls env urls acc s = Ret outs s' -> stores env s s'.
Proof.
  intros H. pose proof (stores_process_urls env urls acc s) as Hs.
  now rewrite H in Hs.
Qed.

(** When no uuid is drawn twice, the file written for a reference is
    still there, with its content, when the loop ends. *)
Lemma process_urls_backed (env : Env) (urls : list string) :
  (forall i j, uuid4 env i = uuid4 env j -> i = j) ->
  forall (acc : list string) (s : State) outs s',
    process_urls env urls acc s = Ret outs s' ->
    exists new, outs = (acc ++ new)%list /\
                Forall2 (backed_entry env (files s')) urls new.
Proof.
  intros Hinj. induction urls as [|url rest IH]; intros acc s outs s'.
  - cbn. unfold ret. intros H. injection H as <- <-.
    exists []. split; [now rewrite app_nil_r|constructor].
  - cbn [process_urls]. unfold bind.
    destruct (process_image env url s) as [res s1|e s1] eqn:Hrun;
      [|discriminate].
    intros H. pose proof (process_urls_stores _ _ _ _ H) as Hrest.
    destruct (IH _ _ _ _ H) as (new & -> & Hall).
    exists (output_entry res :: new). split; [now rewrite <- app_assoc|].
    constructor; [|exact Hall].
    destruct (process_image_ret _ _ _ Hrun)
      as [(Hfail & -> & _)|(d & c & Hget & Hjpeg & -> & ->)].
    + now left.
    + right. exists d, c, (uuid_ctr s).
      split; [exact Hget|]. split; [exact Hjpeg|].
      split; [apply output_entry_image_url|].
      destruct Hrest as (_ & Hframe & _).
      rewrite Hframe; [apply file_at_add_file_same|].
      intros k Hk Heq. apply (stored_path_inj env Hinj) in Heq.
      cbn in Hk. lia.
Qed.

(** Whatever the uuids are, a file is stored under the name of every
    URL that the loop returns. *)
Lemma process_urls_published (env : Env) (urls : list string) :
  forall (acc : list string) (s : State) outs s',
    process_urls env urls acc s = Ret outs s' ->
    exists new, outs = (acc ++ new)%list /\
                Forall (published_entry env (files s')) new.
Proof.
  induction urls as [|url rest IH]; intros acc s outs s'.
  - cbn. unfold ret. intros H. injection H as <- <-.
    exists []. split; [now rewrite app_nil_r|constructor].
  - cbn [process_urls]. unfold bind.
    destruct (process_image env url s) as [res s1|e s1] eqn:Hrun;
      [|discriminate].
    intros H. pose proof (process_urls_stores _ _ _ _ H) as Hrest.
    destruct (IH _ _ _ _ H) as (new & -> & Hall).
    exists (output_entry res :: new). split; [now rewrite <- app_assoc|].
    constructor; [|exact Hall].
    destruct (process_image_ret _ _ _ Hrun)
      as [(Hfail & -> & _)|(d & c & Hget & Hjpeg & -> & ->)].
    + now left.
    + right. exists (uuid_ctr s).
      split; [apply output_entry_image_url|].
      destruct Hrest as (_ & _ & Hkeep). apply Hkeep.
      rewrite file_at_add_file_same. discriminate.
Qed.

(** The loop of the item processor, for an item that ends completed. *)
Lemma process_product_images_loop (env : Env) (product_id : Z)
  (s : State) (p : Product.t) :
  reliable env ->
  find_product product_id s = Some p ->
  exists b s',
    process_product_images env product_id s = Ret b s' /\
    (b = true ->
     exists p' s1 s2,
       find_product product_id s' = Some p' /\
       Product.status p' = COMPLETED /\
       process_urls env (Product.get_input_urls p) [] s1
       = Ret (Product.get_output_urls p') s2 /\
       files s' = files s2).
Proof.
  intros Hrel Hfind. unfold process_product_images, bind, log_call, modify.
  rewrite (query_product_reliable Hrel).
  replace (find_product product_id (add_call _ s)) with (Some p)
    by (symmetry; exact Hfind).
  unfold assign_product at 1. unfold modify.
  rewrite (commit_reliable Hrel). unfold try_except, bind.
  match goal with |- context [process_urls env ?u ?a ?s1] =>
    pose proof (process_urls_cases env u a s1) as Hcases;
    destruct (process_urls env u a s1) as [outs s2|e s2] eqn:Hloop
  end.
  - destruct Hcases as ((_ & Hp & _) & _).
    unfold assign_product, modify. rewrite (commit_reliable Hrel).
    eexists. eexists. split; [reflexivity|]. intros _.
    eexists. eexists. exists s2. split; [|split; [|split]].
    + unfold find_product in *. cbn. cbn in Hp. rewrite Hp.
      rewrite !find_update_first
        by (apply product_has_id_keeps; reflexivity).
      rewrite Hfind. reflexivity.
    + reflexivity.
    + exact Hloop.
    + reflexivity.
  - unfold assign_product, modify. rewrite (commit_reliable Hrel).
    eexists. eexists. split; [reflexivity|]. discriminate.
Qed.

(** X8: on a reliable database and with a uuid generator that never
    repeats a value, when the item processor completes an item, every
    entry of the output list is backed: the placeholder stands for a
    reference that failed, and any other entry is the URL of a drawn name
    under which the processed directory holds the re-encoded bytes of the
    image fetched from that reference. *)
Theorem process_product_images_stores (env : Env) (product_id : Z)
  (s : State) (p : Product.t) :
  reliable env ->
  (forall i j, uuid4 env i = uuid4 env j -> i = j) ->
  find_product product_id s = Some p ->
  exists b s',
    process_product_images env product_id s = Ret b s' /\
    (b = true ->
     exists p',
       find_product product_id s' = Some p' /\
       Product.status p' = COMPLETED /\
       Forall2 (backed_entry env (files s'))
               (Product.get_input_urls p) (Product.get_output_urls p')).
Proof.
  intros Hrel Hinj Hfind.
  destruct (process_product_images_loop product_id s Hrel Hfind)
    as (b & s' & Hrun & Hdone).
  exists b, s'. split; [exact Hrun|]. intros Hb.
  destruct (Hdone Hb) as (p' & s1 & s2 & Hfind' & Hst & Hloop & Hfiles).
  exists p'. split; [exact Hfind'|]. split; [exact Hst|].
  destruct (@process_urls_backed env _ Hinj _ _ _ _ Hloop)
    as (new & Hout & Hall).
  cbn [app] in Hout. rewrite Hout, Hfiles. exact Hall.
Qed.

(** ** Serving a processed image *)

Lemma lower_char_slash (c : ascii) :
  Ascii.eqb (lower_char c) "/" = Ascii.eqb c "/".
Proof. destruct c as [[] [] [] [] [] [] [] []]; reflexivity. Qed.

Lemma has_char_lower_slash (s : string) :
  has_char "/" (lower s) = has_char "/" s.
Proof.
  induction s as [|c s IH]; [reflexivity|].
  cbn [lower has_char]. now rewrite lower_char_slash, IH.
Qed.

Lemma is_name_char_not_slash (c : ascii) :
  is_name_char c = true -> Ascii.eqb c "/" = false.
Proof.
  destruct c as [[] [] [] [] [] [] [] []]; try reflexivity; discriminate.
Qed.

Lemma match_extension_no_slash (rest : string) :
  match_extension rest = true -> has_char "/" rest = false.
Proof.
  unfold match_extension, image_extensions. cbn [existsb].
  rewrite !orb_true_iff, !String.eqb_eq.
  intros H. repeat destruct H as [H|H]; try discriminate; subst rest;
    reflexivity.
Qed.

Lemma match_image_name_no_slash (l : string) :
  forall seen, match_image_name l seen = true -> has_char "/" l = false.
Proof.
  induction l as [|c l IH]; intros seen; [reflexivity|].
  cbn [match_image_name has_char].
  destruct (is_name_char c) eqn:Hc.
  - intros H. rewrite (is_name_char_not_slash _ Hc). exact (IH _ H).
  - destruct (Ascii.eqb_spec c ".") as [->|Hne]; [|discriminate].
    destruct seen; [|discriminate]. cbn [andb].
    intros H. now rewrite (match_extension_no_slash _ H).
Qed.

Lemma dict_get_content_type (key : string) :
  In (dict_get content_types key "image/jpeg") (map snd content_types).
Proof.
  unfold dict_get.
  destruct (find _ content_types) as [kv|] eqn:Hfind.
  - apply find_some in Hfind. apply in_map. tauto.
  - cbn. now left.
Qed.

Lemma file_exists_In (fs : list (string * bytes)) (path : string) :
  existsb (fun f => String.eqb (fst f) path) fs = true <->
  exists data, In (path, data) fs.
Proof.
  rewrite existsb_exists. split.
  - intros ([q data] & Hin & Heq). cbn in Heq. apply String.eqb_eq in Heq.
    subst q. now exists data.
  - intros (data & Hin). exists (path, data). split; [exact Hin|].
    apply String.eqb_refl.
Qed.

(** X9: whatever name is asked for, a file that the image endpoint serves
    lies directly in the processed directory: the name has no path
    separator, the path is the directory joined with the name, a file is
    stored under that path, and the media type is one of the table. *)
Theorem get_processed_image_serves_stored_files (env : Env)
  (filename : string) (s : State) (path media_type name : string) :
  get_processed_image env filename s = FileResponse path media_type name ->
  has_char "/" filename = false /\
  path = path_join (PROCESSED_DIR env) filename /\
  (exists data, In (path, data) (files s)) /\
  In media_type (map snd content_types) /\
  name = filename.
Proof.
  unfold get_processed_image.
  destruct (match_image_name (lower filename) false) eqn:Hmatch;
    cbn [negb]; [|discriminate].
  destruct (existsb _ (files s)) eqn:Hex; cbn [negb]; [|discriminate].
  intros H. injection H as <- <- <-.
  split.
  { rewrite <- has_char_lower_slash.
    exact (match_image_name_no_slash _ _ Hmatch). }
  split; [reflexivity|]. split; [now apply file_exists_In|].
  split; [apply dict_get_content_type|reflexivity].
Qed.

Lemma is_uuid_char_facts (c : ascii) :
  is_uuid_char c = true ->
  is_name_char c = true /\ lower_char c = c /\ Ascii.eqb c "." = false.
Proof.
  destruct c as [[] [] [] [] [] [] [] []]; try discriminate;
    intros _; repeat split.
Qed.

Lemma lower_app (a b : string) : lower (a ++ b) = lower a ++ lower b.
Proof. induction a as [|c a IH]; [reflexivity|]. cbn. now rewrite IH. Qed.

Lemma lower_uuid (u : string) :
  all_chars is_uuid_char u = true -> lower u = u.
Proof.
  induction u as [|c u IH]; [reflexivity|]. cbn [all_chars lower].
  intros H. apply andb_prop in H. destruct H as [Hc Hu].
  destruct (is_uuid_char_facts _ Hc) as (_ & -> & _). now rewrite IH.
Qed.

Lemma uuid_no_dot (u : string) :
  all_chars is_uuid_char u = true -> has_char "." u = false.
Proof.
  induction u as [|c u IH]; [reflexivity|]. cbn [all_chars has_char].
  intros H. apply andb_prop in H. destruct H as [Hc Hu].
  destruct (is_uuid_char_facts _ Hc) as (_ & _ & ->). now rewrite IH.
Qed.

Lemma match_image_name_uuid (u : string) :
  forall seen,
    all_chars is_uuid_char u = true ->
    (seen = true \/ u <> "") ->
    match_image_name (u ++ ".jpg") seen = true.
Proof.
  induction u as [|c u IH]; intros seen Hall Hseen.
  - destruct Hseen as [->|Hne]; [reflexivity|congruence].
  - cbn [all_chars] in Hall. apply andb_prop in Hall.
    destruct Hall as [Hc Hu].
    destruct (is_uuid_char_facts _ Hc) as (Hname & _ & _).
    cbn [append match_image_name]. rewrite Hname.
    apply IH; [exact Hu|now left].
Qed.

Lemma path_suffix_uuid (u : string) :
  uuid_text u = true -> path_suffix (u ++ ".jpg") = ".jpg".
Proof.
  unfold uuid_text. intros H. apply andb_prop in H. destruct H as [Hne Hall].
  unfold path_suffix.
  replace (u ++ ".jpg") with (join "." [u; "jpg"]) by reflexivity.
  rewrite split_on_join.
  - destruct u; [discriminate|reflexivity].
  - discriminate.
  - repeat constructor. now apply uuid_no_dot.
Qed.

(** A stored file whose name is the text of a uuid followed by [.jpg]
    is served by the image endpoint as a JPEG. *)
Lemma get_processed_image_uuid (env : Env) (u : string) (s : State)
  (data : bytes) :
  uuid_text u = true ->
  In (path_join (PROCESSED_DIR env) (u ++ ".jpg"), data) (files s) ->
  get_processed_image env (u ++ ".jpg") s
  = FileResponse (path_join (PROCESSED_DIR env) (u ++ ".jpg"))
                 "image/jpeg" (u ++ ".jpg").
Proof.
  intros Hu Hin. pose proof Hu as Hu'.
  unfold uuid_text in Hu'. apply andb_prop in Hu'. destruct Hu' as [Hne Hall].
  unfold get_processed_image.
  rewrite lower_app, (lower_uuid _ Hall).
  change (lower ".jpg") with ".jpg".
  rewrite match_image_name_uuid;
    [|exact Hall|right; intros ->; discriminate].
  cbn [negb].
  replace (existsb _ (files s)) with true
    by (symmetry; apply file_exists_In; now exists data).
  cbn [negb]. now rewrite (path_suffix_uuid _ Hu).
Qed.

(** X10: when the names drawn are texts of uuids, every URL that a completed
    item publishes is the image URL of a name that the image endpoint
    serves, as a JPEG, from the processed directory. *)
Theorem process_product_images_urls_are_served (env : Env)
  (product_id : Z) (s : State) (p : Product.t) :
  reliable env ->
  (forall k, uuid_text (uuid4 env k) = true) ->
  find_product product_id s = Some p ->
  exists b s',
    process_product_images env product_id s = Ret b s' /\
    (b = true ->
     exists p',
       find_product product_id s' = Some p' /\
       forall out,
         In out (Product.get_output_urls p') -> out <> "" ->
         exists filename,
           out = image_url env filename /\
           get_processed_image env filename s'
           = FileResponse (path_join (PROCESSED_DIR env) filename)
                          "image/jpeg" filename).
Proof.
  intros Hrel Huuid Hfind.
  destruct (process_product_images_loop product_id s Hrel Hfind)
    as (b & s' & Hrun & Hdone).
  exists b, s'. split; [exact Hrun|]. intros Hb.
  destruct (Hdone Hb) as (p' & s1 & s2 & Hfind' & _ & Hloop & Hfiles).
  exists p'. split; [exact Hfind'|]. intros out Hin Hne.
  destruct (@process_urls_published env _ _ _ _ _ Hloop)
    as (new & Hout & Hall).
  cbn [app] in Hout. rewrite Hout in Hin.
  rewrite Forall_forall in Hall.
  destruct (Hall out Hin) as [->|(k & -> & Hfile)]; [congruence|].
  exists (uuid4 env k ++ ".jpg"). split; [reflexivity|].
  destruct (file_at (files s2) (stored_path env k)) as [c|] eqn:Hc;
    [|congruence].
  apply file_at_In in Hc. rewrite <- Hfiles in Hc.
  exact (get_processed_image_uuid env (uuid4 env k) s' c (Huuid k) Hc).
Qed.

(** ** Reading a list of URLs back *)

Lemma rstrip_idem (s : string) : rstrip (rstrip s) = rstrip s.
Proof.
  induction s as [|c s IH]; [reflexivity|]. cbn [rstrip].
  destruct (rstrip s) as [|d r] eqn:E.
  - destruct (is_space c) eqn:Hc; [reflexivity|]. cbn. now rewrite Hc.
  - cbn [rstrip]. cbn [rstrip] in IH. now rewrite IH.
Qed.

Lemma lstrip_head (s : string) :
  lstrip s = "" \/ exists c rest, lstrip s = String c rest /\ is_space c = false.
Proof.
  induction s as [|c s IH]; [now left|]. cbn [lstrip].
  destruct (is_space c) eqn:Hc; [exact IH|]. right. now exists c, s.
Qed.

Lemma lstrip_rstrip_lstrip (s : string) :
  lstrip (rstrip (lstrip s)) = rstrip (lstrip s).
Proof.
  destruct (lstrip_head s) as [->|(c & rest & -> & Hc)]; [reflexivity|].
  cbn [rstrip]. destruct (rstrip rest); rewrite ?Hc; cbn [lstrip];
    now rewrite Hc.
Qed.

Lemma strip_idem (s : string) : strip (strip s) = strip s.
Proof.
  unfold strip. now rewrite lstrip_rstrip_lstrip, rstrip_idem.
Qed.

Lemma has_char_lstrip (c : ascii) (s : string) :
  has_char c s = false -> has_char c (lstrip s) = false.
Proof.
  induction s as [|d s IH]; [reflexivity|]. cbn [lstrip].
  destruct (is_space d); [|tauto]. cbn [has_char].
  intros H. apply orb_false_iff in H. tauto.
Qed.

Lemma has_char_rstrip (c : ascii) (s : string) :
  has_char c s = false -> has_char c (rstrip s) = false.
Proof.
  induction s as [|d s IH]; [reflexivity|]. cbn [rstrip has_char].
  intros H. apply orb_false_iff in H. destruct H as [Hd Hs].
  specialize (IH Hs).
  destruct (rstrip s) as [|e r].
  - destruct (is_space d); [reflexivity|]. cbn. now rewrite Hd.
  - cbn [has_char]. cbn [has_char] in IH. now rewrite Hd, IH.
Qed.

Lemma has_char_strip (c : ascii) (s : string) :
  has_char c s = false -> has_char c (strip s) = false.
Proof.
  intros H. unfold strip. now apply has_char_rstrip, has_char_lstrip.
Qed.

(** X11: the list of URLs that ingestion reads from a cell, joined by commas
    as the result manifest writes it, reads back as the same list. *)
Theorem url_list_of_round_trip (urls : string) :
  url_list_of (join "," (url_list_of urls)) = url_list_of urls.
Proof.
  unfold url_list_of at 1. rewrite split_on_join.
  - unfold url_list_of. rewrite map_map. apply map_ext.
    intros x. apply strip_idem.
  - unfold url_list_of. pose proof (split_on_nonempty "," urls) as H.
    destruct (split_on "," urls); [congruence|discriminate].
  - unfold url_list_of. apply Forall_map.
    eapply Forall_impl; [|apply split_on_no_sep].
    intros x Hx. now apply has_char_strip.
Qed.

(** ** From a manifest to a finished batch *)


(** ** The result manifest *)

Lemma validate_csv_text_four_columns (rest : string) :
  validate_csv_text (csv_header ++ rest) = inl "Invalid number of columns".
Proof. reflexivity. Qed.

(** X13: no result manifest is accepted as an input manifest: the text that
    [generate_output_csv] produces has four columns, and
    [validate_csv_format] rejects a file with this text. *)
Theorem generate_output_csv_not_a_manifest
  (read_text : string -> string + string) (env : Env)
  (request_id : string) (s s' : State) (path text file_path : string) :
  generate_output_csv env request_id s = Ret (Some (path, text)) s' ->
  read_text file_path = inr text ->
  validate_csv_format read_text file_path = inl "Invalid number of columns".
Proof.
  intros Hgen Hread. unfold validate_csv_format. rewrite Hread.
  rewrite (generate_output_csv_text _ _ _ Hgen).
  apply validate_csv_text_four_columns.
Qed.

(** ** The properties at concrete inputs *)

Lemma demo_new_product_id_fresh (ps : list Product.t) :
  ~ In (demo_new_product_id ps) (map Product.id ps).
Proof.
  unfold demo_new_product_id.
  assert (H : forall l x, In x l -> (x <= fold_right Z.max 0 l)%Z).
  { induction l as [|y l IH]; intros x Hx; [contradiction|].
    cbn [fold_right]. destruct Hx as [->|Hx]; [lia|].
    specialize (IH x Hx). lia. }
  intros Hin. apply H in Hin. lia.
Defined.

Lemma string_of_uint_digits (d : Decimal.uint) :
  all_chars is_uuid_char (NilEmpty.string_of_uint d) = true.
Proof. induction d; cbn; auto. Defined.

Lemma demo_uuid_text (k : nat) : uuid_text (demo_uuid k) = true.
Proof.
  unfold demo_uuid, uuid_text. cbn.
  unfold NilZero.string_of_uint.
  destruct (Nat.to_uint k); try apply string_of_uint_digits. reflexivity.
Defined.

Lemma to_uint_not_Nil (n : nat) : Nat.to_uint n <> Decimal.Nil.
Proof.
  intros H. pose proof (f_equal Nat.of_uint H) as Hn.
  rewrite DecimalNat.Unsigned.of_to in Hn. cbn in Hn. subst n.
  discriminate H.
Qed.

Lemma demo_uuid_inj (i j : nat) : uuid4 demo_env i = uuid4 demo_env j -> i = j.
Proof.
  intros H. change (demo_uuid i = demo_uuid j) in H. unfold demo_uuid in H.
  apply string_app_inv_head in H.
  apply (f_equal NilZero.uint_of_string) in H.
  rewrite !NilZero.usu in H by apply to_uint_not_Nil.
  injection H as H. now apply DecimalNat.Unsigned.to_uint_inj.
Qed.

Lemma validate_csv_format_accepts_witness :
  validate_csv_format demo_read_text "data/uploads/m.csv" = inr demo_rows /\
  exists text,
    demo_read_text "data/uploads/m.csv" = inr text /\
    Permutation (split_on ","%char (strip (hd "" (text_lines text))))
                required_columns /\
    Forall2 row_of_line (tl (text_lines text)) demo_rows.
Proof.
  split; [reflexivity|].
  apply (proj1 (validate_csv_format_accepts demo_read_text
                  "data/uploads/m.csv" demo_rows)).
  reflexivity.
Defined.

Lemma validate_csv_format_blank_line_witness :
  exists e,
    validate_csv_format demo_read_text "data/uploads/blank.csv" = inl e.
Proof.
  apply (@validate_csv_format_blank_line demo_read_text
           "data/uploads/blank.csv" demo_manifest_blank (String "010" ""));
    [reflexivity|cbn; auto|reflexivity].
Defined.

Lemma validate_csv_format_error_witness :
  let e := "Missing data in row 3" in
  validate_csv_format demo_read_text "data/uploads/blank.csv" = inl e /\
  (e = "Missing required columns" \/ e = "Invalid number of columns" \/
   exists good bad rest rows,
     tl (text_lines demo_manifest_blank) = (good ++ bad :: rest)%list /\
     Forall2 row_of_line good rows /\
     (forall row, ~ row_of_line bad row) /\
     (e = "Missing data in row " ++ str_int (Z.of_nat (List.length good) + 1)
      \/ e = "Invalid image URL format in row "
             ++ str_int (Z.of_nat (List.length good) + 1))).
Proof.
  split; [reflexivity|].
  exact (@validate_csv_format_error demo_read_text "data/uploads/blank.csv"
           demo_manifest_blank "Missing data in row 3" eq_refl eq_refl).
Defined.

Lemma two_item_batch_other_ids (p : Product.t) :
  In p (products two_item_batch) ->
  Product.request_id p <> uuid4 demo_env (uuid_ctr two_item_batch).
Proof. cbn. intros [<-|[<-|[]]]; discriminate. Defined.

Lemma two_item_batch_NoDup :
  NoDup (map Product.id (products two_item_batch)).
Proof.
  cbn. constructor; [intros [H|[]]; discriminate H|].
  constructor; [intros []|constructor].
Defined.

Lemma process_csv_file_creates_batch_witness :
  exists request_id s',
    process_csv_file demo_read_text demo_integer_of_text demo_new_product_id
                     demo_env "data/uploads/m.csv" None two_item_batch
    = Ret request_id s' /\
    request_id = demo_uuid 0 /\
    Forall2 (item_of_row request_id) demo_rows (batch_items request_id s') /\
    total_count request_id s' = 2%Z /\
    batch_items "r1" s' = batch_items "r1" two_item_batch.
Proof.
  destruct (@process_csv_file_creates_batch demo_read_text
              demo_integer_of_text demo_new_product_id demo_env
              demo_new_product_id_fresh "data/uploads/m.csv" None demo_rows
              two_item_batch (fun _ => eq_refl) eq_refl eq_refl
              two_item_batch_other_ids two_item_batch_NoDup)
    as (request_id & s' & Hrun & Hid & _ & Hall & Htot & _ & _ & Hother).
  exists request_id, s'. split; [exact Hrun|]. split; [exact Hid|].
  split; [exact Hall|]. split; [exact Htot|].
  apply Hother. rewrite Hid. discriminate.
Defined.


Lemma process_product_images_stores_witness :
  exists b s',
    process_product_images demo_env 1 two_item_batch = Ret b s' /\
    (b = true ->
     exists p',
       find_product 1 s' = Some p' /\
       Product.status p' = COMPLETED /\
       Forall2 (backed_entry demo_env (files s'))
               ["http://broken.example/x.png"; "http://img.example/a.png"]
               (Product.get_output_urls p')).
Proof.
  exact (@process_product_images_stores demo_env 1 two_item_batch _
           (fun _ => eq_refl) demo_uuid_inj eq_refl).
Defined.

Lemma get_processed_image_serves_stored_files_witness :
  get_processed_image demo_env (demo_uuid 0 ++ ".jpg") demo_processed
  = FileResponse "data/processed/9f1c2e7a-0000-4000-8000-0.jpg" "image/jpeg"
                 "9f1c2e7a-0000-4000-8000-0.jpg" /\
  has_char "/" (demo_uuid 0 ++ ".jpg") = false /\
  exists data,
    In ("data/processed/9f1c2e7a-0000-4000-8000-0.jpg", data)
       (files demo_processed).
Proof.
  split; [reflexivity|].
  destruct (@get_processed_image_serves_stored_files demo_env
              (demo_uuid 0 ++ ".jpg") demo_processed _ _ _ eq_refl)
    as (Hsep & _ & Hfile & _).
  split; [exact Hsep|exact Hfile].
Defined.

Lemma process_product_images_urls_are_served_witness :
  exists b s',
    process_product_images demo_env 2 two_item_batch = Ret b s' /\
    (b = true ->
     exists p',
       find_product 2 s' = Some p' /\
       forall out,
         In out (Product.get_output_urls p') -> out <> "" ->
         exists filename,
           out = image_url demo_env filename /\
           get_processed_image demo_env filename s'
           = FileResponse (path_join (PROCESSED_DIR demo_env) filename)
                          "image/jpeg" filename).
Proof.
  exact (@process_product_images_urls_are_served demo_env 2 two_item_batch _
           (fun _ => eq_refl) demo_uuid_text eq_refl).
Defined.


Lemma generate_output_csv_not_a_manifest_witness :
  validate_csv_format
    (fun _ => inr (csv_header
                   ++ csv_row (demo_product 1 ["http://img.example/a.png"]
                        (Some ["http://localhost:8000/api/image/a.jpg"])
                        COMPLETED)))
    "data/uploads/output_r1.csv"
  = inl "Invalid number of columns".
Proof.
  exact (@generate_output_csv_not_a_manifest _ demo_env "r1" notified_batch
           _ _ _ "data/uploads/output_r1.csv" eq_refl eq_refl).
Defined.
